(** * local-chat: the peer link, the session controller and the event bus

    A shallow embedding of the JavaScript sources

      - [WebRTCManager]  (the WebRTC module: offer/answer, channel handlers,
                          [handleMessage], [send], [cleanup], [destroy],
                          [compressDescription]/[decompressDescription]),
      - [StateManager]   (the state module: [on], [off], [emit], [setState],
                          [select]),
      - js/app.js        ([state], [broadcastMessage], [sendMessage],
                          [setupWebRTCHandlers], [kickPeer], [initHost],
                          [confirmExit], [saveProfile], [initApp], ...),
      - [Storage]        (the storage module: [getAll], [getBySession]),
      - [QRScanner]      (js/qrscanner.js: [start], [scan], [stop]),
      - sw.js            (the fetch listener, [cacheFirst], [networkFirst]),

    together with the small part of the JavaScript platform these functions
    rest on: JSON values, [JSON.stringify], [JSON.parse], exceptions, and the
    heap of [RTCDataChannel] and [RTCPeerConnection] objects that the program
    holds references to. *)

From Stdlib Require Import ZArith String Ascii DecimalString.
From Stdlib Require DecimalPos.
From stdpp Require Import base option list strings.

Set Warnings "-register-all".

(* stdpp freezes string append for [simpl]; the JSON texts below are built
   with it and have to reduce. *)
#[local] Arguments String.append !_ _ / : simpl nomatch.

(** ** Completions: a JavaScript call returns normally or throws *)

Inductive Error :=
| TypeError (msg : string)
| SyntaxError
| InvalidStateError
| OperationError
| ErrorMsg (msg : string).

Inductive Completion (A : Type) :=
| Normal (a : A)
| Throw (e : Error).
Arguments Normal {A} a.
Arguments Throw {A} e.

(** ** JavaScript values

    The values that travel through the program: what [JSON.parse] produces,
    plus [undefined].  Strings are sequences of code units below 256 (Rocq's
    [string]); numbers are the integers. *)

Inductive value :=
| JUndefined
| JNull
| JBool (b : bool)
| JNum (n : Z)
| JStr (s : string)
| JArr (items : list value)
| JObj (props : list (string * value)).

(** A JavaScript object used as a record or as a dictionary: its own
    enumerable string-keyed properties, in property order.  Assigning to an
    existing key keeps its position; a new key goes last.  (Keys that are
    array indices, below 2^32 - 1, would come first in ascending order; the
    only numeric keys of the program are [Date.now()] timestamps, which are
    far above.) *)

Section Props.
Context {A : Type}.

Fixpoint obj_get (k : string) (o : list (string * A)) : option A :=
  match o with
  | [] => None
  | (k', v) :: o' => if String.eqb k k' then Some v else obj_get k o'
  end.

Fixpoint obj_set (k : string) (v : A) (o : list (string * A)) : list (string * A) :=
  match o with
  | [] => [(k, v)]
  | (k', v') :: o' =>
      if String.eqb k k' then (k', v) :: o' else (k', v') :: obj_set k v o'
  end.

Fixpoint obj_delete (k : string) (o : list (string * A)) : list (string * A) :=
  match o with
  | [] => []
  | (k', v') :: o' =>
      if String.eqb k k' then o' else (k', v') :: obj_delete k o'
  end.

Definition obj_keys (o : list (string * A)) : list string := map fst o.

(** [{ ...a, ...b }]: the properties of [b] are assigned onto [a] one by
    one in [b]'s order. *)
Definition obj_spread (a b : list (string * A)) : list (string * A) :=
  foldl (fun acc kv => obj_set (fst kv) (snd kv) acc) a b.
End Props.

Definition object : Type := list (string * value).

(** ** JSON.stringify *)

Definition DQ : ascii := Ascii false true false false false true false false.
Definition BSL : ascii := "\"%char.

Definition hex_digit (n : N) : ascii :=
  if (n <? 10)%N then ascii_of_N (48 + n) else ascii_of_N (87 + n).

Definition escape_char (c : ascii) : string :=
  let n := N_of_ascii c in
  if Ascii.eqb c DQ then String BSL (String DQ "")
  else if Ascii.eqb c BSL then String BSL (String BSL "")
  else if (n =? 8)%N then String BSL "b"
  else if (n =? 12)%N then String BSL "f"
  else if (n =? 10)%N then String BSL "n"
  else if (n =? 13)%N then String BSL "r"
  else if (n =? 9)%N then String BSL "t"
  else if (n <? 32)%N then
    String BSL (String "u" (String "0" (String "0"
      (String (hex_digit (n / 16)) (String (hex_digit (n mod 16)) "")))))
  else String c "".

Fixpoint escape (s : string) : string :=
  match s with
  | EmptyString => ""
  | String c r => escape_char c +:+ escape r
  end.

Definition quote (s : string) : string := String DQ (escape s +:+ String DQ "").

(** [stringify] is SerializeJSONProperty for a value that is not [undefined]
    at top level: inside an array [undefined] prints as [null], inside an
    object a member whose value is [undefined] is left out. *)
Fixpoint stringify (v : value) : string :=
  match v with
  | JUndefined | JNull => "null"
  | JBool true => "true"
  | JBool false => "false"
  | JNum n => NilZero.string_of_int (Z.to_int n)
  | JStr s => quote s
  | JArr l =>
      "[" +:+
      String.concat ","
        ((fix items (l : list value) : list string :=
            match l with
            | [] => []
            | x :: l' => stringify x :: items l'
            end) l) +:+ "]"
  | JObj o =>
      "{" +:+
      String.concat ","
        ((fix members (o : list (string * value)) : list string :=
            match o with
            | [] => []
            | (k, x) :: o' =>
                match x with
                | JUndefined => members o'
                | _ => (quote k +:+ ":" +:+ stringify x) :: members o'
                end
            end) o) +:+ "}"
  end.

(** [JSON.stringify(v)]: [None] stands for the result [undefined]. *)
Definition JSON_stringify (v : value) : option string :=
  match v with
  | JUndefined => None
  | _ => Some (stringify v)
  end.

(** ** JSON.parse

    A recursive-descent reader of the JSON grammar.  Outside the modelled
    fragment, and rejected here: number literals with a fraction or an
    exponent, and [\uXXXX] escapes for code units above 255. *)

Definition is_ws (c : ascii) : bool :=
  let n := N_of_ascii c in
  ((n =? 32) || (n =? 9) || (n =? 10) || (n =? 13))%N.

Fixpoint skip_ws (s : string) : string :=
  match s with
  | String c r => if is_ws c then skip_ws r else s
  | EmptyString => s
  end.

Definition hex_val (c : ascii) : option N :=
  let n := N_of_ascii c in
  if ((48 <=? n) && (n <=? 57))%N then Some (n - 48)%N
  else if ((97 <=? n) && (n <=? 102))%N then Some (n - 87)%N
  else if ((65 <=? n) && (n <=? 70))%N then Some (n - 55)%N
  else None.

Definition hex4 (h1 h2 h3 h4 : ascii) : option ascii :=
  match hex_val h1, hex_val h2, hex_val h3, hex_val h4 with
  | Some d1, Some d2, Some d3, Some d4 =>
      let code := (((d1 * 16 + d2) * 16 + d3) * 16 + d4)%N in
      if (code <? 256)%N then Some (ascii_of_N code) else None
  | _, _, _, _ => None
  end.

Definition unescape (e : ascii) : option ascii :=
  if Ascii.eqb e DQ then Some DQ
  else if Ascii.eqb e BSL then Some BSL
  else if Ascii.eqb e "/" then Some "/"%char
  else if Ascii.eqb e "b" then Some (ascii_of_N 8)
  else if Ascii.eqb e "f" then Some (ascii_of_N 12)
  else if Ascii.eqb e "n" then Some (ascii_of_N 10)
  else if Ascii.eqb e "r" then Some (ascii_of_N 13)
  else if Ascii.eqb e "t" then Some (ascii_of_N 9)
  else None.

Definition cons_char (c : ascii) (r : option (string * string)) : option (string * string) :=
  match r with
  | Some (t, rest) => Some (String c t, rest)
  | None => None
  end.

(** The characters of a string literal after its opening quote, up to and
    including the closing quote. *)
Fixpoint parse_chars (s : string) : option (string * string) :=
  match s with
  | EmptyString => None
  | String c r =>
      if Ascii.eqb c DQ then Some ("", r)
      else if Ascii.eqb c BSL then
        match r with
        | EmptyString => None
        | String e r1 =>
            if Ascii.eqb e "u" then
              match r1 with
              | String h1 (String h2 (String h3 (String h4 r2))) =>
                  match hex4 h1 h2 h3 h4 with
                  | Some c' => cons_char c' (parse_chars r2)
                  | None => None
                  end
              | _ => None
              end
            else
              match unescape e with
              | Some c' => cons_char c' (parse_chars r1)
              | None => None
              end
        end
      else if (N_of_ascii c <? 32)%N then None
      else cons_char c (parse_chars r)
  end.

Definition digit_val (c : ascii) : option N :=
  let n := N_of_ascii c in
  if ((48 <=? n) && (n <=? 57))%N then Some (n - 48)%N else None.

Fixpoint parse_digits (s : string) (acc : N) : N * string :=
  match s with
  | String c r =>
      match digit_val c with
      | Some d => parse_digits r (10 * acc + d)%N
      | None => (acc, s)
      end
  | EmptyString => (acc, s)
  end.

Definition continues_number (s : string) : bool :=
  match s with
  | String c _ =>
      match digit_val c with
      | Some _ => true
      | None => Ascii.eqb c "." || Ascii.eqb c "e" || Ascii.eqb c "E"
      end
  | EmptyString => false
  end.

Definition parse_number (s : string) : option (value * string) :=
  let '(neg, s1) :=
    match s with
    | String c r => if Ascii.eqb c "-" then (true, r) else (false, s)
    | EmptyString => (false, s)
    end in
  match s1 with
  | String c r =>
      match digit_val c with
      | Some d =>
          let '(n, rest) := if (d =? 0)%N then (0%N, r) else parse_digits r d in
          if continues_number rest then None
          else Some (JNum (if neg : bool then - Z.of_N n else Z.of_N n), rest)
      | None => None
      end
  | EmptyString => None
  end.

Fixpoint strip_prefix (p s : string) : option string :=
  match p with
  | EmptyString => Some s
  | String c p' =>
      match s with
      | String d s' => if Ascii.eqb c d then strip_prefix p' s' else None
      | EmptyString => None
      end
  end.

Fixpoint parse_value (fuel : nat) (s : string) : option (value * string) :=
  match fuel with
  | 0 => None
  | S fuel' =>
      match skip_ws s with
      | EmptyString => None
      | String c r =>
          if Ascii.eqb c DQ then
            match parse_chars r with
            | Some (t, rest) => Some (JStr t, rest)
            | None => None
            end
          else if Ascii.eqb c "{" then
            match skip_ws r with
            | String c1 r1 =>
                if Ascii.eqb c1 "}" then Some (JObj [], r1)
                else parse_members fuel' r []
            | EmptyString => None
            end
          else if Ascii.eqb c "[" then
            match skip_ws r with
            | String c1 r1 =>
                if Ascii.eqb c1 "]" then Some (JArr [], r1)
                else parse_elements fuel' r []
            | EmptyString => None
            end
          else if Ascii.eqb c "t" then
            match strip_prefix "rue" r with
            | Some rest => Some (JBool true, rest)
            | None => None
            end
          else if Ascii.eqb c "f" then
            match strip_prefix "alse" r with
            | Some rest => Some (JBool false, rest)
            | None => None
            end
          else if Ascii.eqb c "n" then
            match strip_prefix "ull" r with
            | Some rest => Some (JNull, rest)
            | None => None
            end
          else parse_number (String c r)
      end
  end
with parse_members (fuel : nat) (s : string) (acc : list (string * value))
  : option (value * string) :=
  match fuel with
  | 0 => None
  | S fuel' =>
      match skip_ws s with
      | String c r =>
          if Ascii.eqb c DQ then
            match parse_chars r with
            | Some (k, r1) =>
                match skip_ws r1 with
                | String c1 r2 =>
                    if Ascii.eqb c1 ":" then
                      match parse_value fuel' r2 with
                      | Some (v, r3) =>
                          match skip_ws r3 with
                          | String c2 r4 =>
                              if Ascii.eqb c2 "," then
                                parse_members fuel' r4 (obj_set k v acc)
                              else if Ascii.eqb c2 "}" then
                                Some (JObj (obj_set k v acc), r4)
                              else None
                          | EmptyString => None
                          end
                      | None => None
                      end
                    else None
                | EmptyString => None
                end
            | None => None
            end
          else None
      | EmptyString => None
      end
  end
with parse_elements (fuel : nat) (s : string) (acc : list value)
  : option (value * string) :=
  match fuel with
  | 0 => None
  | S fuel' =>
      match parse_value fuel' s with
      | Some (v, r1) =>
          match skip_ws r1 with
          | String c r2 =>
              if Ascii.eqb c "," then parse_elements fuel' r2 (acc ++ [v])
              else if Ascii.eqb c "]" then Some (JArr (acc ++ [v]), r2)
              else None
          | EmptyString => None
          end
      | None => None
      end
  end.

Definition JSON_parse (text : string) : Completion value :=
  match parse_value (S (String.length text)) text with
  | Some (v, rest) =>
      match skip_ws rest with
      | EmptyString => Normal v
      | String _ _ => Throw SyntaxError
      end
  | None => Throw SyntaxError
  end.

(** ** The platform objects the program holds references to

    [RTCDataChannel] and [RTCPeerConnection] objects live in a heap; the
    program's fields and the peer registry hold references (indices) into
    it, so that two holders of one channel see the same [readyState]. *)

Inductive ReadyState := connecting | open | closing | closed.

Definition ReadyState_eqb (a b : ReadyState) : bool :=
  match a, b with
  | connecting, connecting | open, open | closing, closing | closed, closed => true
  | _, _ => false
  end.

Inductive Role := host | guest.

Record Channel := {
  readyState : ReadyState;
  (** frames accepted by [channel.send], oldest first *)
  outbox : list string;
  (** what the transport's [send] raises on this channel, if it does (a full
      buffer, an oversized message): decided by the environment *)
  txFault : option Error;
  (** [onopen]/[onmessage]/[onclose]/[onerror] as installed by
      [setupChannelHandlers], with the role they were installed for *)
  chanHandlers : option Role;
}.

Record PeerConnection := {
  pcClosed : bool;
  localDescription : value;      (* [null] until [setLocalDescription] *)
  remoteDescription : value;
  onicecandidate : bool;         (* the handler of createOffer/createAnswer *)
  ondatachannel : bool;          (* the handler of createAnswer *)
}.

(** ** The fields of a [WebRTCManager] (constructor, lines 7-23)

    A callback field is [false] for [null] and [true] when the embedding
    application has installed its function there. *)
Record Manager := {
  localPC : option nat;
  hostPC : option nat;
  channel : option nat;
  isHost : bool;
  onMessage : bool;
  onPeerJoin : bool;
  onPeerLeave : bool;
  onConnected : bool;
  onDisconnected : bool;
  onIdentityRequest : bool;
}.

Definition new_WebRTCManager : Manager :=
  {| localPC := None; hostPC := None; channel := None; isHost := false;
     onMessage := false; onPeerJoin := false; onPeerLeave := false;
     onConnected := false; onDisconnected := false; onIdentityRequest := false |}.

(** ** The [StateManager] store

    A listener is a function object: its identity ([cbId], what [indexOf]
    compares) and what its body does when it is called: calls to the bus,
    and possibly a [throw], which ends the body. *)
Inductive BusCall :=
| CallOff (event : string) (target : nat)      (* this.off(event, target) *)
| CallOn (event : string) (cb : Callback)      (* this.on(event, cb) *)
| CallThrow (e : Error)                        (* throw e *)
with Callback :=
| Fn (cbId : nat) (body : list BusCall).

Definition cbId (cb : Callback) : nat := match cb with Fn i _ => i end.
Definition body (cb : Callback) : list BusCall := match cb with Fn _ b => b end.

Record Store := {
  sstate : object;
  (** the [Map] from event name to its array of callbacks *)
  listeners : list (string * list Callback);
  (** the calls made to listeners so far: who, and for which event *)
  invoked : list (nat * string);
}.

(** ** js/app.js: [state] (lines 15-26) and what the page shows *)

Record PeerRecord := {
  peerUser : value;
  peerChannel : option nat;
}.

Record AppState := {
  user : value;
  appIsHost : bool;
  isConnected : bool;
  peers : list (string * PeerRecord);
  currentScreen : string;
  isReady : bool;
}.

Inductive Effect :=
| RenderMessage (who text : value) (isMe : bool)
| SystemMessage (text : value)
| PeerCount (n : nat)
| ConnectionStatus (status : string) (connected : bool)
| Toast (message kind : string)
| CloseModal (modalId : string)
| Alert (message : string)
| Console (message : string)
| Reload.

Record World := {
  now : Z;                          (* what [Date.now()] returns *)
  channels : list Channel;
  conns : list PeerConnection;
  webrtc : option Manager;          (* [let webrtc = null] *)
  state : AppState;
  store : option Store;             (* [window.store] *)
  page : list Effect;
}.

(** ** Computations over the world *)

Definition M (A : Type) : Type := World -> Completion A * World.

#[export] Instance M_ret : MRet M := fun A a w => (Normal a, w).
#[export] Instance M_bind : MBind M := fun A B k m w =>
  match m w with
  | (Normal a, w') => k a w'
  | (Throw e, w') => (Throw e, w')
  end.

Definition throw {A} (e : Error) : M A := fun w => (Throw e, w).
Definition gets {A} (f : World -> A) : M A := fun w => (Normal (f w), w).
Definition get_world : M World := fun w => (Normal w, w).
Definition modify (f : World -> World) : M unit := fun w => (Normal tt, f w).
Definition lift {A} (c : Completion A) : M A := fun w => (c, w).

Definition set_channels (f : list Channel -> list Channel) (w : World) : World :=
  {| now := now w; channels := f (channels w); conns := conns w; webrtc := webrtc w;
     state := state w; store := store w; page := page w |}.
Definition set_conns (f : list PeerConnection -> list PeerConnection) (w : World) : World :=
  {| now := now w; channels := channels w; conns := f (conns w); webrtc := webrtc w;
     state := state w; store := store w; page := page w |}.
Definition set_webrtc (f : option Manager -> option Manager) (w : World) : World :=
  {| now := now w; channels := channels w; conns := conns w; webrtc := f (webrtc w);
     state := state w; store := store w; page := page w |}.
Definition set_state (f : AppState -> AppState) (w : World) : World :=
  {| now := now w; channels := channels w; conns := conns w; webrtc := webrtc w;
     state := f (state w); store := store w; page := page w |}.
Definition set_store (f : option Store -> option Store) (w : World) : World :=
  {| now := now w; channels := channels w; conns := conns w; webrtc := webrtc w;
     state := state w; store := f (store w); page := page w |}.
Definition set_now (t : Z) (w : World) : World :=
  {| now := t; channels := channels w; conns := conns w; webrtc := webrtc w;
     state := state w; store := store w; page := page w |}.

Definition show (e : Effect) : M unit := fun w =>
  (Normal tt,
   {| now := now w; channels := channels w; conns := conns w; webrtc := webrtc w;
      state := state w; store := store w; page := page w ++ [e] |}).

(** ** Reading JavaScript values *)

(** [v.k] for the property names the program reads (never an array index). *)
Definition get_prop (v : value) (k : string) : Completion value :=
  match v with
  | JUndefined | JNull => Throw (TypeError "Cannot read properties of undefined or null")
  | JObj o => Normal (default JUndefined (obj_get k o))
  | JStr s =>
      Normal (if String.eqb k "length" then JNum (Z.of_nat (String.length s)) else JUndefined)
  | JArr l =>
      Normal (if String.eqb k "length" then JNum (Z.of_nat (length l)) else JUndefined)
  | JBool _ | JNum _ => Normal JUndefined
  end.

(** [v === "s"] *)
Definition str_is (v : value) (s : string) : bool :=
  match v with
  | JStr t => String.eqb t s
  | _ => false
  end.

Definition decimal (n : Z) : string := NilZero.string_of_int (Z.to_int n).

(** ToString, as a template literal applies it. *)
Fixpoint to_string (v : value) : string :=
  match v with
  | JUndefined => "undefined"
  | JNull => "null"
  | JBool true => "true"
  | JBool false => "false"
  | JNum n => decimal n
  | JStr s => s
  | JArr l =>
      String.concat ","
        ((fix items (l : list value) : list string :=
            match l with
            | [] => []
            | x :: l' =>
                match x with
                | JUndefined | JNull => "" :: items l'
                | _ => to_string x :: items l'
                end
            end) l)
  | JObj _ => "[object Object]"
  end.

(** ** StateManager (the state module) *)

Module StateManager.

(** constructor(initialState) *)
Definition create (initialState : object) : Store :=
  {| sstate := obj_spread [] initialState; listeners := []; invoked := [] |}.

Definition getState (st : Store) : object := obj_spread [] (sstate st).

Definition with_listeners (l : list (string * list Callback)) (st : Store) : Store :=
  {| sstate := sstate st; listeners := l; invoked := invoked st |}.

(** [callbacks.indexOf(callback)]: the first position holding that very
    function object. *)
Fixpoint indexOf (target : nat) (cbs : list Callback) : option nat :=
  match cbs with
  | [] => None
  | cb :: cbs' =>
      if Nat.eqb (cbId cb) target then Some 0
      else match indexOf target cbs' with
           | Some i => Some (S i)
           | None => None
           end
  end.

(** on(event, callback), lines 32-38.  The returned unsubscribe closure is
    [off event (cbId callback)]. *)
Definition on (event : string) (callback : Callback) (st : Store) : Store :=
  let l := match obj_get event (listeners st) with
           | Some _ => listeners st
           | None => obj_set event [] (listeners st)
           end in
  with_listeners
    (obj_set event (default [] (obj_get event l) ++ [callback]) l) st.

(** off(event, callback), lines 40-46: [splice(index, 1)] on the array
    that the map holds. *)
Definition off (event : string) (target : nat) (st : Store) : Store :=
  match obj_get event (listeners st) with
  | Some callbacks =>
      match indexOf target callbacks with
      | Some index => with_listeners (obj_set event (delete index callbacks) (listeners st)) st
      | None => st
      end
  | None => st
  end.

(** Running the body of a listener: the bus calls it makes, in order, up
    to the end of the body or to an exception. *)
Fixpoint run (calls : list BusCall) (st : Store) : Completion unit * Store :=
  match calls with
  | [] => (Normal tt, st)
  | CallOff event target :: calls' => run calls' (off event target st)
  | CallOn event cb :: calls' => run calls' (on event cb st)
  | CallThrow e :: _ => (Throw e, st)
  end.

(** [cb(data)]: the call is recorded and the body runs. *)
Definition call (event : string) (cb : Callback) (st : Store) : Completion unit * Store :=
  run (body cb)
    {| sstate := sstate st; listeners := listeners st;
       invoked := invoked st ++ [(cbId cb, event)] |}.

(** [callbacks.forEach(cb => cb(data))]: Array.prototype.forEach reads the
    length once, then visits the indices [k = 0 .. len-1] of the array as
    it is at that moment, skipping an index that is no longer present.  An
    exception from a callback leaves the loop. *)
Fixpoint forEach_from (event : string) (k remaining : nat) (st : Store)
    : Completion unit * Store :=
  match remaining with
  | 0 => (Normal tt, st)
  | S remaining' =>
      match default [] (obj_get event (listeners st)) !! k with
      | Some cb =>
          match call event cb st with
          | (Normal _, st') => forEach_from event (S k) remaining' st'
          | (Throw e, st') => (Throw e, st')
          end
      | None => forEach_from event (S k) remaining' st
      end
  end.

(** emit(event, data), lines 48-53 *)
Definition emit (event : string) (st : Store) : Completion unit * Store :=
  match obj_get event (listeners st) with
  | Some callbacks => forEach_from event 0 (length callbacks) st
  | None => (Normal tt, st)
  end.

(** The [forEach] over [Object.keys(updates)] in setState, lines 23-29. *)
Fixpoint emit_changes (keys : list string) (st : Store) : Completion unit * Store :=
  match keys with
  | [] => (Normal tt, st)
  | key :: keys' =>
      match emit (key +:+ ":change") st with
      | (Normal _, st') => emit_changes keys' st'
      | (Throw e, st') => (Throw e, st')
      end
  end.

(** setState(updates, event = 'update'), lines 16-30 *)
Definition setState (updates : object) (event : string) (st : Store)
    : Completion unit * Store :=
  let st1 := {| sstate := obj_spread (obj_spread [] (sstate st)) updates;
                listeners := listeners st; invoked := invoked st |} in
  match emit event st1 with
  | (Normal _, st2) => emit_changes (obj_keys updates) st2
  | (Throw e, st2) => (Throw e, st2)
  end.

End StateManager.

(** ** The platform: data channels and peer connections *)

Definition chan_get (c : nat) : M Channel := fun w =>
  match channels w !! c with
  | Some ch => (Normal ch, w)
  | None => (Throw (TypeError "dangling channel reference"), w)
  end.

Definition sent (data : string) (ch : Channel) : Channel :=
  {| readyState := readyState ch; outbox := outbox ch ++ [data];
     txFault := txFault ch; chanHandlers := chanHandlers ch |}.

Definition with_readyState (r : ReadyState) (ch : Channel) : Channel :=
  {| readyState := r; outbox := outbox ch;
     txFault := txFault ch; chanHandlers := chanHandlers ch |}.

Definition with_chanHandlers (r : Role) (ch : Channel) : Channel :=
  {| readyState := readyState ch; outbox := outbox ch;
     txFault := txFault ch; chanHandlers := Some r |}.

(** [channel.send(data)]: InvalidStateError unless the channel is open; a
    transport that cannot take the frame raises; otherwise the frame is
    queued for delivery. *)
Definition chan_send (c : nat) (data : string) : M unit :=
  ch ← chan_get c;
  if negb (ReadyState_eqb (readyState ch) open) then throw InvalidStateError
  else match txFault ch with
       | Some e => throw e
       | None => modify (set_channels (alter (sent data) c))
       end.

(** [channel.close()] *)
Definition chan_close (c : nat) : M unit :=
  modify (set_channels (alter (with_readyState closed) c)).

Definition new_connection : PeerConnection :=
  {| pcClosed := false; localDescription := JNull; remoteDescription := JNull;
     onicecandidate := false; ondatachannel := false |}.

Definition new_channel : Channel :=
  {| readyState := connecting; outbox := []; txFault := None; chanHandlers := None |}.

(** [new RTCPeerConnection(config)] *)
Definition pc_new : M nat := fun w =>
  (Normal (length (conns w)), set_conns (fun l => l ++ [new_connection]) w).

Definition pc_get (p : nat) : M PeerConnection := fun w =>
  match conns w !! p with
  | Some pc => (Normal pc, w)
  | None => (Throw (TypeError "dangling connection reference"), w)
  end.

(** [pc.createDataChannel(label, options)] *)
Definition pc_createDataChannel (p : nat) : M nat :=
  pc ← pc_get p;
  if pcClosed pc then throw InvalidStateError
  else fun w => (Normal (length (channels w)), set_channels (fun l => l ++ [new_channel]) w).

(** [pc.close()] *)
Definition pc_close (p : nat) : M unit :=
  modify (set_conns (alter (fun pc =>
    {| pcClosed := true; localDescription := localDescription pc;
       remoteDescription := remoteDescription pc;
       onicecandidate := onicecandidate pc; ondatachannel := ondatachannel pc |}) p)).

(** A session description the platform accepts: an object whose [type] is
    one of the four RTCSdpType names.  (The platform's check of the SDP text
    itself is not modelled.) *)
Definition description_ok (d : value) : bool :=
  match d with
  | JObj o =>
      match obj_get "type" o with
      | Some t => str_is t "offer" || str_is t "answer" || str_is t "pranswer" || str_is t "rollback"
      | None => false
      end
  | _ => false
  end.

(** [await pc.setLocalDescription(d)] *)
Definition pc_setLocalDescription (p : nat) (d : value) : M unit :=
  pc ← pc_get p;
  if pcClosed pc then throw InvalidStateError
  else if negb (description_ok d) then throw (TypeError "RTCSessionDescriptionInit")
  else modify (set_conns (alter (fun pc =>
    {| pcClosed := pcClosed pc; localDescription := d;
       remoteDescription := remoteDescription pc;
       onicecandidate := onicecandidate pc; ondatachannel := ondatachannel pc |}) p)).

(** [await pc.setRemoteDescription(d)] *)
Definition pc_setRemoteDescription (p : nat) (d : value) : M unit :=
  pc ← pc_get p;
  if pcClosed pc then throw InvalidStateError
  else if negb (description_ok d) then throw (TypeError "RTCSessionDescriptionInit")
  else modify (set_conns (alter (fun pc =>
    {| pcClosed := pcClosed pc; localDescription := localDescription pc;
       remoteDescription := d;
       onicecandidate := onicecandidate pc; ondatachannel := ondatachannel pc |}) p)).

Definition pc_set_onicecandidate (p : nat) : M unit :=
  modify (set_conns (alter (fun pc =>
    {| pcClosed := pcClosed pc; localDescription := localDescription pc;
       remoteDescription := remoteDescription pc;
       onicecandidate := true; ondatachannel := ondatachannel pc |}) p)).

Definition pc_set_ondatachannel (p : nat) : M unit :=
  modify (set_conns (alter (fun pc =>
    {| pcClosed := pcClosed pc; localDescription := localDescription pc;
       remoteDescription := remoteDescription pc;
       onicecandidate := onicecandidate pc; ondatachannel := true |}) p)).

(** The [LZString] global of the lz-string library, when the page has loaded
    it.  [decompressFromBase64] answers [None] for [null]. *)
Record LZ := {
  compressToBase64 : string -> string;
  decompressFromBase64 : string -> option string;
}.

(** The functions the embedding application stores in the manager's
    callback fields. *)
Record Callbacks := {
  call_onMessage : value -> M unit;
  call_onPeerJoin : value -> M unit;
  call_onPeerLeave : value -> M unit;
  call_onConnected : M unit;
  call_onDisconnected : M unit;
  call_onIdentityRequest : value -> M unit;
}.

(** ** WebRTCManager (the WebRTC module) *)

Module WebRTCManager.
Section Methods.

(** [None] when [typeof LZString === 'undefined']. *)
Variable LZString : option LZ.
Variable app : Callbacks.

(** The one manager instance, [webrtc] in js/app.js; the closures of
    [setupChannelHandlers] and [createOffer] capture it as [this]. *)
Definition this : M Manager := fun w =>
  match webrtc w with
  | Some m => (Normal m, w)
  | None => (Throw (TypeError "webrtc is null"), w)
  end.

Definition update (f : Manager -> Manager) : M unit := modify (set_webrtc (fmap f)).

Definition with_localPC (p : option nat) (m : Manager) : Manager :=
  {| localPC := p; hostPC := hostPC m; channel := channel m; isHost := isHost m;
     onMessage := onMessage m; onPeerJoin := onPeerJoin m; onPeerLeave := onPeerLeave m;
     onConnected := onConnected m; onDisconnected := onDisconnected m;
     onIdentityRequest := onIdentityRequest m |}.
Definition with_channel (c : option nat) (m : Manager) : Manager :=
  {| localPC := localPC m; hostPC := hostPC m; channel := c; isHost := isHost m;
     onMessage := onMessage m; onPeerJoin := onPeerJoin m; onPeerLeave := onPeerLeave m;
     onConnected := onConnected m; onDisconnected := onDisconnected m;
     onIdentityRequest := onIdentityRequest m |}.
Definition with_isHost (b : bool) (m : Manager) : Manager :=
  {| localPC := localPC m; hostPC := hostPC m; channel := channel m; isHost := b;
     onMessage := onMessage m; onPeerJoin := onPeerJoin m; onPeerLeave := onPeerLeave m;
     onConnected := onConnected m; onDisconnected := onDisconnected m;
     onIdentityRequest := onIdentityRequest m |}.
Definition with_callbacks (b : bool) (m : Manager) : Manager :=
  {| localPC := localPC m; hostPC := hostPC m; channel := channel m; isHost := isHost m;
     onMessage := b; onPeerJoin := b; onPeerLeave := b;
     onConnected := b; onDisconnected := b; onIdentityRequest := b |}.

(** compressDescription(desc), lines 163-169.  [None] is [undefined];
    lz-string answers the empty string for a [null]/[undefined] input. *)
Definition compressDescription (desc : value) : option string :=
  match LZString with
  | Some lz =>
      Some (match JSON_stringify desc with
            | Some text => compressToBase64 lz text
            | None => ""
            end)
  | None => JSON_stringify desc
  end.

(** decompressDescription(data), lines 171-176.  [JSON.parse(null)] reads
    the text [null]. *)
Definition decompressDescription (data : string) : Completion value :=
  match LZString with
  | Some lz => JSON_parse (default "null" (decompressFromBase64 lz data))
  | None => JSON_parse data
  end.

(** emit(event, data), lines 178-183.  An exception raised by a listener
    of the store leaves [setState] and [emit]. *)
Definition emit (event : string) (data : value) : M unit := fun w =>
  match store w with
  | Some st =>
      let '(outcome, st') :=
        StateManager.setState
          [("lastEvent", JObj [("event", JStr event); ("data", data);
                               ("timestamp", JNum (now w))])] "update" st in
      (outcome, set_store (fun _ => Some st') w)
  | None => (Normal tt, w)
  end.

(** cleanup(), lines 185-195 *)
Definition cleanup : M unit :=
  me ← this;
  match channel me with
  | Some c => chan_close c;; update (with_channel None)
  | None => mret tt
  end;;
  me ← this;
  match localPC me with
  | Some p => pc_close p;; update (with_localPC None)
  | None => mret tt
  end;;
  update (with_isHost false).

(** destroy(), lines 197-205 *)
Definition destroy : M unit :=
  cleanup;;
  update (with_callbacks false).

(** send(type, payload), lines 147-153.  [{ type, ...payload }]: the
    [type] property is defined first, then the payload's own properties
    are copied onto the object; no payload argument is [None]. *)
Definition envelope (type : string) (payload : option object) : object :=
  obj_spread [("type", JStr type)] (default [] payload).

Definition send (type : string) (payload : option object) : M bool :=
  me ← this;
  match channel me with
  | Some c =>
      ch ← chan_get c;
      if ReadyState_eqb (readyState ch) open then
        chan_send c (stringify (JObj (envelope type payload)));;
        mret true
      else mret false
  | None => mret false
  end.

(** broadcast(type, payload, excludeId = null), lines 155-159 *)
Definition broadcast (type : string) (payload : option object)
    (excludeId : option string) : M bool :=
  send type payload.

(** handleMessage(msg), lines 111-145 *)
Definition handleMessage (msg : value) : M unit :=
  type ← lift (get_prop msg "type");
  me ← this;
  if str_is type "identity" then
    if onPeerJoin me then u ← lift (get_prop msg "user"); call_onPeerJoin app u
    else mret tt
  else if str_is type "chat" then
    if onMessage me then call_onMessage app msg else mret tt
  else if str_is type "system" then
    if onMessage me then call_onMessage app msg else mret tt
  else if str_is type "req-identity" then
    if onIdentityRequest me then call_onIdentityRequest app msg else mret tt
  else if str_is type "close" then
    cleanup;;
    show (Alert "Host ended the session");;
    show Reload
  else if str_is type "leave" then
    if onPeerLeave me then u ← lift (get_prop msg "userId"); call_onPeerLeave app u
    else mret tt
  else if str_is type "kick" then
    cleanup;;
    show (Alert "You were removed from the group");;
    show Reload
  else mret tt.

(** setupChannelHandlers(channel, role), lines 86-109: the four handlers
    are stored on the channel object; their bodies follow. *)
Definition setupChannelHandlers (c : nat) (role : Role) : M unit :=
  modify (set_channels (alter (with_chanHandlers role) c)).

Definition label (role : Role) : string :=
  match role with host => "Host" | guest => "Guest" end.

Definition onopen (c : nat) (role : Role) : M unit :=
  show (Console ("[WebRTC] " +:+ label role +:+ " channel opened"));;
  me ← this;
  (if onConnected me then call_onConnected app else mret tt);;
  chan_send c (stringify (JObj [("type", JStr "req-identity")])).

Definition onmessage (data : string) : M unit :=
  msg ← lift (JSON_parse data);
  handleMessage msg.

Definition onclose (role : Role) : M unit :=
  show (Console ("[WebRTC] " +:+ label role +:+ " channel closed"));;
  me ← this;
  if onDisconnected me then call_onDisconnected app else mret tt.

(** createOffer(), lines 27-47, up to the first [await] (the call
    [this.localPC.createOffer()] has been made). *)
Definition createOffer_start : M unit :=
  _ ← this;
  update (with_isHost true);;
  p ← pc_new;
  update (with_localPC (Some p));;
  c ← pc_createDataChannel p;
  update (with_channel (Some c));;
  setupChannelHandlers c host;;
  pc_set_onicecandidate p.

(** ... and from the moment the platform has produced [offer]. *)
Definition createOffer_resume (offer : value) : M (option string) :=
  me ← this;
  match localPC me with
  | Some p => pc_setLocalDescription p offer;; mret (compressDescription offer)
  | None => throw (TypeError "this.localPC is null")
  end.

(** The [onicecandidate] closure of createOffer (lines 37-41) and of
    createAnswer (lines 75-79); [candidate = None] is the [null] candidate
    that ends gathering. *)
Definition onicecandidate_handler (candidate : option string) : M unit :=
  match candidate with
  | None =>
      me ← this;
      match localPC me with
      | Some p => pc ← pc_get p; emit "localDescriptionReady" (localDescription pc)
      | None => throw (TypeError "this.localPC is null")
      end
  | Some _ => mret tt
  end.

(** handleAnswer(answerData), lines 49-54 *)
Definition handleAnswer (answerData : string) : M unit :=
  me ← this;
  match localPC me with
  | None => throw (ErrorMsg "No local peer connection")
  | Some p =>
      answer ← lift (decompressDescription answerData);
      pc_setRemoteDescription p answer
  end.

(** createAnswer(offerData), lines 58-82, up to the first [await]. *)
Definition createAnswer_start (offerData : string) : M unit :=
  _ ← this;
  update (with_isHost false);;
  p ← pc_new;
  update (with_localPC (Some p));;
  pc_set_ondatachannel p;;
  offer ← lift (decompressDescription offerData);
  pc_setRemoteDescription p offer.

(** ... once the remote description is set, [this.localPC.createAnswer()]
    is called and awaited ... *)
Definition createAnswer_request : M unit :=
  me ← this;
  match localPC me with
  | Some p => pc ← pc_get p; if pcClosed pc then throw InvalidStateError else mret tt
  | None => throw (TypeError "this.localPC is null")
  end.

(** ... and from the moment the platform has produced [answer]. *)
Definition createAnswer_resume (answer : value) : M (option string) :=
  me ← this;
  match localPC me with
  | Some p =>
      pc_setLocalDescription p answer;;
      me' ← this;
      match localPC me' with
      | Some p' => pc_set_onicecandidate p';; mret (compressDescription answer)
      | None => throw (TypeError "this.localPC is null")
      end
  | None => throw (TypeError "this.localPC is null")
  end.

(** The [ondatachannel] closure of createAnswer, lines 63-67 *)
Definition ondatachannel_handler (c : nat) : M unit :=
  _ ← this;
  update (with_channel (Some c));;
  setupChannelHandlers c guest;;
  emit "connected" JUndefined.

(** *** Events the platform delivers to the installed handlers *)

Definition fire_open (c : nat) : M unit :=
  ch ← chan_get c;
  modify (set_channels (alter (with_readyState open) c));;
  match chanHandlers ch with
  | Some role => onopen c role
  | None => mret tt
  end.

Definition fire_message (c : nat) (data : string) : M unit :=
  ch ← chan_get c;
  match chanHandlers ch with
  | Some _ => onmessage data
  | None => mret tt
  end.

Definition fire_close (c : nat) : M unit :=
  ch ← chan_get c;
  modify (set_channels (alter (with_readyState closed) c));;
  match chanHandlers ch with
  | Some role => onclose role
  | None => mret tt
  end.

(** The platform fires [icecandidate] on connection [p].  A closed
    connection fires no event, and candidates are gathered only once the
    connection has a local description. *)
Definition fire_icecandidate (p : nat) (candidate : option string) : M unit :=
  pc ← pc_get p;
  if pcClosed pc then mret tt
  else
    match localDescription pc with
    | JNull => mret tt
    | _ => if onicecandidate pc then onicecandidate_handler candidate else mret tt
    end.

(** The remote side's channel arrives: the platform creates the channel
    object and hands it to [ondatachannel]. *)
Definition fire_datachannel (p : nat) : M unit :=
  pc ← pc_get p;
  c ← (fun w => (Normal (length (channels w)),
                 set_channels (fun l => l ++ [new_channel]) w));
  if ondatachannel pc then ondatachannel_handler c else mret tt.

End Methods.
End WebRTCManager.

(** ** js/app.js *)

Module App.

Definition initial_state : AppState :=
  {| user := JObj [("id", JNull); ("name", JStr ""); ("avatar", JStr "")];
     appIsHost := false; isConnected := false; peers := [];
     currentScreen := "login"; isReady := false |}.

Definition with_peers (f : list (string * PeerRecord) -> list (string * PeerRecord))
    (s : AppState) : AppState :=
  {| user := user s; appIsHost := appIsHost s; isConnected := isConnected s;
     peers := f (peers s); currentScreen := currentScreen s; isReady := isReady s |}.
Definition with_isConnected (b : bool) (s : AppState) : AppState :=
  {| user := user s; appIsHost := appIsHost s; isConnected := b;
     peers := peers s; currentScreen := currentScreen s; isReady := isReady s |}.
Definition with_isHost (b : bool) (s : AppState) : AppState :=
  {| user := user s; appIsHost := b; isConnected := isConnected s;
     peers := peers s; currentScreen := currentScreen s; isReady := isReady s |}.
Definition with_currentScreen (x : string) (s : AppState) : AppState :=
  {| user := user s; appIsHost := appIsHost s; isConnected := isConnected s;
     peers := peers s; currentScreen := x; isReady := isReady s |}.

(** The page elements the functions below look up are taken to be
    present. *)

(** showScreen(screenId), lines 56-63 *)
Definition showScreen (screenId : string) : M unit :=
  modify (set_state (with_currentScreen screenId)).

(** renderMessage(user, text, isMe), lines 65-87: the sender's avatar and
    name are read only for a message of somebody else. *)
Definition renderMessage (who text : value) (isMe : bool) : M unit :=
  (if isMe then mret tt
   else _ ← lift (get_prop who "avatar"); _ ← lift (get_prop who "name"); mret tt);;
  show (RenderMessage who text isMe).

(** addSystemMessage(text), lines 89-98 *)
Definition addSystemMessage (text : value) : M unit := show (SystemMessage text).

(** updateConnectionStatus(status, isConnected = true), lines 100-106 *)
Definition updateConnectionStatus (status : string) (connected : bool) : M unit :=
  show (ConnectionStatus status connected).

(** updatePeerCount(), lines 108-114 *)
Definition updatePeerCount : M unit :=
  n ← gets (fun w => length (obj_keys (peers (state w))));
  show (PeerCount n).

(** closeModal(modalId), lines 487-496 *)
Definition closeModal (modalId : string) : M unit := show (CloseModal modalId).

(** broadcastMessage(message, excludeId = null), lines 186-194.
    [send_to_entries] is the [forEach] over [Object.entries(state.peers)]. *)
Fixpoint send_to_entries (message : value) (excludeId : option string)
    (entries : list (string * PeerRecord)) : M unit :=
  match entries with
  | [] => mret tt
  | (id, peer) :: entries' =>
      match peerChannel peer with
      | Some c =>
          ch ← chan_get c;
          if negb (bool_decide (Some id = excludeId))
             && ReadyState_eqb (readyState ch) open
          then chan_send c (stringify message)
          else mret tt
      | None => mret tt
      end;;
      send_to_entries message excludeId entries'
  end.

Definition broadcastMessage (message : value) (excludeId : option string) : M unit :=
  w ← get_world;
  if negb (appIsHost (state w)) || negb (bool_decide (is_Some (webrtc w))) then mret tt
  else send_to_entries message excludeId (peers (state w)).

(** sendMessage(), lines 163-184; [text] is the trimmed content of the
    input box. *)
Definition sendMessage (text : string) : M unit :=
  w ← get_world;
  if String.eqb text "" || negb (isConnected (state w)) then mret tt
  else
    renderMessage (user (state w)) (JStr text) true;;
    let message := JObj [("type", JStr "chat"); ("text", JStr text);
                         ("user", user (state w))] in
    if appIsHost (state w) then broadcastMessage message None
    else
      match webrtc w with
      | Some m =>
          match channel m with
          | Some _ =>
              _ ← WebRTCManager.send "chat"
                    (Some [("text", JStr text); ("user", user (state w))]);
              mret tt
          | None => mret tt
          end
      | None => mret tt
      end.

(** initHost(), lines 200-215 *)
Definition initHost : M unit :=
  modify (set_state (with_isHost true));;
  modify (set_state (with_isConnected true));;
  modify (set_state (with_peers (fun _ => [])));;
  showScreen "chat";;
  addSystemMessage (JStr "Group created. Share connection code to invite others.").

(** initJoin(), lines 217-226, up to the start of the scanner *)
Definition initJoin : M unit :=
  modify (set_state (with_isHost false));;
  modify (set_state (with_isConnected false));;
  showScreen "chat".

(** *** setupWebRTCHandlers(), lines 348-394: the six closures *)

(** webrtc.onMessage, lines 351-357 *)
Definition webrtc_onMessage (msg : value) : M unit :=
  type ← lift (get_prop msg "type");
  if str_is type "chat" then
    who ← lift (get_prop msg "user");
    text ← lift (get_prop msg "text");
    renderMessage who text false
  else if str_is type "system" then
    text ← lift (get_prop msg "text");
    addSystemMessage text
  else mret tt.

(** webrtc.onPeerJoin, lines 359-364 *)
Definition webrtc_onPeerJoin (u : value) : M unit :=
  w ← get_world;
  me ← WebRTCManager.this;
  modify (set_state (with_peers
    (obj_set (decimal (now w)) {| peerUser := u; peerChannel := channel me |})));;
  updatePeerCount;;
  name ← lift (get_prop u "name");
  addSystemMessage (JStr (to_string name +:+ " joined."));;
  name' ← lift (get_prop u "name");
  broadcastMessage
    (JObj [("type", JStr "system"); ("text", JStr (to_string name' +:+ " joined."))])
    None.

(** webrtc.onPeerLeave, lines 366-373 *)
Definition webrtc_onPeerLeave (userId : value) : M unit :=
  w ← get_world;
  match obj_get (to_string userId) (peers (state w)) with
  | Some peer =>
      name ← lift (get_prop (peerUser peer) "name");
      addSystemMessage (JStr (to_string name +:+ " disconnected."));;
      modify (set_state (with_peers (obj_delete (to_string userId))));;
      updatePeerCount
  | None => mret tt
  end.

(** webrtc.onConnected, lines 375-383 *)
Definition webrtc_onConnected : M unit :=
  modify (set_state (with_isConnected true));;
  closeModal "modal-qr";;
  updateConnectionStatus "Connected" true;;
  addSystemMessage (JStr "Connected!");;
  u ← gets (fun w => user (state w));
  _ ← WebRTCManager.send "identity" (Some [("user", u)]);
  mret tt.

(** webrtc.onDisconnected, lines 385-389 *)
Definition webrtc_onDisconnected : M unit :=
  modify (set_state (with_isConnected false));;
  updateConnectionStatus "Disconnected" false;;
  show (Toast "Disconnected from host" "error").

(** webrtc.onIdentityRequest, lines 391-393 *)
Definition webrtc_onIdentityRequest (_ : value) : M unit :=
  u ← gets (fun w => user (state w));
  _ ← WebRTCManager.send "identity" (Some [("user", u)]);
  mret tt.

Definition handlers : Callbacks :=
  {| call_onMessage := webrtc_onMessage;
     call_onPeerJoin := webrtc_onPeerJoin;
     call_onPeerLeave := webrtc_onPeerLeave;
     call_onConnected := webrtc_onConnected;
     call_onDisconnected := webrtc_onDisconnected;
     call_onIdentityRequest := webrtc_onIdentityRequest |}.

Definition setupWebRTCHandlers : M unit :=
  w ← get_world;
  match webrtc w with
  | Some _ => WebRTCManager.update (WebRTCManager.with_callbacks true)
  | None => mret tt
  end.

(** [webrtc = new WebRTCManager(); setupWebRTCHandlers()], as
    showInviteModal (lines 229-232) and handleScan (lines 312-315) do. *)
Definition ensure_webrtc : M unit :=
  w ← get_world;
  match webrtc w with
  | Some _ => mret tt
  | None => modify (set_webrtc (fun _ => Some new_WebRTCManager));; setupWebRTCHandlers
  end.

(** showParticipantsModal(), lines 397-419: the list is rebuilt from the
    registry, reading the avatar and the name of every record's user.
    (The dialog itself is drawn by the page.) *)
Fixpoint draw_participants (entries : list (string * PeerRecord)) : M unit :=
  match entries with
  | [] => mret tt
  | (_, peer) :: entries' =>
      _ ← lift (get_prop (peerUser peer) "avatar");
      _ ← lift (get_prop (peerUser peer) "name");
      draw_participants entries'
  end.

Definition showParticipantsModal : M unit :=
  w ← get_world;
  draw_participants (peers (state w)).

(** kickPeer(id), lines 421-430 *)
Definition kickPeer (id : string) : M unit :=
  w ← get_world;
  match obj_get id (peers (state w)) with
  | Some peer =>
      match peerChannel peer with
      | Some c => chan_send c (stringify (JObj [("type", JStr "kick")]));; chan_close c
      | None => mret tt
      end;;
      modify (set_state (with_peers (obj_delete id)));;
      showParticipantsModal;;
      updatePeerCount
  | None => mret tt
  end.

(** cleanupAndReload(), lines 529-534 *)
Definition cleanupAndReload : M unit :=
  w ← get_world;
  match webrtc w with
  | Some _ => WebRTCManager.destroy
  | None => mret tt
  end;;
  modify (set_state (with_isConnected false));;
  show Reload.

(** confirmExit(), lines 517-527; [confirmed] is the user's answer. *)
Definition confirmExit (confirmed : bool) : M unit :=
  if negb confirmed then mret tt
  else
    w ← get_world;
    (if appIsHost (state w) then broadcastMessage (JObj [("type", JStr "close")]) None
     else
       match webrtc w with
       | Some _ =>
           uid ← lift (get_prop (user (state w)) "id");
           _ ← WebRTCManager.send "leave" (Some [("userId", uid)]);
           mret tt
       | None => mret tt
       end);;
    cleanupAndReload.

(** [state.user.id = crypto.randomUUID()] *)
Definition set_user_id (uuid : string) : M unit :=
  w ← get_world;
  match user (state w) with
  | JObj o =>
      modify (set_state (fun s =>
        {| user := JObj (obj_set "id" (JStr uuid) o); appIsHost := appIsHost s;
           isConnected := isConnected s; peers := peers s;
           currentScreen := currentScreen s; isReady := isReady s |}))
  | JUndefined | JNull => throw (TypeError "Cannot set properties of null")
  | _ => mret tt
  end.

(** initApp(), lines 537-578: the stored profile, when there is one, becomes
    [state.user]; [stored] is what localStorage holds and [uuid] what
    [crypto.randomUUID()] returns.  (Storage and service worker set-up are
    left to their modules.) *)
Definition initApp (stored : option string) (uuid : string) : M unit :=
  let recover := show (Console "Could not load user profile");; set_user_id uuid in
  match stored with
  | Some text =>
      if String.eqb text "" then set_user_id uuid
      else
        match JSON_parse text with
        | Normal u =>
            modify (set_state (fun s =>
              {| user := u; appIsHost := appIsHost s;
                 isConnected := isConnected s; peers := peers s;
                 currentScreen := currentScreen s; isReady := isReady s |}));;
            match get_prop u "name", get_prop u "avatar" with
            | Normal _, Normal _ => mret tt
            | _, _ => recover
            end
        | Throw _ => recover
        end
  | None => set_user_id uuid
  end;;
  modify (set_state (fun s =>
    {| user := user s; appIsHost := appIsHost s;
       isConnected := isConnected s; peers := peers s;
       currentScreen := currentScreen s; isReady := true |})).

(** *** The page as the platform drives it *)

Definition channel_open (c : nat) : M unit := WebRTCManager.fire_open handlers c.
Definition channel_message (c : nat) (data : string) : M unit :=
  WebRTCManager.fire_message handlers c data.
Definition channel_close (c : nat) : M unit := WebRTCManager.fire_close handlers c.

(** The globals when the scripts have loaded. *)
Definition boot (t : Z) : World :=
  {| now := t; channels := []; conns := []; webrtc := None;
     state := initial_state;
     store := Some (StateManager.create
       [("user", JObj [("id", JNull); ("name", JStr ""); ("avatar", JStr "")]);
        ("isHost", JBool false); ("isConnected", JBool false); ("peers", JObj []);
        ("serverConn", JNull); ("currentScreen", JStr "login");
        ("isReady", JBool false); ("error", JNull)]);
     page := [] |}.

End App.

(** A connection descriptor as it is serialised: the [type] and [sdp] of an
    RTCSessionDescription. *)
Definition descriptor (kind sdp : string) : value :=
  JObj [("type", JStr kind); ("sdp", JStr sdp)].

Definition exec {A} (m : M A) (w : World) : World := snd (m w).
Definition result {A} (m : M A) (w : World) : Completion A := fst (m w).

(** The contract of the lz-string library that the codec relies on:
    decompressing what was compressed gives the text back. *)
Definition lossless (lz : option LZ) : Prop :=
  forall codec, lz = Some codec ->
    forall text, decompressFromBase64 codec (compressToBase64 codec text) = Some text.

(** A stand-in codec for running examples: it marks the text with a
    leading tilde. *)
Definition marker_codec : LZ :=
  {| compressToBase64 := fun text => String "~" text;
     decompressFromBase64 := fun data =>
       match data with
       | String c text => if Ascii.eqb c "~" then Some text else None
       | EmptyString => None
       end |}.

Definition CR : ascii := ascii_of_N 13.
Definition LF : ascii := ascii_of_N 10.

(** The first lines of an SDP body, with its CR LF line ends. *)
Definition sample_sdp : string :=
  "v=0" +:+ String CR (String LF ("o=- 4611731400430051336 2 IN IP4 127.0.0.1" +:+
  String CR (String LF ("a=ice-pwd:" +:+ String DQ (String BSL "x" +:+ String CR (String LF "")))))).

(** ** Sample sessions, built by running the program from page load *)

Definition Hal : value := JObj [("id", JStr "u-hal"); ("name", JStr "Hal"); ("avatar", JStr "")].
Definition Ann : value := JObj [("id", JStr "u-ann"); ("name", JStr "Ann"); ("avatar", JStr "")].
Definition Bob : value := JObj [("id", JStr "u-bob"); ("name", JStr "Bob"); ("avatar", JStr "")].
Definition Cid : value := JObj [("id", JStr "u-cid"); ("name", JStr "Cid"); ("avatar", JStr "")].

Definition identity_frame (u : value) : string :=
  stringify (JObj [("type", JStr "identity"); ("user", u)]).

(** The environment's clock moves. *)
Definition at_time (t : Z) : M unit := modify (set_now t).

(** The environment makes the transport of channel [c] refuse frames. *)
Definition congest (c : nat) : M unit :=
  modify (set_channels (alter (fun ch =>
    {| readyState := readyState ch; outbox := outbox ch;
       txFault := Some OperationError; chanHandlers := chanHandlers ch |}) c)).

(** A host that has invited one guest, whose channel (number 0) is open. *)
Definition host_connected : World :=
  Eval vm_compute in
  exec (App.initApp (Some (stringify Hal)) "";;
        App.initHost;; App.ensure_webrtc;;
        WebRTCManager.createOffer_start;;
        _ ← WebRTCManager.createOffer_resume None (descriptor "offer" sample_sdp);
        WebRTCManager.handleAnswer None (stringify (descriptor "answer" sample_sdp));;
        App.channel_open 0)
       (App.boot 1730000000000).

(** The host invites a guest: a new offer, the guest's answer, the guest's
    channel [c] opens, and at time [t] the guest's identity envelope arrives
    on it. *)
Definition guest_joins (c : nat) (t : Z) (u : value) : M unit :=
  WebRTCManager.createOffer_start;;
  _ ← WebRTCManager.createOffer_resume None (descriptor "offer" sample_sdp);
  WebRTCManager.handleAnswer None (stringify (descriptor "answer" sample_sdp));;
  App.channel_open c;;
  at_time t;;
  App.channel_message c (identity_frame u).

(** A host whose guests Ann, Bob and Cid have joined on channels 0, 1, 2. *)
Definition host_of_three : World :=
  Eval vm_compute in
  exec (App.initApp (Some (stringify Hal)) "";;
        App.initHost;; App.ensure_webrtc;;
        guest_joins 0 1730000000001 Ann;; guest_joins 1 1730000000002 Bob;; guest_joins 2 1730000000003 Cid)
       (App.boot 1730000000000).

(** A guest that has scanned the host's offer and whose channel to the host
    (number 0) is open. *)
Definition guest_connected : World :=
  Eval vm_compute in
  exec (App.initApp (Some (stringify Ann)) "";;
        App.initJoin;; App.ensure_webrtc;;
        WebRTCManager.createAnswer_start None
          (stringify (descriptor "offer" sample_sdp));;
        WebRTCManager.createAnswer_request;;
        _ ← WebRTCManager.createAnswer_resume None (descriptor "answer" sample_sdp);
        WebRTCManager.fire_datachannel 0;;
        App.channel_open 0)
       (App.boot 1730000005000).

(** The channel and the manager of [host_connected]. *)
Definition host_channel : Channel :=
  Eval vm_compute in default new_channel (channels host_connected !! 0).


Definition host_manager : Manager :=
  {| localPC := Some 0; hostPC := None; channel := Some 0; isHost := true;
     onMessage := true; onPeerJoin := true; onPeerLeave := true;
     onConnected := true; onDisconnected := true; onIdentityRequest := true |}.

(** ** Descriptions used in the statements below *)

(** The manager after [cleanup]: no channel, no connection, not a host. *)
Definition released (m : Manager) : Manager :=
  WebRTCManager.with_isHost false
    (WebRTCManager.with_localPC None (WebRTCManager.with_channel None m)).

(** The heap after [cleanup] of manager [m]: its channel and its connection,
    when it had them, are closed; nothing else is touched. *)
Definition close_if (c : option nat) (l : list Channel) : list Channel :=
  match c with
  | Some c => alter (with_readyState closed) c l
  | None => l
  end.

Definition pc_closed (pc : PeerConnection) : PeerConnection :=
  {| pcClosed := true; localDescription := localDescription pc;
     remoteDescription := remoteDescription pc;
     onicecandidate := onicecandidate pc; ondatachannel := ondatachannel pc |}.

Definition close_pc_if (p : option nat) (l : list PeerConnection) : list PeerConnection :=
  match p with
  | Some p => alter pc_closed p l
  | None => l
  end.

(** The link as the manager represents it once closed: both fields null. *)
Definition link_closed (w : World) : Prop :=
  exists m, webrtc w = Some m /\ channel m = None /\ localPC m = None.

Definition kick_frame : string := stringify (JObj [("type", JStr "kick")]).

(** [call] removes, from the array of [event], a listener whose identity is
    among [ids]. *)
Definition removes (event : string) (ids : list nat) (call : BusCall) : Prop :=
  match call with
  | CallOff e target => e = event /\ target ∈ ids
  | CallOn _ _ | CallThrow _ => False
  end.

(** A store in which the first listener for [update] unsubscribes itself
    when called (what the closure returned by [on] is for). *)
Definition once_store : Store :=
  Eval vm_compute in
  StateManager.on "update" (Fn 2 [])
    (StateManager.on "update" (Fn 1 [CallOff "update" 1])
       (StateManager.create [])).

(** A store whose first listener for [update] subscribes a further listener
    to [update] and unsubscribes listener 2 from another event. *)
Definition busy_store : Store :=
  Eval vm_compute in
  StateManager.on "update" (Fn 2 [])
    (StateManager.on "update" (Fn 1 [CallOn "update" (Fn 3 []); CallOff "user:change" 2])
       (StateManager.on "user:change" (Fn 2 [])
          (StateManager.create []))).

(** What a guest's [sendMessage] puts on the wire. *)
Definition chat_frame (u : value) (text : string) : string :=
  stringify (JObj (WebRTCManager.envelope "chat" (Some [("text", JStr text); ("user", u)]))).

Definition system_frame (text : string) : string :=
  stringify (JObj (WebRTCManager.envelope "system" (Some [("text", JStr text)]))).

(** A host that created an offer and was cleaned up before candidate
    gathering finished. *)
Definition gathering_cancelled : World :=
  Eval vm_compute in
  exec (App.ensure_webrtc;; WebRTCManager.createOffer_start;; WebRTCManager.cleanup)
       (App.boot 1730000000000).

(** The manager of [guest_connected]. *)
Definition guest_manager : Manager :=
  {| localPC := Some 0; hostPC := None; channel := Some 0; isHost := false;
     onMessage := true; onPeerJoin := true; onPeerLeave := true;
     onConnected := true; onDisconnected := true; onIdentityRequest := true |}.

(** ** Values that survive the wire

    [JSON.stringify] followed by [JSON.parse] gives a value back unchanged
    when it holds no [undefined] and every object in it has distinct keys
    (as every JavaScript object has). *)
Fixpoint wf_json (v : value) : bool :=
  match v with
  | JUndefined => false
  | JNull | JBool _ | JNum _ | JStr _ => true
  | JArr l => forallb wf_json l
  | JObj o =>
      bool_decide (NoDup (map fst o)) && forallb (fun kv => wf_json (snd kv)) o
  end.

(** The value of a run of decimal digits read left to right. *)
Fixpoint digits_value (d : Decimal.uint) (acc : N) : N :=
  match d with
  | Decimal.Nil => acc
  | Decimal.D0 d => digits_value d (10 * acc + 0)
  | Decimal.D1 d => digits_value d (10 * acc + 1)
  | Decimal.D2 d => digits_value d (10 * acc + 2)
  | Decimal.D3 d => digits_value d (10 * acc + 3)
  | Decimal.D4 d => digits_value d (10 * acc + 4)
  | Decimal.D5 d => digits_value d (10 * acc + 5)
  | Decimal.D6 d => digits_value d (10 * acc + 6)
  | Decimal.D7 d => digits_value d (10 * acc + 7)
  | Decimal.D8 d => digits_value d (10 * acc + 8)
  | Decimal.D9 d => digits_value d (10 * acc + 9)
  end%N.

(** The characters a number literal can start with. *)
Definition number_chars : list ascii :=
  ["-"; "0"; "1"; "2"; "3"; "4"; "5"; "6"; "7"; "8"; "9"]%char.

(** The text of one member of an object. *)
Definition member_text (kv : string * value) : string :=
  quote (fst kv) +:+ ":" +:+ stringify (snd kv).

(** A value with nesting, numbers of both signs and characters that need
    escaping. *)
Definition sample_value : value :=
  JObj [("event", JStr "localDescriptionReady");
        ("data", descriptor "offer" sample_sdp);
        ("timestamp", JNum 1730000000000);
        ("list", JArr [JNum (-42); JNum 0; JNull; JBool true; JArr []; JObj []])].

(** ** The event bus, observed *)

(** The calls an [emit] of [event] makes when no listener touches the bus:
    one per listener registered for it, in subscription order. *)
Definition notified (st : Store) (event : string) : list (nat * string) :=
  (fun cb => (cbId cb, event)) <$> default [] (obj_get event (listeners st)).

(** A store whose listeners only observe: their bodies make no bus call. *)
Definition passive (st : Store) : Prop :=
  Forall (fun entry => Forall (fun cb => body cb = []) (snd entry)) (listeners st).

(** Two observers of [update], one of [user:change] and one of
    [isHost:change]. *)
Definition observed_store : Store :=
  Eval vm_compute in
  StateManager.on "isHost:change" (Fn 4 [])
    (StateManager.on "user:change" (Fn 3 [])
       (StateManager.on "update" (Fn 2 [])
          (StateManager.on "update" (Fn 1 [])
             (StateManager.create [("isHost", JBool false); ("user", JNull)])))).


(** A property name that is not an array index (it does not start with a
    digit): [Object.keys] lists such names in insertion order. *)
Definition plain_key (k : string) : bool :=
  match k with
  | String c _ => negb (bool_decide (is_Some (digit_val c)))
  | EmptyString => true
  end.


(** ** StateManager: selectors *)

Module Selector.

(** [path.split('.')] *)
Fixpoint split_dots (path : string) : list string :=
  match path with
  | EmptyString => [""]
  | String c rest =>
      if Ascii.eqb c "." then "" :: split_dots rest
      else match split_dots rest with
           | first :: others => String c first :: others
           | [] => [String c ""]
           end
  end.

(** The property names every object inherits from [Object.prototype]. *)
Definition inherited (key : string) : bool :=
  bool_decide (key ∈ ["constructor"; "__proto__"; "hasOwnProperty"; "isPrototypeOf";
                      "propertyIsEnumerable"; "toLocaleString"; "toString"; "valueOf";
                      "__defineGetter__"; "__defineSetter__";
                      "__lookupGetter__"; "__lookupSetter__"]).

(** A canonical array index: the decimal text of a number. *)
Definition array_index (key : string) : option nat :=
  match NilEmpty.uint_of_string key with
  | Some u =>
      let n := N.of_uint u in
      if String.eqb (decimal (Z.of_N n)) key then Some (N.to_nat n) else None
  | None => None
  end.

(** [value[key]] on an object or an array.  [None] stands for a member
    found on a prototype (a method, or the prototype itself), which is no
    JSON value; of an array only the indices and [length] are read. *)
Definition member (v : value) (key : string) : option value :=
  match v with
  | JObj o =>
      match obj_get key o with
      | Some x => Some x
      | None => if inherited key then None else Some JUndefined
      end
  | JArr l =>
      match array_index key with
      | Some i => Some (default JUndefined (l !! i))
      | None =>
          if String.eqb key "length" then Some (JNum (Z.of_nat (length l))) else None
      end
  | _ => Some JUndefined
  end.

(** The loop of [select], lines 59-66.  [None]: the path has run into an
    inherited member; what a longer path then selects is not modelled. *)
Fixpoint walk (keys : list string) (v : value) : option value :=
  match keys with
  | [] => Some v
  | key :: keys' =>
      match v with
      | JObj _ | JArr _ => v' ← member v key; walk keys' v'
      | _ => Some JUndefined
      end
  end.

(** select(path), lines 56-67 *)
Definition select (path : string) (st : Store) : option value :=
  walk (split_dots path) (JObj (sstate st)).

Fixpoint dotless (key : string) : bool :=
  match key with
  | EmptyString => true
  | String c rest => negb (Ascii.eqb c ".") && dotless rest
  end.

Definition composite (v : value) : bool :=
  match v with
  | JObj _ | JArr _ => true
  | _ => false
  end.

End Selector.


(** The case labels of [handleMessage]'s switch. *)
Definition handled_types : list string :=
  ["identity"; "chat"; "system"; "req-identity"; "close"; "leave"; "kick"].

(** [msg.type] strictly equals one of the case labels. *)
Definition handled (type : value) : bool := existsb (str_is type) handled_types.

(** A manager none of whose callback fields is set. *)
Definition no_callbacks (m : Manager) : bool :=
  negb (onMessage m || onPeerJoin m || onPeerLeave m || onConnected m
        || onDisconnected m || onIdentityRequest m).


(** A connection and a channel as [createOffer] leaves them: handlers
    installed, nothing negotiated yet. *)
Definition offering_connection : PeerConnection :=
  {| pcClosed := false; localDescription := JNull; remoteDescription := JNull;
     onicecandidate := true; ondatachannel := false |}.

Definition offered_channel : Channel := with_chanHandlers host new_channel.

(** ... and a connection as [createAnswer] leaves it after reading the
    offer. *)
Definition answering_connection (offer : value) : PeerConnection :=
  {| pcClosed := false; localDescription := JNull; remoteDescription := offer;
     onicecandidate := false; ondatachannel := true |}.


(** A host waiting for the answer to its offer, and a guest that has read
    that offer. *)
Definition host_offering : World :=
  Eval vm_compute in
  exec (App.initApp (Some (stringify Hal)) "";;
        App.initHost;; App.ensure_webrtc;;
        WebRTCManager.createOffer_start;;
        _ ← WebRTCManager.createOffer_resume None (descriptor "offer" sample_sdp);
        mret tt)
       (App.boot 1730000000000).

Definition guest_answering : World :=
  Eval vm_compute in
  exec (App.initApp (Some (stringify Ann)) "";;
        App.initJoin;; App.ensure_webrtc;;
        WebRTCManager.createAnswer_start None
          (stringify (descriptor "offer" sample_sdp));;
        WebRTCManager.createAnswer_request)
       (App.boot 1730000005000).

Definition host_offering_manager : Manager :=
  Eval vm_compute in default new_WebRTCManager (webrtc host_offering).

Definition guest_answering_manager : Manager :=
  Eval vm_compute in default new_WebRTCManager (webrtc guest_answering).


(** ** The host's fan-out *)

(** Registry entry [entry] makes [broadcastMessage] address channel [c]:
    it holds that channel and its key is not the excluded one. *)
Definition addressed (excludeId : option string) (c : nat)
    (entry : string * PeerRecord) : bool :=
  bool_decide (peerChannel (snd entry) = Some c)
  && negb (bool_decide (Some (fst entry) = excludeId)).

(** How many entries of the registry address channel [c]. *)
Fixpoint copies (excludeId : option string) (entries : list (string * PeerRecord))
    (c : nat) : nat :=
  match entries with
  | [] => 0
  | entry :: entries' =>
      (if addressed excludeId c entry then 1 else 0) + copies excludeId entries' c
  end.

Definition pushed (frames : list string) (ch : Channel) : Channel :=
  {| readyState := readyState ch; outbox := outbox ch ++ frames;
     txFault := txFault ch; chanHandlers := chanHandlers ch |}.

(** The channels after a fan-out of [frame]: an open channel has received
    one copy per registry entry that addresses it. *)
Definition fanned_out (frame : string) (excludeId : option string)
    (entries : list (string * PeerRecord)) (chs : list Channel) : list Channel :=
  imap (fun c ch =>
          if ReadyState_eqb (readyState ch) open
          then pushed (replicate (copies excludeId entries c) frame) ch
          else ch) chs.

(** The registry refers to channels that exist and whose transport takes
    frames. *)
Definition registry_sound (entries : list (string * PeerRecord))
    (chs : list Channel) : bool :=
  forallb (fun entry : string * PeerRecord =>
             match peerChannel (snd entry) with
             | Some c =>
                 match chs !! c with
                 | Some ch => bool_decide (txFault ch = None)
                 | None => false
                 end
             | None => true
             end) entries.

Definition refs_ok (entries : list (string * PeerRecord)) (chs : list Channel) : Prop :=
  forall id peer c, (id, peer) ∈ entries -> peerChannel peer = Some c ->
    exists ch, chs !! c = Some ch /\ txFault ch = None.


(** A channel after [send(frame)] and [close()]. *)
Definition sent_and_closed (frame : string) (ch : Channel) : Channel :=
  with_readyState closed (sent frame ch).


(** The chat envelope of [sendMessage]. *)
Definition chat_message (text : string) (who : value) : value :=
  JObj [("type", JStr "chat"); ("text", JStr text); ("user", who)].

Definition with_page (f : list Effect -> list Effect) (w : World) : World :=
  {| now := now w; channels := channels w; conns := conns w; webrtc := webrtc w;
     state := state w; store := store w; page := f (page w) |}.


(** The world after [cleanupAndReload] on a page whose manager is [m]. *)
Definition torn_down (m : Manager) (w : World) : World :=
  {| now := now w;
     channels := close_if (channel m) (channels w);
     conns := close_pc_if (localPC m) (conns w);
     webrtc := Some (WebRTCManager.with_callbacks false (released m));
     state := App.with_isConnected false (state w);
     store := store w;
     page := page w ++ [Reload] |}.

Definition leave_message (uid : value) : value :=
  JObj [("type", JStr "leave"); ("userId", uid)].


(** The envelopes of the identity handshake. *)
Definition identity_message (who : value) : value :=
  JObj [("type", JStr "identity"); ("user", who)].

Definition req_identity_frame : string := stringify (JObj [("type", JStr "req-identity")]).

(** What [webrtc.onConnected] shows. *)
Definition connected_notices : list Effect :=
  [CloseModal "modal-qr"; ConnectionStatus "Connected" true;
   SystemMessage (JStr "Connected!")].

Definition opened (frames : list string) (ch : Channel) : Channel :=
  pushed frames (with_readyState open ch).


(** The registry after an identity envelope of [u] has been handled at
    time [t] by a page whose manager holds channel [c]. *)
Definition joined (t : Z) (u : value) (c : option nat)
    (registry : list (string * PeerRecord)) : list (string * PeerRecord) :=
  obj_set (decimal t) {| peerUser := u; peerChannel := c |} registry.

Definition joined_notice (name : value) : value := JStr (to_string name +:+ " joined.").

Definition system_message (text : value) : value :=
  JObj [("type", JStr "system"); ("text", text)].


(** What the page shows when a channel closes. *)
Definition disconnected_notices (role : Role) : list Effect :=
  [Console ("[WebRTC] " +:+ WebRTCManager.label role +:+ " channel closed");
   ConnectionStatus "Disconnected" false;
   Toast "Disconnected from host" "error"].


(** ** Storage (the storage module) *)

Module Storage.

(** A row of the [logs] object store: the entry that [add] builds, with
    the key the store assigns. *)
Record LogEntry := {
  logId : nat;
  logText : value;
  logSender : value;
  logIsSystem : bool;
  logTimestamp : Z;
}.

Record Session := {
  sessionTimestamp : Z;
  sessionLogs : list LogEntry;
}.

(** [logs.slice(0, limit)] for an integer [limit]: a negative limit counts
    from the end. *)
Definition slice0 {A} (limit : Z) (l : list A) : list A :=
  if (limit <? 0)%Z then take (Z.to_nat (Z.of_nat (length l) + limit)) l
  else take (Z.to_nat limit) l.

(** getAll(limit = 1000, reverse = true), lines 66-85, from the moment
    [index.getAll()] has answered with [rows], the rows in the order of
    the timestamp index. *)
Definition getAll (limit : Z) (reverse : bool) (rows : list LogEntry) : list LogEntry :=
  let logs := if reverse then rev rows else rows in
  if (limit =? 0)%Z then logs else slice0 limit logs.

(** The body of the [forEach] in getBySession, lines 94-103, on the pair
    of [sessions] and [currentSession]. *)
Definition visit (timeWindow : Z) (acc : list Session * option Session) (log : LogEntry)
    : list Session * option Session :=
  let '(sessions, currentSession) := acc in
  let '(sessions', current) :=
    match currentSession with
    | None => (sessions, {| sessionTimestamp := logTimestamp log; sessionLogs := [] |})
    | Some s =>
        if (Z.abs (logTimestamp log - sessionTimestamp s) >? timeWindow)%Z
        then (sessions ++ [s],
              {| sessionTimestamp := logTimestamp log; sessionLogs := [] |})
        else (sessions, s)
    end in
  (sessions',
   Some {| sessionTimestamp := sessionTimestamp current;
           sessionLogs := sessionLogs current ++ [log] |}).

Definition finish (acc : list Session * option Session) : list Session :=
  match snd acc with
  | Some s => fst acc ++ [s]
  | None => fst acc
  end.

(** The grouping of getBySession, lines 91-106, applied to [logs]. *)
Definition group (timeWindow : Z) (logs : list LogEntry) : list Session :=
  finish (foldl (visit timeWindow) ([], None) logs).

(** getBySession(timeWindow = 3600000), lines 87-107 *)
Definition getBySession (timeWindow : Z) (rows : list LogEntry) : list Session :=
  group timeWindow (getAll 10000 true rows).

(** A session as the grouping builds it: it has a first log, whose
    timestamp is the session's, and its other logs lie within the window
    of that first one. *)
Definition anchored (timeWindow : Z) (s : Session) : Prop :=
  exists first others,
    sessionLogs s = first :: others
    /\ sessionTimestamp s = logTimestamp first
    /\ Forall (fun log => (Z.abs (logTimestamp log - logTimestamp first) <= timeWindow)%Z)
         others.

(** Each session starts beyond the window of the session before it. *)
Fixpoint separated (timeWindow : Z) (sessions : list Session) : Prop :=
  match sessions with
  | s1 :: ((s2 :: _) as rest) =>
      (Z.abs (sessionTimestamp s2 - sessionTimestamp s1) > timeWindow)%Z
      /\ separated timeWindow rest
  | _ => True
  end.

End Storage.

(** The logs filed so far by the loop of getBySession. *)
Definition acc_logs (acc : list Storage.Session * option Storage.Session)
    : list Storage.LogEntry :=
  mjoin (Storage.sessionLogs <$> Storage.finish acc).

(** The sessions under construction are well formed. *)
Definition acc_ok (timeWindow : Z)
    (acc : list Storage.Session * option Storage.Session) : Prop :=
  Forall (Storage.anchored timeWindow) (Storage.finish acc)
  /\ Storage.separated timeWindow (Storage.finish acc)
  /\ (snd acc = None -> fst acc = []).

(** Four logs: two a minute apart, one two hours earlier, one more a
    second before that. *)
Definition sample_logs : list Storage.LogEntry :=
  [ {| Storage.logId := 4; Storage.logText := JStr "d"; Storage.logSender := JStr "Ann";
       Storage.logIsSystem := false; Storage.logTimestamp := 1730007260000 |};
    {| Storage.logId := 3; Storage.logText := JStr "c"; Storage.logSender := JStr "Bob";
       Storage.logIsSystem := false; Storage.logTimestamp := 1730007200000 |};
    {| Storage.logId := 2; Storage.logText := JStr "b"; Storage.logSender := JStr "Ann";
       Storage.logIsSystem := false; Storage.logTimestamp := 1730000001000 |};
    {| Storage.logId := 1; Storage.logText := JStr "a"; Storage.logSender := JStr "Ann";
       Storage.logIsSystem := true; Storage.logTimestamp := 1730000000000 |} ].


(** ** QRScanner (js/qrscanner.js) *)

Module QRScanner.

(** The scanner object.  [video] and [stream] say whether the fields hold
    an element and a camera stream; [statuses] are the calls of
    [updateStatus] and [scans] the calls of [onScan], in order. *)
Record Scanner := {
  video : bool;
  stream : bool;
  isScanning : bool;
  scanAttempts : nat;
  maxScanAttempts : nat;
  manualToggle : bool;
  statuses : list (string * bool);
  scans : list string;
}.

(** constructor(options): [options.maxAttempts || 300] *)
Definition create (maxAttempts : option nat) : Scanner :=
  {| video := false; stream := false; isScanning := false; scanAttempts := 0;
     maxScanAttempts := match maxAttempts with
                        | Some (S n) => S n
                        | Some 0 | None => 300
                        end;
     manualToggle := false; statuses := []; scans := [] |}.

(** updateStatus(text, showAnim), lines 231-244 *)
Definition updateStatus (text : string) (showAnim : bool) (s : Scanner) : Scanner :=
  {| video := video s; stream := stream s; isScanning := isScanning s;
     scanAttempts := scanAttempts s; maxScanAttempts := maxScanAttempts s;
     manualToggle := manualToggle s;
     statuses := statuses s ++ [(text, showAnim)]; scans := scans s |}.

(** stop(), lines 197-229 *)
Definition stop (s : Scanner) : Scanner :=
  {| video := video s; stream := false; isScanning := false;
     scanAttempts := scanAttempts s; maxScanAttempts := maxScanAttempts s;
     manualToggle := manualToggle s; statuses := statuses s; scans := scans s |}.

(** start(videoElement, overlayElement), lines 22-66, up to the call of
    [scan]; [camera] says whether [getUserMedia] and [play] succeed. *)
Definition start (camera : bool) (s : Scanner) : Scanner :=
  let s1 :=
    updateStatus "Requesting camera access..." false
      {| video := true; stream := stream s; isScanning := true;
         scanAttempts := 0; maxScanAttempts := maxScanAttempts s;
         manualToggle := manualToggle s; statuses := statuses s; scans := scans s |} in
  if camera then
    updateStatus "Point camera at QR code..." true
      {| video := video s1; stream := true; isScanning := isScanning s1;
         scanAttempts := scanAttempts s1; maxScanAttempts := maxScanAttempts s1;
         manualToggle := manualToggle s1; statuses := statuses s1; scans := scans s1 |}
  else
    let s2 := updateStatus "Camera access denied" false s1 in
    {| video := video s2; stream := stream s2; isScanning := false;
       scanAttempts := scanAttempts s2; maxScanAttempts := maxScanAttempts s2;
       manualToggle := manualToggle s2; statuses := statuses s2; scans := scans s2 |}.

(** What a call of [scan] finds: whether the video has enough data, and
    what [jsQR] reads in the frame ([None] also when jsQR is not
    loaded). *)
Record Frame := {
  enough : bool;
  decoded : option string;
}.

Definition give_up_text : string :=
  "No QR code found. Try moving closer or use manual entry.".

(** scan(), lines 137-180.  The boolean says whether the next call has
    been requested with [requestAnimationFrame]. *)
Definition scan (f : Frame) (s : Scanner) : Scanner * bool :=
  if negb (isScanning s) || negb (video s) then (s, false)
  else if maxScanAttempts s <? scanAttempts s then
    let s1 := updateStatus give_up_text false s in
    ({| video := video s1; stream := stream s1; isScanning := false;
        scanAttempts := scanAttempts s1; maxScanAttempts := maxScanAttempts s1;
        manualToggle := true; statuses := statuses s1; scans := scans s1 |}, false)
  else
    let s1 :=
      {| video := video s; stream := stream s; isScanning := isScanning s;
         scanAttempts := S (scanAttempts s); maxScanAttempts := maxScanAttempts s;
         manualToggle := manualToggle s; statuses := statuses s; scans := scans s |} in
    if negb (enough f) then (s1, true)
    else
      match decoded f with
      | Some data =>
          let s2 := updateStatus "QR code detected! Connecting..." false (stop s1) in
          ({| video := video s2; stream := stream s2; isScanning := isScanning s2;
              scanAttempts := scanAttempts s2; maxScanAttempts := maxScanAttempts s2;
              manualToggle := manualToggle s2; statuses := statuses s2;
              scans := scans s2 ++ [data] |}, false)
      | None => (s1, true)
      end.

(** The animation loop: [scan] runs on the frames one after the other
    for as long as it asks for the next one. *)
Fixpoint run (frames : list Frame) (s : Scanner) : Scanner :=
  match frames with
  | [] => s
  | f :: frames' =>
      let '(s', again) := scan f s in
      if again then run frames' s' else s'
  end.

(** A frame in which no code is read. *)
Definition blank (f : Frame) : bool :=
  negb (enough f) || bool_decide (decoded f = None).

End QRScanner.

(** The scanner has not yet used up its attempts. *)
Definition scanAttempts_le (s : QRScanner.Scanner) : Prop :=
  QRScanner.scanAttempts s <= QRScanner.maxScanAttempts s.


(** ** The service worker (sw.js) *)

Module ServiceWorker.

(** A response: its status, whether its [Vary] header holds [*], and
    its body. *)
Record Response := {
  status : nat;
  varyStar : bool;
  body : string;
}.

(** [response.ok]: the status is in the range 200-299. *)
Definition ok (response : Response) : bool :=
  (200 <=? status response) && (status response <=? 299).

(** A request, with the parts of its parsed URL. *)
Record Request := {
  url : string;
  method : string;
  mode : string;
  destination : string;
  protocol : string;
  hostname : string;
  pathname : string;
}.

(** A cache maps request URLs to responses; the cache storage maps names
    to caches. *)
Definition Cache : Type := list (string * Response).
Definition CacheStorage : Type := list (string * Cache).

Definition STATIC_CACHE : string := "localchat-static-v1".
Definition DYNAMIC_CACHE : string := "localchat-dynamic-v1".

(** [s.endsWith(suffix)], [s.includes(part)], [s.startsWith(start)] *)
Fixpoint endsWith (suffix s : string) : bool :=
  String.eqb s suffix
  || match s with
     | String _ rest => endsWith suffix rest
     | EmptyString => false
     end.

Fixpoint includes (part s : string) : bool :=
  String.prefix part s
  || match s with
     | String _ rest => includes part rest
     | EmptyString => false
     end.

Definition startsWith (start s : string) : bool := String.prefix start s.

(** [caches.open(name)]: the cache is created when it does not exist. *)
Definition open (name : string) (caches : CacheStorage) : Cache * CacheStorage :=
  match obj_get name caches with
  | Some cache => (cache, caches)
  | None => ([], obj_set name [] caches)
  end.

(** What [cache.put(request, response)] takes: a GET request over http or
    https, and a response whose status is not 206 and whose [Vary] header
    does not hold [*]; otherwise its promise rejects with a TypeError. *)
Definition accepted (request : Request) (response : Response) : bool :=
  String.eqb (method request) "GET"
  && (String.eqb (protocol request) "http:" || String.eqb (protocol request) "https:")
  && negb (status response =? 206)
  && negb (varyStar response).

(** [cache.put(request, response)] on the cache called [name], once its
    promise has settled.  [room]: the storage had room for the entry (the
    promise rejects with QuotaExceededError otherwise).  A rejected put
    leaves the cache as it was. *)
Definition put (name : string) (request : Request) (response : Response) (room : bool)
    (caches : CacheStorage) : CacheStorage :=
  if accepted request response && room then
    obj_set name (obj_set (url request) response (default [] (obj_get name caches))) caches
  else caches.

(** A [cache.put] that has been called and is not awaited: the worker
    neither waits for it nor sees whether it is rejected. *)
Record Put := {
  into : string;
  request_put : Request;
  response_put : Response;
}.

(** The cache storage once a pending put has settled. *)
Definition settle (pending : option Put) (room : bool) (caches : CacheStorage)
    : CacheStorage :=
  match pending with
  | Some p => put (into p) (request_put p) (response_put p) room caches
  | None => caches
  end.

(** [caches.match(url)]: the first cache, in creation order, that has it *)
Fixpoint caches_match (u : string) (caches : CacheStorage) : option Response :=
  match caches with
  | [] => None
  | (_, cache) :: caches' =>
      match obj_get u cache with
      | Some response => Some response
      | None => caches_match u caches'
      end
  end.

Definition offline_text : Response :=
  {| status := 503; varyStar := false; body := "Offline" |}.

Definition offline_json : Response :=
  {| status := 503; varyStar := false;
     body := stringify (JObj [("error", JStr "Offline")]) |}.

(** cacheFirst(cacheName, request), lines 112-130.  [network] is what
    [fetch(request)] does: it resolves with a response or rejects
    ([None]).  The [put] of line 123 is not awaited: the result carries
    it as pending.  (The console output is left out.) *)
Definition cacheFirst (cacheName : string) (request : Request)
    (network : option Response) (caches : CacheStorage)
    : Response * CacheStorage * option Put :=
  let '(cache, caches1) := open cacheName caches in
  match obj_get (url request) cache with
  | Some cached => (cached, caches1, None)
  | None =>
      match network with
      | Some response =>
          (response, caches1,
           if ok response
           then Some {| into := cacheName; request_put := request;
                        response_put := response |}
           else None)
      | None => (offline_text, caches1, None)
      end
  end.

(** networkFirst(request), lines 133-158.  [index] is the URL that
    ['./index.html'] resolves to.  The result is [None] when the promise
    resolves with [undefined]: [caches.match(...)] is a promise, hence
    truthy, and the alternative after [||] is never taken.  The [put] of
    line 139 is not awaited either. *)
Definition networkFirst (index : string) (request : Request)
    (network : option Response) (caches : CacheStorage)
    : option Response * CacheStorage * option Put :=
  let '(cache, caches1) := open DYNAMIC_CACHE caches in
  match network with
  | Some response =>
      (Some response, caches1,
       if ok response
       then Some {| into := DYNAMIC_CACHE; request_put := request;
                    response_put := response |}
       else None)
  | None =>
      match obj_get (url request) cache with
      | Some cached => (Some cached, caches1, None)
      | None =>
          if String.eqb (mode request) "navigate"
          then (caches_match index caches1, caches1, None)
          else (Some offline_json, caches1, None)
      end
  end.

(** isStaticAsset(url), isCDNAsset(url), lines 162-175 *)
Definition isStaticAsset (request : Request) : bool :=
  let path := pathname request in
  endsWith ".css" path || endsWith ".js" path || endsWith ".json" path
  || endsWith ".png" path || endsWith ".svg" path || endsWith ".ico" path.

Definition isCDNAsset (request : Request) : bool :=
  includes "cdn.jsdelivr.net" (hostname request)
  || includes "unpkg.com" (hostname request).

(** The fetch listener, lines 87-107.  [None]: the worker does not
    answer ([respondWith] is not called) and the browser handles the
    request itself. *)
Definition onfetch (index : string) (request : Request) (network : option Response)
    (caches : CacheStorage) : option (option Response * CacheStorage * option Put) :=
  if negb (String.eqb (method request) "GET") then None
  else if negb (startsWith "http" (protocol request)) then None
  else if isStaticAsset request then
    let '(response, caches', pending) := cacheFirst STATIC_CACHE request network caches in
    Some (Some response, caches', pending)
  else if isCDNAsset request then
    let '(response, caches', pending) := cacheFirst DYNAMIC_CACHE request network caches in
    Some (Some response, caches', pending)
  else Some (networkFirst index request network caches).

(** What the worker answers. *)
Definition answer (outcome : option (option Response * CacheStorage * option Put))
    : option (option Response) :=
  (fun r => fst (fst r)) <$> outcome.

End ServiceWorker.

(** A script of the page and a call of some API, as the worker sees
    them. *)
Definition script_request : ServiceWorker.Request :=
  {| ServiceWorker.url := "https://chat.example/js/app.js";
     ServiceWorker.method := "GET"; ServiceWorker.mode := "no-cors";
     ServiceWorker.destination := "script"; ServiceWorker.protocol := "https:";
     ServiceWorker.hostname := "chat.example"; ServiceWorker.pathname := "/js/app.js" |}.

Definition page_request : ServiceWorker.Request :=
  {| ServiceWorker.url := "https://chat.example/";
     ServiceWorker.method := "GET"; ServiceWorker.mode := "navigate";
     ServiceWorker.destination := "document"; ServiceWorker.protocol := "https:";
     ServiceWorker.hostname := "chat.example"; ServiceWorker.pathname := "/" |}.

Definition fresh_response (text : string) : ServiceWorker.Response :=
  {| ServiceWorker.status := 200; ServiceWorker.varyStar := false;
     ServiceWorker.body := text |}.

(** A partial response (status 206), as a server gives to a range
    request: [ok], yet not a response [cache.put] takes. *)
Definition partial_response (text : string) : ServiceWorker.Response :=
  {| ServiceWorker.status := 206; ServiceWorker.varyStar := false;
     ServiceWorker.body := text |}.


(** ** The user's profile (js/app.js) *)

Module Profile.

(** ToBoolean *)
Definition truthy (v : value) : bool :=
  match v with
  | JUndefined | JNull => false
  | JBool b => b
  | JNum n => negb (n =? 0)%Z
  | JStr s => negb (String.eqb s "")
  | JArr _ | JObj _ => true
  end.

(** [v.k = x] (not in strict mode): the object with the property set; on a
    primitive the assignment is dropped; on [null] and [undefined] it
    raises. *)
Definition set_prop (v : value) (k : string) (x : value) : Completion value :=
  match v with
  | JObj o => Normal (JObj (obj_set k x o))
  | JUndefined | JNull => Throw (TypeError "Cannot set properties of undefined or null")
  | _ => Normal v
  end.

Definition with_user (u : value) (s : AppState) : AppState :=
  {| user := u; appIsHost := appIsHost s; isConnected := isConnected s;
     peers := peers s; currentScreen := currentScreen s; isReady := isReady s |}.

(** encodeURIComponent, for strings of code units below 256: the
    unreserved characters stay, every other character becomes the
    percent-escapes of its UTF-8 bytes. *)
Definition hex_upper (n : N) : ascii :=
  if (n <? 10)%N then ascii_of_N (48 + n) else ascii_of_N (55 + n).

Definition percent (byte : N) : string :=
  String "%" (String (hex_upper (byte / 16)) (String (hex_upper (byte mod 16)) "")).

Definition unreserved (c : ascii) : bool :=
  let n := N_of_ascii c in
  ((65 <=? n) && (n <=? 90))%N || ((97 <=? n) && (n <=? 122))%N
  || ((48 <=? n) && (n <=? 57))%N
  || bool_decide (c ∈ ["-"; "_"; "."; "!"; "~"; "*"; "'"; "("; ")"]%char).

Fixpoint encodeURIComponent (s : string) : string :=
  match s with
  | EmptyString => ""
  | String c rest =>
      (if unreserved c then String c ""
       else
         let n := N_of_ascii c in
         if (n <? 128)%N then percent n
         else percent (192 + n / 64) +:+ percent (128 + n mod 64))
      +:+ encodeURIComponent rest
  end.

Definition default_avatar (name : string) : string :=
  "https://ui-avatars.com/api/?name=" +:+ encodeURIComponent name
  +:+ "&background=random&color=fff".

(** saveProfile(), lines 132-160; [name] is the trimmed content of the
    name field and [storage_ok] says whether [localStorage.setItem]
    succeeds.  The result is the text written under [localchat_user],
    when one is written.  (The lobby's greeting and avatar are drawn by
    the page.) *)
Definition saveProfile (name : string) (storage_ok : bool) : M (option string) :=
  if String.eqb name "" then
    show (Toast "Please enter a username" "error");; mret None
  else
    w ← get_world;
    u1 ← lift (set_prop (user (state w)) "name" (JStr name));
    modify (set_state (with_user u1));;
    avatar ← lift (get_prop u1 "avatar");
    u2 ← (if truthy avatar then mret u1
          else lift (set_prop u1 "avatar" (JStr (default_avatar name))));
    modify (set_state (with_user u2));;
    stored ← (if storage_ok then mret (Some (default "undefined" (JSON_stringify u2)))
              else show (Console "Could not save user profile");; mret None);
    App.showScreen "lobby";;
    mret stored.

End Profile.


(** A registry the participants dialog can draw: every record has a user
    (not [null], not [undefined]). *)
Definition has_user (peer : PeerRecord) : bool :=
  match peerUser peer with
  | JUndefined | JNull => false
  | _ => true
  end.

Definition presentable (registry : list (string * PeerRecord)) : bool :=
  forallb (fun entry => has_user (snd entry)) registry.


(** A text that cannot begin a JSON value: it is empty, or its first
    character after the white space opens no string, object, array,
    literal or number. *)
Definition garbled (data : string) : bool :=
  match skip_ws data with
  | EmptyString => true
  | String c _ =>
      negb (Ascii.eqb c DQ || Ascii.eqb c "{" || Ascii.eqb c "[" || Ascii.eqb c "t"
            || Ascii.eqb c "f" || Ascii.eqb c "n" || Ascii.eqb c "-"
            || bool_decide (is_Some (digit_val c)))
  end.


(** [call] is a [throw]. *)
Definition throws (call : BusCall) : Prop :=
  match call with
  | CallThrow _ => True
  | CallOff _ _ | CallOn _ _ => False
  end.

(** A store whose first listener for [update] subscribes a further
    listener, and whose second and last one unsubscribes the first. *)
Definition tidy_store : Store :=
  Eval vm_compute in
  StateManager.on "update" (Fn 2 [CallOff "update" 1])
    (StateManager.on "update" (Fn 1 [CallOn "update" (Fn 3 [])])
       (StateManager.create [])).

(** A store whose second listener for [update], of three, throws. *)
Definition faulty_store : Store :=
  Eval vm_compute in
  StateManager.on "update" (Fn 3 [])
    (StateManager.on "update" (Fn 2 [CallOn "user:change" (Fn 4 []); CallThrow (ErrorMsg "boom")])
       (StateManager.on "update" (Fn 1 [])
          (StateManager.create []))).


(** No [throw] anywhere in what a listener does, nor in what the listeners
    it subscribes do. *)
Fixpoint quiet_call (call : BusCall) : bool :=
  match call with
  | CallOff _ _ => true
  | CallOn _ cb => quiet_cb cb
  | CallThrow _ => false
  end
with quiet_cb (cb : Callback) : bool :=
  match cb with
  | Fn _ body => forallb quiet_call body
  end.

(** A store none of whose listeners can throw. *)
Definition quiet_store (st : Store) : Prop :=
  Forall (fun entry => Forall (fun cb => quiet_cb cb = true) (snd entry)) (listeners st).

(** A store with one observer of [update], one of [lastEvent:change] and
    one of [message]. *)
Definition listening_store : Store :=
  Eval vm_compute in
  StateManager.on "message" (Fn 3 [])
    (StateManager.on "lastEvent:change" (Fn 2 [])
       (StateManager.on "update" (Fn 1 [])
          (StateManager.create [("isHost", JBool false); ("user", JNull)]))).

(** The page after [initApp], were a store with these listeners in place. *)
Definition listening_world : World :=
  Eval vm_compute in set_store (fun _ => Some listening_store) (App.boot 1730000000000).


(** A host that opened the invite dialog twice, so that [createOffer] ran
    twice on the same manager (the second call replaces [this.localPC]
    without closing the first connection, which is still gathering), and
    was cleaned up then: [cleanup] closes the second connection only. *)
Definition gathering_abandoned : World :=
  Eval vm_compute in
  exec (App.ensure_webrtc;;
        WebRTCManager.createOffer_start;;
        _ ← WebRTCManager.createOffer_resume None (descriptor "offer" sample_sdp);
        WebRTCManager.createOffer_start;;
        _ ← WebRTCManager.createOffer_resume None (descriptor "offer" sample_sdp);
        WebRTCManager.cleanup)
       (App.boot 1730000000000).

(** * Facts *)

Example parse_ex1 :
  JSON_parse (stringify (JObj [("type", JStr "chat"); ("text", JStr "hi"); ("u", JUndefined);
                               ("n", JArr [JNum 3; JNull; JBool true; JObj []])]))
  = Normal (JObj [("type", JStr "chat"); ("text", JStr "hi");
                  ("n", JArr [JNum 3; JNull; JBool true; JObj []])]).
Proof. vm_compute. reflexivity. Qed.

(** ** Facts about the JSON reader *)

Lemma parse_chars_escape_char (c : ascii) (rest : string) :
  parse_chars (escape_char c +:+ rest) = cons_char c (parse_chars rest).
Proof.
  destruct c as [[] [] [] [] [] [] [] []]; reflexivity.
Qed.

Lemma append_assoc (a b c : string) : (a +:+ b) +:+ c = a +:+ (b +:+ c).
Proof. induction a as [|x a IH]; simpl; [reflexivity | f_equal; exact IH]. Qed.

Lemma parse_chars_escape (s rest : string) :
  parse_chars ((escape s +:+ String DQ "") +:+ rest) = Some (s, rest).
Proof.
  induction s as [|c s IH]; [reflexivity|].
  cbn [escape].
  rewrite !append_assoc, parse_chars_escape_char, <- append_assoc, IH.
  reflexivity.
Qed.

Lemma parse_chars_quote (s rest : string) :
  parse_chars (escape s +:+ String DQ rest) = Some (s, rest).
Proof.
  change (String DQ rest) with (String DQ "" +:+ rest).
  rewrite <- append_assoc. apply parse_chars_escape.
Qed.

Lemma skip_ws_nonws (c : ascii) (r : string) :
  is_ws c = false -> skip_ws (String c r) = String c r.
Proof. intros H. cbn [skip_ws]. by rewrite H. Qed.

(** Decide the character tests on literal characters that a parsing step
    leaves in the goal. *)
Ltac char_tests :=
  repeat match goal with
    | |- context [Ascii.eqb ?a ?b] =>
        let r := eval vm_compute in (Ascii.eqb a b) in
        change (Ascii.eqb a b) with r
    end;
  cbv beta iota.

Lemma parse_value_quote (fuel : nat) (s rest : string) :
  parse_value (S fuel) (String DQ (escape s +:+ String DQ rest)) = Some (JStr s, rest).
Proof.
  cbn [parse_value]. rewrite skip_ws_nonws by reflexivity.
  char_tests. by rewrite parse_chars_quote.
Qed.

(** The text of an object with two string-valued members, as [stringify]
    lays it out. *)
Definition two_member_text (k1 v1 k2 v2 : string) : string :=
  String "{" (String DQ (escape k1 +:+ String DQ (String ":" (String DQ
    (escape v1 +:+ String DQ (String "," (String DQ (escape k2 +:+ String DQ
      (String ":" (String DQ (escape v2 +:+ String DQ "}"))))))))))).

Lemma stringify_two_members (k1 v1 k2 v2 : string) :
  stringify (JObj [(k1, JStr v1); (k2, JStr v2)]) = two_member_text k1 v1 k2 v2.
Proof.
  unfold two_member_text. cbn -[escape]. unfold quote.
  do 4 (rewrite ?append_assoc; cbn -[escape]). reflexivity.
Qed.

Lemma parse_two_members (fuel : nat) (k1 v1 k2 v2 : string) :
  k1 <> k2 ->
  parse_value (S (S (S (S fuel)))) (two_member_text k1 v1 k2 v2)
  = Some (JObj [(k1, JStr v1); (k2, JStr v2)], "").
Proof.
  intros Hk. unfold two_member_text.
  repeat first
    [ rewrite parse_chars_quote
    | rewrite parse_value_quote
    | rewrite skip_ws_nonws by reflexivity
    | progress char_tests
    | progress cbn [parse_value parse_members] ].
  cbn [obj_set].
  destruct (String.eqb_spec k2 k1) as [->|_]; [done|reflexivity].
Qed.

Lemma length_append_cons (a b : string) (c : ascii) :
  exists n, String.length (a +:+ String c b) = S n.
Proof. destruct a; cbn; eauto. Qed.

Lemma JSON_parse_two_members (k1 v1 k2 v2 : string) :
  k1 <> k2 ->
  JSON_parse (stringify (JObj [(k1, JStr v1); (k2, JStr v2)]))
  = Normal (JObj [(k1, JStr v1); (k2, JStr v2)]).
Proof.
  intros Hk. rewrite stringify_two_members. unfold JSON_parse.
  assert (exists f, String.length (two_member_text k1 v1 k2 v2) = S (S (S f)))
    as [f ->].
  { unfold two_member_text. cbn [String.length].
    destruct (length_append_cons (escape k1)
      (String ":" (String DQ (escape v1 +:+ String DQ (String "," (String DQ
        (escape k2 +:+ String DQ (String ":" (String DQ
          (escape v2 +:+ String DQ "}"))))))))) DQ) as [n ->].
    eauto. }
  by rewrite parse_two_members.
Qed.

(** ** The signalling codec *)

Lemma marker_codec_lossless : lossless (Some marker_codec).
Proof. intros codec [= <-] text. reflexivity. Qed.

(** C2. Codec round trip: for every connection descriptor (an object with a
    [type] and an [sdp] string, whatever the two strings are),
    [compressDescription] yields a token and [decompressDescription] of that
    token is the descriptor again, with lz-string loaded (and lossless) or
    not.  The kind and the SDP text are arbitrary: decoding checks nothing
    beyond the JSON syntax. *)
Theorem C2_codec_roundtrip (lz : option LZ) (kind sdp : string) :
  lossless lz ->
  exists token,
    WebRTCManager.compressDescription lz (descriptor kind sdp) = Some token /\
    WebRTCManager.decompressDescription lz token = Normal (descriptor kind sdp).
Proof.
  intros Hlz.
  unfold WebRTCManager.compressDescription, WebRTCManager.decompressDescription.
  destruct lz as [codec|]; eexists; (split; [reflexivity|]).
  - cbn [JSON_stringify descriptor]. rewrite (Hlz codec eq_refl). cbn [default].
    by apply JSON_parse_two_members.
  - by apply JSON_parse_two_members.
Qed.

Lemma C2_codec_roundtrip_witness :
  exists token,
    WebRTCManager.compressDescription (Some marker_codec) (descriptor "offer" sample_sdp)
      = Some token /\
    WebRTCManager.decompressDescription (Some marker_codec) token
      = Normal (descriptor "offer" sample_sdp).
Proof.
  apply (C2_codec_roundtrip (Some marker_codec) "offer" sample_sdp).
  intros codec Hc text. injection Hc as <-. reflexivity.
Defined.

(** Decoding hands back whatever JSON value the token holds. *)
Example decode_accepts_any_json :
  WebRTCManager.decompressDescription None
    (stringify (JObj [("type", JStr "bogus"); ("n", JArr [JNum 1; JNum (-2)])]))
  = Normal (JObj [("type", JStr "bogus"); ("n", JArr [JNum 1; JNum (-2)])]).
Proof. vm_compute. reflexivity. Qed.

(** ** Objects *)

Section ObjectFacts.
Context {A : Type}.
Implicit Types (o p : list (string * A)) (k : string) (v : A).

Lemma obj_get_set k k' v o :
  obj_get k (obj_set k' v o) = if String.eqb k k' then Some v else obj_get k o.
Proof.
  induction o as [|[k0 v0] o IH]; cbn.
  - destruct (String.eqb_spec k k'); reflexivity.
  - destruct (String.eqb_spec k' k0) as [->|Hne]; cbn.
    + destruct (String.eqb_spec k k0); reflexivity.
    + rewrite IH. destruct (String.eqb_spec k k0) as [->|]; [|reflexivity].
      destruct (String.eqb_spec k0 k'); congruence.
Qed.

Lemma obj_get_absent k o : k ∉ obj_keys o -> obj_get k o = None.
Proof.
  induction o as [|[k0 v0] o IH]; cbn; [reflexivity|].
  intros Hk. destruct (String.eqb_spec k k0) as [->|].
  - exfalso. apply Hk. left.
  - apply IH. intros Hin. apply Hk. by right.
Qed.

(** Reading a key from [{...o, ...p}]: [p]'s value when [p] has the key,
    else [o]'s. *)
Lemma obj_get_spread k o p :
  NoDup (obj_keys p) ->
  obj_get k (obj_spread o p) =
    match obj_get k p with
    | Some v => Some v
    | None => obj_get k o
    end.
Proof.
  unfold obj_spread. revert o.
  induction p as [|[k1 v1] p IH]; intros o Hnd; cbn; [reflexivity|].
  apply NoDup_cons in Hnd as [Hk1 Hnd].
  rewrite IH by done. rewrite obj_get_set.
  destruct (String.eqb_spec k k1) as [->|]; [|reflexivity].
  by rewrite obj_get_absent.
Qed.
End ObjectFacts.

(** ** Running computations *)

Ltac run :=
  cbv [mbind mret M_bind M_ret throw gets get_world modify lift show
       WebRTCManager.this WebRTCManager.update chan_get pc_get].

Lemma run_bind {A B} (m : M A) (k : A -> M B) (w w' : World) (a : A) :
  m w = (Normal a, w') -> (m ≫= k) w = k a w'.
Proof. intros H. unfold mbind, M_bind. by rewrite H. Qed.

Lemma run_bind_throw {A B} (m : M A) (k : A -> M B) (w w' : World) (e : Error) :
  m w = (Throw e, w') -> (m ≫= k) w = (Throw e, w').
Proof. intros H. unfold mbind, M_bind. by rewrite H. Qed.

(** Decide the comparisons of a known string value with a case label. *)
Ltac str_tests :=
  repeat match goal with
    | |- context [str_is (JStr ?a) ?b] =>
        let r := eval vm_compute in (str_is (JStr a) b) in
        change (str_is (JStr a) b) with r
    end;
  cbv beta iota.

(** ** send *)

Section Send.
Variables (w : World) (m : Manager) (type : string) (payload : option object).
Hypothesis Hm : webrtc w = Some m.

Lemma send_no_channel :
  channel m = None -> WebRTCManager.send type payload w = (Normal false, w).
Proof. intros Hc. unfold WebRTCManager.send. run. by rewrite Hm, Hc. Qed.

Lemma send_not_open c ch :
  channel m = Some c -> channels w !! c = Some ch -> readyState ch <> open ->
  WebRTCManager.send type payload w = (Normal false, w).
Proof.
  intros Hc Hch Hrs. unfold WebRTCManager.send. run. rewrite Hm, Hc, Hch.
  by destruct (readyState ch).
Qed.

Lemma send_accepted c ch :
  channel m = Some c -> channels w !! c = Some ch ->
  readyState ch = open -> txFault ch = None ->
  WebRTCManager.send type payload w =
    (Normal true,
     set_channels
       (alter (sent (stringify (JObj (WebRTCManager.envelope type payload)))) c) w).
Proof.
  intros Hc Hch Hrs Htx. unfold WebRTCManager.send, chan_send. run.
  rewrite Hm, Hc, Hch, Hrs. cbn -[stringify]. by rewrite Hch, Hrs, Htx.
Qed.

Lemma send_transport_failure c ch e :
  channel m = Some c -> channels w !! c = Some ch ->
  readyState ch = open -> txFault ch = Some e ->
  WebRTCManager.send type payload w = (Throw e, w).
Proof.
  intros Hc Hch Hrs Htx. unfold WebRTCManager.send, chan_send. run.
  rewrite Hm, Hc, Hch, Hrs. cbn -[stringify]. by rewrite Hch, Hrs, Htx.
Qed.
End Send.


(** Case analysis on the outcomes of [send]. *)
Ltac send_cases :=
  try discriminate; try reflexivity; try congruence;
  repeat match goal with
    | |- _ -> _ => intro
    | H : _ \/ _ |- _ => destruct H
    | H : exists _, _ |- _ => destruct H
    | H : _ /\ _ |- _ => destruct H
    | H : Some _ = Some _ |- _ => injection H as ->
    | H : Throw _ = Throw _ |- _ => injection H as ->
    end;
  try discriminate; try congruence; eauto 10.

(** C5 as stated fails when the transport refuses the frame: the channel is
    open, [channel.send] raises, and [send] lets the exception through
    instead of returning [false]. *)
Lemma C5_send_raises_on_transport_failure :
  result (WebRTCManager.send "chat" (Some [("text", JStr "hi")]))
         (exec (congest 0) host_connected) = Throw OperationError
  /\ result (WebRTCManager.send "chat" (Some [("text", JStr "hi")]))
            (exec (congest 0) host_connected) <> Normal false.
Proof. split; [vm_compute; reflexivity | vm_compute; discriminate]. Qed.

(** C5, amended. [send] returns [true] exactly when the manager has a
    channel whose [readyState] is [open] and the transport takes the frame;
    it returns [false], leaving everything unchanged, exactly when there is
    no channel or the channel is not open; and when the channel is open but
    the transport's [send] raises, that exception reaches the caller. *)
Theorem C5_send_outcome (w : World) (m : Manager) (type : string) (payload : option object) :
  webrtc w = Some m ->
  (forall c, channel m = Some c -> is_Some (channels w !! c)) ->
  (result (WebRTCManager.send type payload) w = Normal true <->
     exists c ch, channel m = Some c /\ channels w !! c = Some ch /\
                  readyState ch = open /\ txFault ch = None) /\
  (result (WebRTCManager.send type payload) w = Normal false <->
     channel m = None \/
     exists c ch, channel m = Some c /\ channels w !! c = Some ch /\
                  readyState ch <> open) /\
  (forall e, result (WebRTCManager.send type payload) w = Throw e <->
     exists c ch, channel m = Some c /\ channels w !! c = Some ch /\
                  readyState ch = open /\ txFault ch = Some e) /\
  (result (WebRTCManager.send type payload) w <> Normal true ->
     exec (WebRTCManager.send type payload) w = w).
Proof.
  intros Hm Hwf. unfold result, exec.
  destruct (channel m) as [c|] eqn:Hc.
  - destruct (Hwf c eq_refl) as [ch Hch].
    assert (readyState ch = open \/ readyState ch <> open) as [Hrs|Hrs]
      by (destruct (readyState ch); auto).
    + destruct (txFault ch) as [e|] eqn:Htx.
      * rewrite (send_transport_failure w m type payload Hm c ch e) by done.
        cbn. repeat split; send_cases.
      * rewrite (send_accepted w m type payload Hm c ch) by done.
        cbn. repeat split; send_cases.
    + rewrite (send_not_open w m type payload Hm c ch) by done.
      cbn. repeat split; send_cases.
  - rewrite (send_no_channel w m type payload Hm) by done.
    cbn. repeat split; send_cases.
Qed.

Lemma C5_send_outcome_witness :
  result (WebRTCManager.send "chat" (Some [("text", JStr "hi")])) host_connected
    = Normal true.
Proof.
  apply (C5_send_outcome host_connected host_manager "chat" (Some [("text", JStr "hi")])).
  - reflexivity.
  - intros c [= <-]. eexists. reflexivity.
  - eexists 0, _. split; [reflexivity|]. split; [reflexivity|]. split; reflexivity.
Defined.

(** ** cleanup, destroy *)

Lemma cleanup_spec (w : World) (m : Manager) :
  webrtc w = Some m ->
  WebRTCManager.cleanup w =
    (Normal tt,
     {| now := now w;
        channels := close_if (channel m) (channels w);
        conns := close_pc_if (localPC m) (conns w);
        webrtc := Some (released m);
        state := state w; store := store w; page := page w |}).
Proof.
  intros Hm. unfold WebRTCManager.cleanup, chan_close, pc_close. run.
  rewrite Hm. destruct w as [t chs pcs mgr st sto pg]. cbn in Hm. subst mgr.
  destruct m as [[p|] hp [c|] ih f1 f2 f3 f4 f5 f6]; reflexivity.
Qed.

Lemma cleanup_without_manager (w : World) :
  webrtc w = None -> WebRTCManager.cleanup w = (Throw (TypeError "webrtc is null"), w).
Proof. intros Hm. unfold WebRTCManager.cleanup. run. by rewrite Hm. Qed.

Lemma destroy_spec (w : World) (m : Manager) :
  webrtc w = Some m ->
  WebRTCManager.destroy w =
    (Normal tt,
     {| now := now w;
        channels := close_if (channel m) (channels w);
        conns := close_pc_if (localPC m) (conns w);
        webrtc := Some (WebRTCManager.with_callbacks false (released m));
        state := state w; store := store w; page := page w |}).
Proof.
  intros Hm. unfold WebRTCManager.destroy.
  change (WebRTCManager.cleanup;; WebRTCManager.update (WebRTCManager.with_callbacks false))
    with (M_bind _ _ (fun _ => WebRTCManager.update (WebRTCManager.with_callbacks false))
                 WebRTCManager.cleanup).
  unfold M_bind. rewrite (cleanup_spec w m Hm). reflexivity.
Qed.

Lemma cleanup_twice (w : World) :
  (WebRTCManager.cleanup;; WebRTCManager.cleanup) w = WebRTCManager.cleanup w.
Proof.
  change ((WebRTCManager.cleanup;; WebRTCManager.cleanup) w)
    with (M_bind _ _ (fun _ => WebRTCManager.cleanup) WebRTCManager.cleanup w).
  unfold M_bind.
  destruct (webrtc w) as [m|] eqn:Hm.
  - rewrite (cleanup_spec w m Hm).
    erewrite (cleanup_spec _ (released m)) by reflexivity.
    destruct m as [p hp c ih f1 f2 f3 f4 f5 f6]. reflexivity.
  - by rewrite (cleanup_without_manager w Hm).
Qed.

Lemma destroy_twice (w : World) :
  (WebRTCManager.destroy;; WebRTCManager.destroy) w = WebRTCManager.destroy w.
Proof.
  change ((WebRTCManager.destroy;; WebRTCManager.destroy) w)
    with (M_bind _ _ (fun _ => WebRTCManager.destroy) WebRTCManager.destroy w).
  unfold M_bind.
  destruct (webrtc w) as [m|] eqn:Hm.
  - rewrite (destroy_spec w m Hm).
    erewrite (destroy_spec _ (WebRTCManager.with_callbacks false (released m))) by reflexivity.
    destruct m as [p hp c ih f1 f2 f3 f4 f5 f6]. reflexivity.
  - unfold WebRTCManager.destroy.
    change (WebRTCManager.cleanup;; WebRTCManager.update (WebRTCManager.with_callbacks false))
      with (M_bind _ _ (fun _ => WebRTCManager.update (WebRTCManager.with_callbacks false))
                   WebRTCManager.cleanup).
    unfold M_bind. by rewrite (cleanup_without_manager w Hm).
Qed.

(** C8 as stated fails in its second half: the closed state is not
    terminal.  After [cleanup] both fields are null, and [createOffer] on
    that same manager gives it a new connection and a new channel. *)
Lemma C8_createOffer_leaves_closed :
  link_closed (exec WebRTCManager.cleanup host_connected)
  /\ ~ link_closed (exec (WebRTCManager.cleanup;; WebRTCManager.createOffer_start)
                         host_connected).
Proof.
  split.
  - eexists. repeat split; reflexivity.
  - intros (m & Hm & Hc & _). vm_compute in Hm. injection Hm as <-. discriminate Hc.
Qed.

(** C8, amended. [cleanup] is idempotent: a second call yields exactly the
    state of the first, and so does a second [destroy].  After [cleanup] the
    manager holds no channel and no connection and is not a host, the
    channel and the connection it held are closed, and in that state [send]
    returns [false] and [handleAnswer] raises, both without changing
    anything.  (The manager has no terminal state: [createOffer] and
    [createAnswer] start a new connection on a cleaned-up manager.) *)
Theorem C8_cleanup_idempotent (lz : option LZ) (w : World) (m : Manager) :
  webrtc w = Some m ->
  let w' := exec WebRTCManager.cleanup w in
  (WebRTCManager.cleanup;; WebRTCManager.cleanup) w = WebRTCManager.cleanup w
  /\ (WebRTCManager.destroy;; WebRTCManager.destroy) w = WebRTCManager.destroy w
  /\ webrtc w' = Some (released m)
  /\ link_closed w'
  /\ channels w' = close_if (channel m) (channels w)
  /\ conns w' = close_pc_if (localPC m) (conns w)
  /\ (forall type payload, WebRTCManager.send type payload w' = (Normal false, w'))
  /\ (forall token,
        WebRTCManager.handleAnswer lz token w'
        = (Throw (ErrorMsg "No local peer connection"), w')).
Proof.
  intros Hm w'. subst w'.
  split; [apply cleanup_twice|]. split; [apply destroy_twice|].
  unfold exec. rewrite (cleanup_spec w m Hm). cbn [snd].
  split; [reflexivity|]. split; [by eexists|]. split; [reflexivity|].
  split; [reflexivity|]. split.
  - intros type payload. by eapply send_no_channel.
  - intros token. reflexivity.
Qed.

Lemma C8_cleanup_idempotent_witness :
  (WebRTCManager.cleanup;; WebRTCManager.cleanup) host_connected
    = WebRTCManager.cleanup host_connected
  /\ readyState <$> (channels (exec WebRTCManager.cleanup host_connected) !! 0)
     = Some closed.
Proof.
  destruct (C8_cleanup_idempotent None host_connected host_manager eq_refl)
    as (Hidem & _ & _ & _ & Hch & _).
  split; [exact Hidem|]. rewrite Hch. reflexivity.
Defined.

(** ** kick *)

(** C6 as stated fails for the Host: a Host that receives a kick envelope
    from a guest runs the same teardown. The session of [host_of_three]
    ends when the frame arrives on Ann's channel. *)
Lemma C6_host_kick_tears_down :
  appIsHost (state host_of_three) = true
  /\ (isHost <$> webrtc host_of_three) = Some true
  /\ let w' := exec (App.channel_message 0 kick_frame) host_of_three in
     last (page w') = Some Reload
     /\ (channel <$> webrtc w') = Some None
     /\ (localPC <$> webrtc w') = Some None.
Proof. vm_compute. repeat split; reflexivity. Qed.

(** C6, amended. Whoever receives an envelope whose type is kick, Guest or
    Host, tears down: [handleMessage] returns normally, the manager's
    channel and connection are closed and its fields nulled, the user is
    alerted and the page is reloaded.  The handler itself leaves the peer
    registry alone; it is the reload that discards it. *)
Theorem C6_kick_tears_down (cbs : Callbacks) (w : World) (m : Manager) (msg : value) :
  webrtc w = Some m ->
  get_prop msg "type" = Normal (JStr "kick") ->
  let w' := exec (WebRTCManager.handleMessage cbs msg) w in
  result (WebRTCManager.handleMessage cbs msg) w = Normal tt
  /\ webrtc w' = Some (released m)
  /\ link_closed w'
  /\ channels w' = close_if (channel m) (channels w)
  /\ conns w' = close_pc_if (localPC m) (conns w)
  /\ page w' = page w ++ [Alert "You were removed from the group"; Reload]
  /\ state w' = state w.
Proof.
  intros Hm Hty w'. subst w'.
  assert (Hrun : WebRTCManager.handleMessage cbs msg w =
            (Normal tt,
             {| now := now w;
                channels := close_if (channel m) (channels w);
                conns := close_pc_if (localPC m) (conns w);
                webrtc := Some (released m);
                state := state w; store := store w;
                page := page w ++ [Alert "You were removed from the group"; Reload] |})).
  { unfold WebRTCManager.handleMessage.
    erewrite run_bind by (unfold lift; rewrite Hty; reflexivity).
    erewrite run_bind by (unfold WebRTCManager.this; rewrite Hm; reflexivity).
    str_tests.
    erewrite run_bind by (apply cleanup_spec, Hm).
    unfold mbind, M_bind, show. cbn. by rewrite <- app_assoc. }
  unfold result, exec. rewrite Hrun. cbn [fst snd webrtc channels conns page state].
  repeat split; try reflexivity. by eexists.
Qed.

Lemma C6_kick_tears_down_witness :
  let w' := exec (WebRTCManager.handleMessage App.handlers (JObj [("type", JStr "kick")]))
                 guest_connected in
  webrtc w' = Some (released guest_manager)
  /\ page w' = page guest_connected ++ [Alert "You were removed from the group"; Reload]
  /\ readyState <$> channels w' !! 0 = Some closed
  /\ pcClosed <$> conns w' !! 0 = Some true.
Proof.
  destruct (C6_kick_tears_down App.handlers guest_connected guest_manager
              (JObj [("type", JStr "kick")]) eq_refl eq_refl)
    as (_ & Hm & _ & Hch & Hpc & Hpage & _).
  cbv zeta. rewrite Hch, Hpc.
  split; [exact Hm|]. split; [exact Hpage|]. split; reflexivity.
Defined.

(** ** The event bus *)

Lemma indexOf_absent (target : nat) (cbs : list Callback) :
  target ∉ cbId <$> cbs -> StateManager.indexOf target cbs = None.
Proof.
  induction cbs as [|cb cbs IH]; cbn; [reflexivity|].
  intros Hnot. destruct (Nat.eqb_spec (cbId cb) target) as [<-|_].
  - exfalso. apply Hnot. left.
  - rewrite IH; [reflexivity|]. intros Hin. apply Hnot. by right.
Qed.

Lemma indexOf_app (target : nat) (cbs extra : list Callback) :
  target ∉ cbId <$> cbs ->
  StateManager.indexOf target (cbs ++ extra)
  = (fun i => length cbs + i) <$> StateManager.indexOf target extra.
Proof.
  induction cbs as [|cb cbs IH]; cbn.
  - intros _. by destruct (StateManager.indexOf target extra).
  - intros Hnot. destruct (Nat.eqb_spec (cbId cb) target) as [<-|_].
    + exfalso. apply Hnot. left.
    + rewrite IH by (intros Hin; apply Hnot; by right).
      by destruct (StateManager.indexOf target extra).
Qed.

Lemma delete_app_r {A} (l1 l2 : list A) (i : nat) :
  delete (length l1 + i) (l1 ++ l2) = l1 ++ delete i l2.
Proof. induction l1 as [|x l1 IH]; cbn; [reflexivity | f_equal; apply IH]. Qed.

Section Dispatch.
Variable event : string.
Variable cbs : list Callback.

(** What the listeners of [event] look like while a dispatch over [cbs]
    runs and none of [cbs] is removed: [cbs], followed by whatever was
    subscribed in the meantime. *)
Definition keeps (st : Store) : Prop :=
  exists extra, obj_get event (listeners st) = Some (cbs ++ extra).

Lemma on_keeps (e : string) (cb : Callback) (st : Store) :
  keeps st -> keeps (StateManager.on e cb st)
  /\ invoked (StateManager.on e cb st) = invoked st.
Proof.
  intros [extra Hget]. split; [|reflexivity].
  unfold keeps, StateManager.on. cbn [listeners StateManager.with_listeners].
  destruct (String.eqb_spec event e) as [<-|Hne].
  - rewrite Hget. rewrite obj_get_set, String.eqb_refl, Hget.
    exists (extra ++ [cb]). cbn. by rewrite app_assoc.
  - exists extra. rewrite obj_get_set.
    destruct (String.eqb_spec event e) as [|_]; [done|].
    destruct (obj_get e (listeners st)); [done|].
    rewrite obj_get_set. by destruct (String.eqb_spec event e).
Qed.

Lemma off_keeps (e : string) (target : nat) (st : Store) :
  ~ removes event (cbId <$> cbs) (CallOff e target) ->
  keeps st -> keeps (StateManager.off e target st)
  /\ invoked (StateManager.off e target st) = invoked st.
Proof.
  intros Hok [extra Hget]. unfold StateManager.off.
  destruct (String.eqb_spec event e) as [<-|Hne].
  - rewrite Hget.
    assert (Hnot : target ∉ cbId <$> cbs) by (intros Hin; apply Hok; by split).
    rewrite indexOf_app by done.
    destruct (StateManager.indexOf target extra) as [i|];
      cbn [fmap option_fmap option_map].
    + split; [|reflexivity]. exists (delete i extra).
      cbn [listeners StateManager.with_listeners].
      by rewrite obj_get_set, String.eqb_refl, delete_app_r.
    + split; [by exists extra | reflexivity].
  - destruct (obj_get e (listeners st)) as [callbacks|]; [|split; [by exists extra|done]].
    destruct (StateManager.indexOf target callbacks); [|split; [by exists extra|done]].
    split; [|reflexivity]. exists extra. cbn.
    rewrite obj_get_set. by destruct (String.eqb_spec event e).
Qed.

Lemma run_invoked (calls : list BusCall) (st : Store) :
  invoked (snd (StateManager.run calls st)) = invoked st.
Proof.
  revert st. induction calls as [|[e target|e cb|err] calls IH]; intros st;
    cbn [StateManager.run snd]; [done| | |done].
  - rewrite IH. unfold StateManager.off.
    destruct (obj_get e (listeners st)) as [callbacks|]; [|done].
    by destruct (StateManager.indexOf target callbacks).
  - by rewrite IH.
Qed.

Lemma run_returns (calls : list BusCall) (st : Store) :
  Forall (fun call => ~ throws call) calls ->
  fst (StateManager.run calls st) = Normal tt.
Proof.
  intros Hok. revert st. induction Hok as [|call calls Hcall _ IH]; intros st; [done|].
  destruct call as [e target|e cb|err]; cbn [StateManager.run]; [apply IH|apply IH|].
  exfalso. by apply Hcall.
Qed.

Lemma run_throws (calls rest : list BusCall) (err : Error) (st : Store) :
  Forall (fun call => ~ throws call) calls ->
  fst (StateManager.run (calls ++ CallThrow err :: rest) st) = Throw err.
Proof.
  intros Hok. revert st. induction Hok as [|call calls Hcall _ IH]; intros st; [done|].
  destruct call as [e target|e cb|err']; cbn [app StateManager.run]; [apply IH|apply IH|].
  exfalso. by apply Hcall.
Qed.

Lemma run_keeps (calls : list BusCall) (st : Store) :
  Forall (fun call => ~ removes event (cbId <$> cbs) call /\ ~ throws call) calls ->
  keeps st ->
  fst (StateManager.run calls st) = Normal tt
  /\ keeps (snd (StateManager.run calls st))
  /\ invoked (snd (StateManager.run calls st)) = invoked st.
Proof.
  intros Hok. revert st. induction Hok as [|call calls [Hcall Hquiet] _ IH]; intros st Hk.
  - by repeat split.
  - destruct call as [e target|e cb|err]; cbn [StateManager.run].
    + destruct (off_keeps e target st Hcall Hk) as [Hk' Hinv].
      destruct (IH _ Hk') as (Hres & Hk'' & Hinv'). repeat split; [done | done | congruence].
    + destruct (on_keeps e cb st Hk) as [Hk' Hinv].
      destruct (IH _ Hk') as (Hres & Hk'' & Hinv'). repeat split; [done | done | congruence].
    + exfalso. by apply Hquiet.
Qed.

(** The listeners of [front], a prefix of [cbs], neither remove one of
    [cbs] from [event] nor throw. *)
Variable front : list Callback.
Hypothesis front_prefix : exists back, cbs = front ++ back.
Hypothesis front_calm :
  Forall (fun cb =>
    Forall (fun call => ~ removes event (cbId <$> cbs) call /\ ~ throws call) (body cb))
    front.

Lemma forEach_front (n k rest : nat) (st : Store) :
  k + n <= length front ->
  keeps st ->
  exists st',
    StateManager.forEach_from event k (n + rest) st
    = StateManager.forEach_from event (k + n) rest st'
    /\ keeps st'
    /\ invoked st' = invoked st ++ ((fun cb => (cbId cb, event)) <$> take n (drop k cbs)).
Proof.
  revert k st. induction n as [|n IH]; intros k st Hlen Hk.
  - exists st. rewrite Nat.add_0_r. cbn. by rewrite app_nil_r.
  - destruct front_prefix as [back Hcbs].
    cbn [Nat.add StateManager.forEach_from].
    destruct Hk as [extra Hget]. rewrite Hget. cbn [default from_option].
    destruct (lookup_lt_is_Some_2 front k ltac:(lia)) as [cb Hcb].
    assert (Hcb' : cbs !! k = Some cb) by (rewrite Hcbs; by apply lookup_app_l_Some).
    change (id (cbs ++ extra)) with (cbs ++ extra).
    rewrite (lookup_app_l_Some _ _ _ _ Hcb').
    assert (Hbody : Forall (fun call => ~ removes event (cbId <$> cbs) call /\ ~ throws call)
                      (body cb)).
    { eapply (proj1 (Forall_forall _ _) front_calm), list_elem_of_lookup_2, Hcb. }
    unfold StateManager.call.
    destruct (run_keeps (body cb)
                {| sstate := sstate st; listeners := listeners st;
                   invoked := invoked st ++ [(cbId cb, event)] |} Hbody)
      as (Hres & Hk' & Hinv).
    { exists extra. exact Hget. }
    destruct (StateManager.run (body cb) _) as [outcome st1]. cbn in Hres, Hk', Hinv.
    subst outcome.
    destruct (IH (S k) st1 ltac:(lia) Hk') as (st' & Hrun & Hk'' & Hinv').
    exists st'. replace (k + S n) with (S k + n) by lia.
    split; [exact Hrun|]. split; [exact Hk''|].
    rewrite Hinv', Hinv. cbn [invoked].
    rewrite (drop_S _ _ _ Hcb'). cbn. by rewrite <- app_assoc.
Qed.

End Dispatch.

Lemma forEach_split (e : string) (n rest k : nat) (st : Store) :
  StateManager.forEach_from e k (n + rest) st
  = match StateManager.forEach_from e k n st with
    | (Normal _, st') => StateManager.forEach_from e (k + n) rest st'
    | (Throw err, st') => (Throw err, st')
    end.
Proof.
  revert k st. induction n as [|n IH]; intros k st.
  - cbn. by rewrite Nat.add_0_r.
  - cbn [Nat.add StateManager.forEach_from].
    replace (k + S n) with (S k + n) by lia.
    destruct (default [] (obj_get e (listeners st)) !! k) as [cb|]; [|apply IH].
    destruct (StateManager.call e cb st) as [[[]|err] st']; [apply IH|done].
Qed.

(** A stretch of the walk that meets observers only. *)
Lemma forEach_observers (e : string) (arr : list Callback) (n k : nat) (st : Store) :
  obj_get e (listeners st) = Some arr ->
  Forall (fun cb => body cb = []) (take n (drop k arr)) ->
  StateManager.forEach_from e k n st
  = (Normal tt,
     {| sstate := sstate st; listeners := listeners st;
        invoked := invoked st ++ ((fun cb => (cbId cb, e)) <$> take n (drop k arr)) |}).
Proof.
  revert k st. induction n as [|n IH]; intros k st Hget Hobs.
  - cbn. rewrite app_nil_r. by destruct st.
  - cbn [StateManager.forEach_from]. rewrite Hget. cbn [default from_option].
    change (id arr) with arr.
    destruct (arr !! k) as [cb|] eqn:Hcb.
    + rewrite (drop_S _ _ _ Hcb) in Hobs |- *. cbn [take] in Hobs |- *.
      apply Forall_cons in Hobs as [Hbody Hobs].
      unfold StateManager.call. rewrite Hbody. cbn [StateManager.run].
      rewrite (IH (S k)) by done. cbn. by rewrite <- app_assoc.
    + apply lookup_ge_None in Hcb.
      assert (Hrest : take n (drop (S k) arr) = []) by (by rewrite drop_ge, take_nil by lia).
      rewrite (IH (S k) st Hget) by (rewrite Hrest; constructor).
      by rewrite Hrest, drop_ge by lia.
Qed.

Lemma length_delete_le {A} (l : list A) (i : nat) : length (delete i l) <= length l.
Proof.
  revert i. induction l as [|x l IH]; intros i; [done|].
  destruct i as [|i]; simpl; [lia|]. specialize (IH i). lia.
Qed.

Lemma drop_delete_le {A} (l : list A) (i j : nat) :
  j <= i -> drop (S i) (delete j l) = drop (S (S i)) l.
Proof.
  revert i j. induction l as [|x l IH]; intros i j Hle; [done|].
  destruct j as [|j]; [done|]. destruct i as [|i]; [lia|].
  cbn. apply (IH i j). lia.
Qed.

Lemma drop_delete_gt {A} (l : list A) (i j : nat) :
  i < j -> drop (S i) (delete j l) = delete (j - S i) (drop (S i) l).
Proof.
  revert i j. induction l as [|x l IH]; intros i j Hlt; [done|].
  destruct j as [|j]; [lia|]. cbn.
  destruct i as [|i]; [by rewrite Nat.sub_0_r|].
  apply (IH i j). lia.
Qed.




(** Subscribing during a dispatch, and unsubscribing from another event,
    leave the dispatch alone: the listener that [busy_store]'s first
    listener adds to [update] is not called in that dispatch. *)
Example subscribing_listener_dispatch :
  StateManager.emit "update" busy_store
  = (Normal tt,
     {| sstate := [];
        listeners := [("user:change", []); ("update", [Fn 1 [CallOn "update" (Fn 3 []);
                                                             CallOff "user:change" 2];
                                                       Fn 2 []; Fn 3 []])];
        invoked := [(1, "update"); (2, "update")] |}).
Proof. reflexivity. Qed.

(** An exception ends the dispatch: in [faulty_store] the second of three
    listeners throws; the third is never called. *)
Example throwing_listener_ends_dispatch :
  StateManager.emit "update" faulty_store
  = (Throw (ErrorMsg "boom"),
     {| sstate := sstate faulty_store;
        listeners := listeners faulty_store ++ [("user:change", [Fn 4 []])];
        invoked := [(1, "update"); (2, "update")] |}).
Proof. reflexivity. Qed.

(** ** The late gathering-completion callback *)

Lemma onicecandidate_without_connection (w : World) (m : Manager) :
  webrtc w = Some m -> localPC m = None ->
  WebRTCManager.onicecandidate_handler None w
  = (Throw (TypeError "this.localPC is null"), w).
Proof.
  intros Hm Hp. unfold WebRTCManager.onicecandidate_handler. run.
  by rewrite Hm, Hp.
Qed.

Lemma closed_connection_fires_nothing (w : World) (p : nat) (pc : PeerConnection)
    (candidate : option string) :
  conns w !! p = Some pc -> pcClosed pc = true ->
  WebRTCManager.fire_icecandidate p candidate w = (Normal tt, w).
Proof.
  intros Hpc Hclosed. unfold WebRTCManager.fire_icecandidate.
  erewrite run_bind by (unfold pc_get; rewrite Hpc; reflexivity).
  by rewrite Hclosed.
Qed.

(** After a single [createOffer], [cleanup] closes the very connection
    that was gathering: the platform delivers no late event, whatever the
    closure would do. *)
Example single_offer_cancelled :
  (pcClosed <$> conns gathering_cancelled !! 0) = Some true
  /\ WebRTCManager.fire_icecandidate 0 None gathering_cancelled
     = (Normal tt, gathering_cancelled).
Proof. split; reflexivity. Qed.

(** The closure reads [this.localPC] when it is called, without looking at
    the link's state: on any connection that is still open and gathering,
    with the handler installed, the null candidate raises once the manager
    has been cleaned up. *)
Lemma late_ice_callback (w : World) (m : Manager) (p : nat) (pc : PeerConnection) :
  webrtc w = Some m -> localPC m = None ->
  conns w !! p = Some pc -> pcClosed pc = false ->
  localDescription pc <> JNull -> onicecandidate pc = true ->
  WebRTCManager.fire_icecandidate p None w
  = (Throw (TypeError "this.localPC is null"), w).
Proof.
  intros Hm Hnull Hpc Hopen Hdesc Hcb. unfold WebRTCManager.fire_icecandidate.
  erewrite run_bind by (unfold pc_get; rewrite Hpc; reflexivity).
  rewrite Hopen, Hcb.
  destruct (localDescription pc); try done;
    by apply (onicecandidate_without_connection w m).
Qed.

(** C9 fails on the code. The [onicecandidate] closure does not look at the
    link's state, and it reads [this.localPC] when it is called.  In
    [gathering_abandoned] the manager has been cleaned up ([localPC] and
    [channel] are null) while its first connection, which [createOffer]
    replaced without closing, is open, has its local description and the
    closure installed: gathering is outstanding there.  Its null
    candidate calls the closure, which dereferences [this.localPC], null,
    and raises.  (Nothing is changed: the exception comes before [emit].) *)
Theorem C9_late_ice_callback_raises :
  conns gathering_abandoned !! 0
  = Some {| pcClosed := false; localDescription := descriptor "offer" sample_sdp;
            remoteDescription := JNull; onicecandidate := true; ondatachannel := false |}
  /\ (pcClosed <$> conns gathering_abandoned !! 1) = Some true
  /\ (localPC <$> webrtc gathering_abandoned) = Some None
  /\ (channel <$> webrtc gathering_abandoned) = Some None
  /\ WebRTCManager.fire_icecandidate 0 None gathering_abandoned
     = (Throw (TypeError "this.localPC is null"), gathering_abandoned).
Proof. repeat split; reflexivity. Qed.

(** ** The host's handling of chat and system envelopes *)

Lemma onMessage_sends_nothing (msg : value) (w : World) :
  channels (exec (App.webrtc_onMessage msg) w) = channels w.
Proof.
  unfold exec, App.webrtc_onMessage, App.renderMessage, App.addSystemMessage. run.
  destruct (get_prop msg "type") as [type|e]; [|reflexivity].
  destruct (str_is type "chat").
  - destruct (get_prop msg "user") as [who|e]; [|reflexivity].
    destruct (get_prop msg "text") as [text|e]; [|reflexivity].
    destruct (get_prop who "avatar"); [|reflexivity].
    destruct (get_prop who "name"); reflexivity.
  - destruct (str_is type "system"); [|reflexivity].
    destruct (get_prop msg "text"); reflexivity.
Qed.

(** Whatever the session, a chat or system envelope handed to
    [handleMessage] puts no frame on any channel. *)
Lemma chat_is_not_relayed (msg type : value) (w : World) :
  get_prop msg "type" = Normal type ->
  str_is type "chat" || str_is type "system" = true ->
  channels (exec (WebRTCManager.handleMessage App.handlers msg) w) = channels w.
Proof.
  intros Hty Hkind. unfold exec, WebRTCManager.handleMessage.
  erewrite run_bind by (unfold lift; rewrite Hty; reflexivity).
  destruct (webrtc w) as [m|] eqn:Hm.
  - erewrite run_bind by (unfold WebRTCManager.this; rewrite Hm; reflexivity).
    destruct type as [| | | |s| |]; try discriminate Hkind.
    cbn [str_is] in *.
    apply orb_true_iff in Hkind as [Hs|Hs]; apply String.eqb_eq in Hs; subst s;
      str_tests; (destruct (onMessage m); [apply onMessage_sends_nothing | reflexivity]).
  - erewrite run_bind_throw by (unfold WebRTCManager.this; rewrite Hm; reflexivity).
    reflexivity.
Qed.

(** C1 fails on the code. The host of Ann, Bob and Cid (channels 0, 1, 2,
    all open) receives Ann's chat envelope on channel 0: the message is
    shown on the host's page, and no frame is put on any channel; Bob and
    Cid never get it.  The same for a system envelope. *)
Theorem C1_host_does_not_relay :
  (fun e => (peerUser (snd e), peerChannel (snd e))) <$> peers (state host_of_three)
    = [(Ann, Some 0); (Bob, Some 1); (Cid, Some 2)]
  /\ readyState <$> channels host_of_three = [open; open; open]
  /\ App.channel_message 0 (chat_frame Ann "hi") host_of_three
     = (Normal tt,
        {| now := now host_of_three;
           channels := channels host_of_three;
           conns := conns host_of_three;
           webrtc := webrtc host_of_three;
           state := state host_of_three;
           store := store host_of_three;
           page := page host_of_three ++ [RenderMessage Ann (JStr "hi") false] |})
  /\ App.channel_message 0 (system_frame "brb") host_of_three
     = (Normal tt,
        {| now := now host_of_three;
           channels := channels host_of_three;
           conns := conns host_of_three;
           webrtc := webrtc host_of_three;
           state := state host_of_three;
           store := store host_of_three;
           page := page host_of_three ++ [SystemMessage (JStr "brb")] |}).
Proof. repeat split; vm_compute; reflexivity. Qed.

(** ** The peer registry *)

(** *** What leaves [state] alone *)

Definition keeps_state {A} (m : M A) : Prop :=
  forall w, state (snd (m w)) = state w.

Lemma keeps_bind {A B} (m : M A) (k : A -> M B) :
  keeps_state m -> (forall a, keeps_state (k a)) -> keeps_state (m ≫= k).
Proof.
  intros Hm Hk w. unfold mbind, M_bind.
  specialize (Hm w). destruct (m w) as [[a|e] w']; cbn in *.
  - by rewrite Hk.
  - done.
Qed.

Lemma keeps_ret {A} (a : A) : keeps_state (mret a).
Proof. by intros w. Qed.

Lemma keeps_lift {A} (c : Completion A) : keeps_state (lift c).
Proof. by intros w. Qed.

Lemma keeps_show (e : Effect) : keeps_state (show e).
Proof. by intros w. Qed.

Lemma keeps_chan_get (c : nat) : keeps_state (chan_get c).
Proof. intros w. unfold chan_get. by destruct (channels w !! c). Qed.

Lemma keeps_chan_send (c : nat) (data : string) : keeps_state (chan_send c data).
Proof.
  apply keeps_bind; [apply keeps_chan_get|]. intros ch.
  destruct (negb (ReadyState_eqb (readyState ch) open)); [by intros w|].
  destruct (txFault ch); by intros w.
Qed.

Lemma keeps_send_to_entries (message : value) (excludeId : option string)
    (entries : list (string * PeerRecord)) :
  keeps_state (App.send_to_entries message excludeId entries).
Proof.
  induction entries as [|[id peer] entries IH]; cbn [App.send_to_entries].
  - apply keeps_ret.
  - apply keeps_bind; [|intros _; exact IH].
    destruct (peerChannel peer) as [c|]; [|apply keeps_ret].
    apply keeps_bind; [apply keeps_chan_get|]. intros ch.
    destruct (negb (bool_decide (Some id = excludeId)) && ReadyState_eqb (readyState ch) open);
      [apply keeps_chan_send | apply keeps_ret].
Qed.

Lemma keeps_broadcastMessage (message : value) (excludeId : option string) :
  keeps_state (App.broadcastMessage message excludeId).
Proof.
  apply keeps_bind; [by intros w|]. intros w0.
  destruct (negb (appIsHost (state w0)) || negb (bool_decide (is_Some (webrtc w0))));
    [apply keeps_ret | apply keeps_send_to_entries].
Qed.

Lemma obj_set_fresh_length {A} (k : string) (v : A) (o : list (string * A)) :
  obj_get k o = None -> length (obj_set k v o) = S (length o).
Proof.
  induction o as [|[k0 v0] o IH]; cbn; [reflexivity|].
  destruct (String.eqb k k0); [discriminate|]. intros H. cbn. by rewrite IH.
Qed.

(** Every identity envelope writes the registry under the current time,
    whatever the role and whoever the user is: at a time not used before,
    the registry grows by one record. *)
Lemma onPeerJoin_registry (u : value) (w : World) (m : Manager) :
  webrtc w = Some m ->
  peers (state (exec (App.webrtc_onPeerJoin u) w))
  = obj_set (decimal (now w)) {| peerUser := u; peerChannel := channel m |}
      (peers (state w)).
Proof.
  intros Hm. unfold exec, App.webrtc_onPeerJoin.
  erewrite run_bind by reflexivity.
  erewrite run_bind by (unfold WebRTCManager.this; rewrite Hm; reflexivity).
  erewrite run_bind by reflexivity.
  match goal with
  | |- context [snd (?rest ?w1)] =>
      assert (Hrest : keeps_state rest); [|rewrite (Hrest w1); reflexivity]
  end.
  unfold App.updatePeerCount, App.addSystemMessage.
  repeat first
    [ apply keeps_show | apply keeps_lift | apply keeps_broadcastMessage
    | (apply keeps_bind; [|intros ?]) | by intros ? ].
Qed.

Lemma onPeerJoin_grows (u : value) (w : World) (m : Manager) :
  webrtc w = Some m ->
  obj_get (decimal (now w)) (peers (state w)) = None ->
  length (peers (state (exec (App.webrtc_onPeerJoin u) w))) = S (length (peers (state w))).
Proof.
  intros Hm Hfresh. rewrite (onPeerJoin_registry u w m Hm).
  by apply obj_set_fresh_length.
Qed.

(** C3 fails on the code. The registry is keyed by the clock, not by the
    peer: the host of one guest receives Ann's identity envelope at time
    1730000000001 and again at time 1730000000002, and holds two records for her. *)
Theorem C3_identity_twice_two_records :
  peers (state (exec (at_time 1730000000001;; App.channel_message 0 (identity_frame Ann);;
                      at_time 1730000000002;; App.channel_message 0 (identity_frame Ann))
                     host_connected))
  = [("1730000000001", {| peerUser := Ann; peerChannel := Some 0 |});
     ("1730000000002", {| peerUser := Ann; peerChannel := Some 0 |})].
Proof. vm_compute. reflexivity. Qed.

(** C4 fails on the code. A guest whose host sends its identity twice (once
    on connect, once in answer to the guest's request) at times 1730000005001 and
    1730000005002 holds two entries. *)
Theorem C4_guest_registry_grows :
  appIsHost (state guest_connected) = false
  /\ peers (state (exec (at_time 1730000005001;; App.channel_message 0 (identity_frame Hal);;
                         at_time 1730000005002;; App.channel_message 0 (identity_frame Hal))
                        guest_connected))
     = [("1730000005001", {| peerUser := Hal; peerChannel := Some 0 |});
        ("1730000005002", {| peerUser := Hal; peerChannel := Some 0 |})].
Proof. split; vm_compute; reflexivity. Qed.

(** The same envelope twice within one millisecond overwrites. *)
Example identity_twice_same_millisecond :
  peers (state (exec (at_time 1730000000001;; App.channel_message 0 (identity_frame Ann);;
                      App.channel_message 0 (identity_frame Ann))
                     host_connected))
  = [("1730000000001", {| peerUser := Ann; peerChannel := Some 0 |})].
Proof. vm_compute. reflexivity. Qed.

(** The leave path looks the peer up under its user id, where the join path
    never put it: Ann's leave envelope removes nothing. *)
Example leave_finds_nobody :
  peers (state (exec (App.channel_message 0
                        (stringify (JObj (WebRTCManager.envelope "leave"
                                            (Some [("userId", JStr "u-ann")])))))
                     host_of_three))
  = peers (state host_of_three).
Proof. vm_compute. reflexivity. Qed.

(** * Further properties of the code *)

(** ** Steps of the platform and of the monad *)

Lemma alter_lookup_eq {A} (f : A -> A) (l : list A) (i : nat) (x : A) :
  l !! i = Some x -> alter f i l !! i = Some (f x).
Proof. intros H. rewrite list_lookup_alter, H. by rewrite decide_True. Qed.

Lemma this_spec (w : World) (m : Manager) :
  webrtc w = Some m -> WebRTCManager.this w = (Normal m, w).
Proof. intros Hm. unfold WebRTCManager.this. by rewrite Hm. Qed.

Lemma bind_assoc_M {A B C} (m : M A) (k : A -> M B) (h : B -> M C) (w : World) :
  ((m ≫= k) ≫= h) w = (m ≫= (fun a => k a ≫= h)) w.
Proof. unfold mbind, M_bind. by destruct (m w) as [[a|e] w']. Qed.

Lemma chan_send_spec (c : nat) (data : string) (w : World) (ch : Channel) :
  channels w !! c = Some ch -> readyState ch = open -> txFault ch = None ->
  chan_send c data w = (Normal tt, set_channels (alter (sent data) c) w).
Proof.
  intros Hch Hopen Hfault. unfold chan_send.
  erewrite run_bind by (unfold chan_get; rewrite Hch; reflexivity).
  by rewrite Hopen, Hfault.
Qed.

(** ** JSON: numbers *)

Lemma digits_value_pos (d : Decimal.uint) (p : positive) :
  digits_value d (Npos p) = Npos (Pos.of_uint_acc d p).
Proof.
  revert p. induction d; intros p; cbn [digits_value Pos.of_uint_acc];
    try reflexivity; rewrite <- IHd; f_equal; lia.
Qed.

Lemma digits_value_of_uint (d : Decimal.uint) : digits_value d 0 = Pos.of_uint d.
Proof.
  induction d; cbn [digits_value Pos.of_uint]; try reflexivity;
    try exact IHd; apply digits_value_pos.
Qed.

Lemma nzhead_not_D0 (d d' : Decimal.uint) : Decimal.nzhead d <> Decimal.D0 d'.
Proof. induction d; cbn; congruence. Qed.

Lemma to_uint_head (p : positive) :
  match Pos.to_uint p with
  | Decimal.Nil | Decimal.D0 _ => False
  | _ => True
  end.
Proof.
  pose proof (DecimalPos.Unsigned.to_of (Pos.to_uint p)) as H.
  rewrite DecimalPos.Unsigned.of_to in H. cbn [N.to_uint] in H.
  pose proof (DecimalPos.Unsigned.to_uint_nonzero p) as Hnz.
  pose proof (DecimalPos.Unsigned.to_uint_nonnil p) as Hnn.
  destruct (Pos.to_uint p) as [|d'| | | | | | | | |] eqn:E; try done.
  unfold Decimal.unorm in H. cbn [Decimal.nzhead] in H.
  destruct (Decimal.nzhead d') as [|u| | | | | | | | |] eqn:E'; try discriminate H.
  - injection H as ->. by apply Hnz.
  - by apply (nzhead_not_D0 d' u).
Qed.

Lemma parse_digits_uint (d : Decimal.uint) (rest : string) (acc : N) :
  continues_number rest = false ->
  parse_digits (NilEmpty.string_of_uint d +:+ rest) acc = (digits_value d acc, rest).
Proof.
  intros Hrest. revert acc.
  induction d; intros acc; cbn [NilEmpty.string_of_uint digits_value String.append];
    try (cbn [parse_digits];
         match goal with
         | |- context [digit_val ?c] =>
             let r := eval vm_compute in (digit_val c) in
             change (digit_val c) with r
         end;
         cbv beta iota; apply IHd).
  destruct rest as [|c r]; [reflexivity|].
  cbn [parse_digits]. unfold continues_number in Hrest.
  destruct (digit_val c); [discriminate|reflexivity].
Qed.


Lemma string_of_uint_head (d : Decimal.uint) :
  d <> Decimal.Nil ->
  exists c r, NilEmpty.string_of_uint d = String c r /\ c ∈ number_chars.
Proof.
  destruct d; [done|..]; intros _; cbn [NilEmpty.string_of_uint];
    eexists _, _; (split; [reflexivity|]); unfold number_chars; repeat constructor.
Qed.

Lemma decimal_head (n : Z) :
  exists c r, decimal n = String c r /\ c ∈ number_chars.
Proof.
  destruct n as [|p|p]; unfold decimal; cbn [Z.to_int NilZero.string_of_int].
  - eexists _, _. split; [reflexivity|]. unfold number_chars. repeat constructor.
  - unfold NilZero.string_of_uint.
    pose proof (DecimalPos.Unsigned.to_uint_nonnil p) as Hnn.
    destruct (string_of_uint_head _ Hnn) as (c & r & E & Hc).
    exists c, r. split; [|done]. by destruct (Pos.to_uint p).
  - eexists _, _. split; [reflexivity|]. unfold number_chars. repeat constructor.
Qed.

Lemma parse_number_decimal (n : Z) (rest : string) :
  continues_number rest = false ->
  parse_number (decimal n +:+ rest) = Some (JNum n, rest).
Proof.
  intros Hrest.
  assert (Hpos : forall p,
    parse_number (NilEmpty.string_of_uint (Pos.to_uint p) +:+ rest)
    = Some (JNum (Zpos p), rest)).
  { intros p. pose proof (to_uint_head p) as Hhead.
    pose proof (digits_value_of_uint (Pos.to_uint p)) as Hval.
    rewrite DecimalPos.Unsigned.of_to in Hval.
    destruct (Pos.to_uint p) as [|d|d|d|d|d|d|d|d|d|d]; try done;
      cbn [NilEmpty.string_of_uint String.append digits_value] in *;
      unfold parse_number;
      match goal with
      | |- context [Ascii.eqb ?c "-"] =>
          let r := eval vm_compute in (Ascii.eqb c "-") in
          change (Ascii.eqb c "-") with r
      end; cbv beta iota;
      match goal with
      | |- context [digit_val ?c] =>
          let r := eval vm_compute in (digit_val c) in
          change (digit_val c) with r
      end; cbv beta iota; cbn [N.eqb Pos.eqb];
      rewrite parse_digits_uint by done;
      change (10 * 0 + ?k)%N with k in Hval; rewrite Hval, Hrest; reflexivity. }
  destruct n as [|p|p]; unfold decimal; cbn [Z.to_int NilZero.string_of_int].
  - change (NilZero.string_of_uint Decimal.zero +:+ rest) with (String "0" rest).
    unfold parse_number.
    change (Ascii.eqb "0" "-") with false. cbv beta iota.
    change (digit_val "0") with (Some 0%N). cbv beta iota. cbn [N.eqb].
    by rewrite Hrest.
  - unfold NilZero.string_of_uint.
    pose proof (DecimalPos.Unsigned.to_uint_nonnil p) as Hnn.
    specialize (Hpos p). by destruct (Pos.to_uint p).
  - unfold NilZero.string_of_uint.
    pose proof (DecimalPos.Unsigned.to_uint_nonnil p) as Hnn.
    specialize (Hpos p).
    assert (Hs : forall s, parse_number (s +:+ rest) = Some (JNum (Z.pos p), rest) ->
              (exists c r, s = String c r /\ c ∈ number_chars /\ c <> "-"%char) ->
              parse_number (String "-" s +:+ rest) = Some (JNum (Z.neg p), rest)).
    { intros s Hs (c & r & -> & Hc & Hminus).
      cbn [String.append] in *. unfold parse_number in *.
      change (Ascii.eqb "-" "-") with true. cbv beta iota.
      destruct (Ascii.eqb_spec c "-") as [->|_]; [done|].
      cbv beta iota in Hs.
      destruct (digit_val c) as [d|]; [|discriminate].
      destruct (if (d =? 0)%N then (0%N, r +:+ rest) else parse_digits (r +:+ rest) d)
        as [m rest'].
      destruct (continues_number rest'); [discriminate|].
      injection Hs as Hm ->. f_equal. f_equal.
      destruct m; [discriminate Hm|]. cbn in Hm. injection Hm as ->. reflexivity. }
    pose proof (to_uint_head p) as Hhead.
    destruct (Pos.to_uint p) eqn:E; try done;
      apply Hs; try exact Hpos;
      cbn [NilEmpty.string_of_uint]; eexists _, _;
      (split; [reflexivity|]); (split; [unfold number_chars; repeat constructor | discriminate]).
Qed.


(** ** JSON: every well-formed value is read back *)

Section ValueInduction.
Variable P : value -> Prop.
Hypothesis Hundef : P JUndefined.
Hypothesis Hnull : P JNull.
Hypothesis Hbool : forall b, P (JBool b).
Hypothesis Hnum : forall n, P (JNum n).
Hypothesis Hstr : forall s, P (JStr s).
Hypothesis Harr : forall l, Forall P l -> P (JArr l).
Hypothesis Hobj : forall o, Forall (fun kv => P (snd kv)) o -> P (JObj o).

Fixpoint value_nested_ind (v : value) : P v :=
  match v with
  | JUndefined => Hundef
  | JNull => Hnull
  | JBool b => Hbool b
  | JNum n => Hnum n
  | JStr s => Hstr s
  | JArr l =>
      Harr l ((fix go (l : list value) : Forall P l :=
                 match l with
                 | [] => @List.Forall_nil _ P
                 | x :: l' => @List.Forall_cons _ P x l' (value_nested_ind x) (go l')
                 end) l)
  | JObj o =>
      Hobj o ((fix go (o : list (string * value)) : Forall (fun kv => P (snd kv)) o :=
                 match o with
                 | [] => @List.Forall_nil _ _
                 | kv :: o' =>
                     @List.Forall_cons _ (fun kv => P (snd kv)) kv o'
                       (value_nested_ind (snd kv)) (go o')
                 end) o)
  end.
End ValueInduction.

Lemma length_append (a b : string) :
  String.length (a +:+ b) = String.length a + String.length b.
Proof. induction a as [|c a IH]; cbn; [reflexivity | by rewrite IH]. Qed.

Lemma stringify_arr (l : list value) :
  stringify (JArr l) = "[" +:+ String.concat "," (map stringify l) +:+ "]".
Proof.
  reflexivity.
Qed.

Lemma stringify_obj (o : list (string * value)) :
  forallb (fun kv => wf_json (snd kv)) o = true ->
  stringify (JObj o) = "{" +:+ String.concat "," (map member_text o) +:+ "}".
Proof.
  intros Hwf. cbn [stringify]. do 3 f_equal.
  induction o as [|[k x] o IH]; [reflexivity|].
  cbn [forallb snd] in Hwf. apply andb_true_iff in Hwf as [Hx Ho].
  cbn [map]. rewrite IH by done. unfold member_text at 2. cbn [fst snd].
  by destruct x.
Qed.

(** The first character of a JSON text: never white space, never a closing
    bracket. *)
Lemma stringify_head (v : value) :
  exists c r, stringify v = String c r
    /\ is_ws c = false /\ Ascii.eqb c "]" = false /\ Ascii.eqb c "}" = false.
Proof.
  destruct v as [| |[]|n|s|l|o]; try (eexists _, _; split; [reflexivity|done]).
  destruct (decimal_head n) as (c & r & E & Hc).
  exists c, r. split; [exact E|].
  unfold number_chars in Hc.
  repeat (apply elem_of_cons in Hc as [->|Hc]; [done|]).
  by apply elem_of_nil in Hc.
Qed.

Lemma stringify_length (v : value) : 1 <= String.length (stringify v).
Proof.
  destruct (stringify_head v) as (c & r & -> & _). cbn. lia.
Qed.

(** [v] is read back from its text, whatever follows, with as much fuel as
    the text is long. *)
Definition reads_back (v : value) : Prop :=
  forall fuel rest,
    String.length (stringify v) <= fuel ->
    continues_number rest = false ->
    parse_value fuel (stringify v +:+ rest) = Some (v, rest).

Lemma concat_cons (sep x : string) (y : string) (l : list string) :
  String.concat sep (x :: y :: l) = x +:+ sep +:+ String.concat sep (y :: l).
Proof. reflexivity. Qed.

Lemma skip_ws_text (v : value) (rest : string) :
  skip_ws (stringify v +:+ rest) = stringify v +:+ rest.
Proof.
  destruct (stringify_head v) as (c & r & -> & Hws & _).
  cbn [String.append]. by apply skip_ws_nonws.
Qed.

Lemma parse_elements_text (l : list value) :
  Forall reads_back l -> l <> [] ->
  forall acc fuel rest,
    1 + String.length (String.concat "," (map stringify l)) <= fuel ->
    parse_elements fuel (String.concat "," (map stringify l) +:+ String "]" rest) acc
    = Some (JArr (acc ++ l), rest).
Proof.
  induction 1 as [|x l Hx Hl IH]; [done|]. intros _ acc fuel rest Hfuel.
  destruct fuel as [|fuel]; [lia|]. cbn [parse_elements].
  destruct l as [|y l].
  - cbn [map String.concat] in *.
    rewrite Hx by (done || lia).
    rewrite skip_ws_nonws by reflexivity. char_tests. reflexivity.
  - cbn [map] in *. rewrite concat_cons in *.
    rewrite !length_append in Hfuel. cbn [String.length] in Hfuel.
    pose proof (stringify_length x).
    rewrite !append_assoc. rewrite Hx by (done || lia).
    cbn [String.append]. rewrite skip_ws_nonws by reflexivity. char_tests.
    rewrite IH by (done || lia). by rewrite <- app_assoc.
Qed.

Lemma obj_set_fresh {A} (k : string) (v : A) (o : list (string * A)) :
  k ∉ map fst o -> obj_set k v o = o ++ [(k, v)].
Proof.
  induction o as [|[k0 v0] o IH]; cbn; [done|]. intros Hk.
  destruct (String.eqb_spec k k0) as [->|_].
  - exfalso. apply Hk. left.
  - rewrite IH; [done|]. intros Hin. apply Hk. by right.
Qed.

Lemma member_text_layout (k : string) (x : value) (tail : string) :
  member_text (k, x) +:+ tail
  = String DQ (escape k +:+ String DQ (String ":" (stringify x +:+ tail))).
Proof.
  unfold member_text, quote. cbn [fst snd String.append].
  rewrite !append_assoc. cbn [String.append]. reflexivity.
Qed.

Lemma member_text_length (k : string) (x : value) :
  String.length (stringify x) + 3 <= String.length (member_text (k, x)).
Proof.
  unfold member_text, quote. cbn [fst snd].
  rewrite !length_append. cbn [String.length]. rewrite !length_append.
  cbn [String.length]. lia.
Qed.

Lemma parse_members_text (o : list (string * value)) :
  Forall (fun kv => reads_back (snd kv)) o -> o <> [] ->
  forall acc fuel rest,
    NoDup (map fst (acc ++ o)) ->
    1 + String.length (String.concat "," (map member_text o)) <= fuel ->
    parse_members fuel (String.concat "," (map member_text o) +:+ String "}" rest) acc
    = Some (JObj (acc ++ o), rest).
Proof.
  induction 1 as [|[k x] o Hx Ho IH]; [done|]. intros _ acc fuel rest Hnd Hfuel.
  assert (Hk : k ∉ map fst acc).
  { rewrite map_app in Hnd. apply NoDup_app in Hnd as (_ & Hdisj & _).
    intros Hin. apply (Hdisj k Hin). left. }
  destruct fuel as [|fuel]; [lia|]. cbn [parse_members snd] in *.
  pose proof (member_text_length k x) as Hlen.
  destruct o as [|kv o].
  - cbn [map String.concat] in *.
    rewrite member_text_layout.
    rewrite skip_ws_nonws by reflexivity. char_tests.
    rewrite parse_chars_quote. rewrite skip_ws_nonws by reflexivity. char_tests.
    rewrite Hx by (done || lia).
    rewrite skip_ws_nonws by reflexivity. char_tests.
    by rewrite obj_set_fresh.
  - cbn [map] in *. rewrite concat_cons in *.
    rewrite !length_append in Hfuel. cbn [String.length] in Hfuel.
    rewrite !append_assoc. rewrite member_text_layout.
    rewrite skip_ws_nonws by reflexivity. char_tests.
    rewrite parse_chars_quote. rewrite skip_ws_nonws by reflexivity. char_tests.
    rewrite Hx by (done || lia).
    cbn [String.append]. rewrite skip_ws_nonws by reflexivity. char_tests.
    rewrite obj_set_fresh by done.
    rewrite IH; [by rewrite <- app_assoc|done| |lia].
    by rewrite <- app_assoc.
Qed.

Lemma reads_back_wf (v : value) : wf_json v = true -> reads_back v.
Proof.
  induction v as [| |b|n|s|l IH|o IH] using value_nested_ind;
    intros Hwf fuel rest Hfuel Hrest; try discriminate Hwf.
  - destruct fuel as [|fuel]; [cbn in Hfuel; lia|].
    cbn [stringify String.append parse_value].
    rewrite skip_ws_nonws by reflexivity. char_tests. reflexivity.
  - destruct fuel as [|fuel]; [destruct b; cbn in Hfuel; lia|].
    destruct b; cbn [stringify String.append parse_value];
      rewrite skip_ws_nonws by reflexivity; char_tests; reflexivity.
  - destruct fuel as [|fuel]; [pose proof (stringify_length (JNum n)); lia|].
    pose proof (parse_number_decimal n rest Hrest) as Hpn.
    destruct (decimal_head n) as (c & r & E & Hc).
    cbn [stringify]. unfold decimal in *. rewrite E in *.
    cbn [String.append parse_value] in *.
    unfold number_chars in Hc.
    repeat (apply elem_of_cons in Hc as [->|Hc];
            [rewrite skip_ws_nonws by reflexivity; char_tests; exact Hpn|]).
    by apply elem_of_nil in Hc.
  - destruct fuel as [|fuel]; [cbn in Hfuel; lia|].
    cbn [stringify]. unfold quote. cbn [String.append].
    rewrite append_assoc. cbn [String.append]. apply parse_value_quote.
  - assert (Hl : Forall reads_back l).
    { cbn [wf_json] in Hwf. rewrite forallb_forall in Hwf.
      apply Forall_forall. intros x Hx.
      apply (proj1 (Forall_forall _ _) IH x Hx), Hwf, list_elem_of_In, Hx. }
    rewrite stringify_arr in *. cbn [String.append] in *.
    destruct fuel as [|fuel]; [cbn in Hfuel; lia|].
    cbn [parse_value]. rewrite skip_ws_nonws by reflexivity. char_tests.
    rewrite append_assoc. cbn [String.append].
    destruct l as [|x l].
    + cbn [map String.concat String.append].
      rewrite skip_ws_nonws by reflexivity. char_tests. reflexivity.
    + cbn [String.length] in Hfuel. rewrite length_append in Hfuel.
      cbn [String.length] in Hfuel.
      rewrite (parse_elements_text (x :: l) Hl ltac:(done) [] fuel rest) by lia.
      cbn [map]. destruct (map stringify l) as [|t ts].
      * cbn [String.concat]. rewrite skip_ws_text. 
        destruct (stringify_head x) as (c & r & -> & _ & Hc & _).
        cbn [String.append]. by rewrite Hc.
      * rewrite concat_cons, append_assoc, skip_ws_text.
        destruct (stringify_head x) as (c & r & -> & _ & Hc & _).
        cbn [String.append]. by rewrite Hc.
  - cbn [wf_json] in Hwf. apply andb_true_iff in Hwf as [Hnd Hwf].
    apply bool_decide_eq_true in Hnd.
    assert (Ho : Forall (fun kv => reads_back (snd kv)) o).
    { rewrite forallb_forall in Hwf.
      apply Forall_forall. intros kv Hkv.
      apply (proj1 (Forall_forall _ _) IH kv Hkv), Hwf, list_elem_of_In, Hkv. }
    rewrite stringify_obj in * by done. cbn [String.append] in *.
    destruct fuel as [|fuel]; [cbn in Hfuel; lia|].
    cbn [parse_value]. rewrite skip_ws_nonws by reflexivity. char_tests.
    rewrite append_assoc. cbn [String.append].
    destruct o as [|[k x] o].
    + cbn [map String.concat String.append].
      rewrite skip_ws_nonws by reflexivity. char_tests. reflexivity.
    + cbn [String.length] in Hfuel. rewrite length_append in Hfuel.
      cbn [String.length] in Hfuel.
      rewrite (parse_members_text ((k, x) :: o) Ho ltac:(done) [] fuel rest) by (done || lia).
      cbn [map]. destruct (map member_text o) as [|t ts].
      * cbn [String.concat]. rewrite member_text_layout.
        rewrite skip_ws_nonws by reflexivity. char_tests. reflexivity.
      * rewrite concat_cons, append_assoc, member_text_layout.
        rewrite skip_ws_nonws by reflexivity. char_tests. reflexivity.
Qed.


Lemma append_empty_r (s : string) : s +:+ "" = s.
Proof. induction s as [|c s IH]; cbn; [reflexivity | by rewrite IH]. Qed.

Lemma JSON_parse_stringify (v : value) :
  wf_json v = true -> JSON_parse (stringify v) = Normal v.
Proof.
  intros Hwf. unfold JSON_parse.
  pose proof (reads_back_wf v Hwf (S (String.length (stringify v))) ""
                ltac:(lia) eq_refl) as H.
  rewrite append_empty_r in H. by rewrite H.
Qed.

(** X1. [JSON.parse(JSON.stringify(v))] is [v] for every value that holds no
    [undefined] and whose objects have distinct keys: strings with
    characters to escape, integers of either sign, nested arrays and
    objects included. *)
Theorem json_roundtrip (v : value) :
  wf_json v = true -> JSON_parse (stringify v) = Normal v.
Proof. apply JSON_parse_stringify. Qed.

Lemma json_roundtrip_witness : JSON_parse (stringify sample_value) = Normal sample_value.
Proof. apply (json_roundtrip sample_value). vm_compute. reflexivity. Defined.

(** ** The codec and the wire, for every value *)

(** X2. The token codec gives back every JSON value it is given, not only
    descriptors: [decompressDescription(compressDescription(v))] is [v] for
    every well-formed [v] ([null], the local description before it is set,
    included), with lz-string loaded and lossless or absent. *)
Theorem codec_roundtrip_any_value (lz : option LZ) (v : value) :
  lossless lz -> wf_json v = true ->
  exists token,
    WebRTCManager.compressDescription lz v = Some token /\
    WebRTCManager.decompressDescription lz token = Normal v.
Proof.
  intros Hlz Hwf.
  assert (Hs : JSON_stringify v = Some (stringify v)) by (by destruct v).
  unfold WebRTCManager.compressDescription, WebRTCManager.decompressDescription.
  rewrite Hs. destruct lz as [codec|]; eexists; (split; [reflexivity|]).
  - rewrite (Hlz codec eq_refl). by apply JSON_parse_stringify.
  - by apply JSON_parse_stringify.
Qed.

Lemma codec_roundtrip_any_value_witness :
  exists token,
    WebRTCManager.compressDescription (Some marker_codec) JNull = Some token /\
    WebRTCManager.decompressDescription (Some marker_codec) token = Normal JNull.
Proof.
  apply (codec_roundtrip_any_value (Some marker_codec) JNull).
  - intros codec Hc text. injection Hc as <-. reflexivity.
  - reflexivity.
Defined.

Lemma obj_set_keys_elem {A} (x k : string) (v : A) (o : list (string * A)) :
  x ∈ map fst (obj_set k v o) <-> x = k \/ x ∈ map fst o.
Proof.
  induction o as [|[k0 v0] o IH]; cbn.
  - rewrite list_elem_of_singleton. split; [by left | intros [?|H]; [done|]].
    by apply elem_of_nil in H.
  - destruct (String.eqb_spec k k0) as [->|Hne]; cbn; rewrite !elem_of_cons.
    + tauto.
    + rewrite IH. tauto.
Qed.

Lemma obj_set_NoDup {A} (k : string) (v : A) (o : list (string * A)) :
  NoDup (map fst o) -> NoDup (map fst (obj_set k v o)).
Proof.
  induction o as [|[k0 v0] o IH]; cbn; intros Hnd.
  - apply NoDup_singleton.
  - apply NoDup_cons in Hnd as [Hk0 Hnd].
    destruct (String.eqb_spec k k0) as [->|Hne]; cbn; apply NoDup_cons.
    + done.
    + split; [|by apply IH]. rewrite obj_set_keys_elem. intros [?|?]; congruence.
Qed.

Lemma obj_set_wf (k : string) (v : value) (o : object) :
  wf_json v = true ->
  forallb (fun kv => wf_json (snd kv)) o = true ->
  forallb (fun kv => wf_json (snd kv)) (obj_set k v o) = true.
Proof.
  intros Hv. induction o as [|[k0 v0] o IH]; cbn; [by rewrite Hv|].
  intros [H0 Ho]%andb_true_iff.
  destruct (String.eqb k k0); cbn; [by rewrite Hv, Ho | by rewrite H0, IH].
Qed.

Lemma obj_spread_wf (a b : object) :
  wf_json (JObj a) = true -> forallb (fun kv => wf_json (snd kv)) b = true ->
  wf_json (JObj (obj_spread a b)) = true.
Proof.
  unfold obj_spread. revert a. induction b as [|[k v] b IH]; intros a Ha Hb; [done|].
  cbn [forallb snd] in Hb. apply andb_true_iff in Hb as [Hv Hb].
  cbn [foldl fst snd]. apply IH; [|done].
  cbn [wf_json] in *. apply andb_true_iff in Ha as [Hnd Ha].
  apply bool_decide_eq_true in Hnd.
  apply andb_true_iff. split; [|by apply obj_set_wf].
  apply bool_decide_eq_true. by apply obj_set_NoDup.
Qed.

Lemma envelope_wf (type : string) (payload : object) :
  forallb (fun kv => wf_json (snd kv)) payload = true ->
  wf_json (JObj (WebRTCManager.envelope type (Some payload))) = true.
Proof. intros Hp. unfold WebRTCManager.envelope. by apply obj_spread_wf. Qed.

Lemma spread_onto_type (payload rest : object) (t : value) :
  NoDup (obj_keys payload) ->
  (forall k, k ∈ obj_keys payload -> k ∉ obj_keys rest) ->
  "type" ∉ obj_keys rest ->
  obj_spread (("type", t) :: rest) payload
  = ("type", default t (obj_get "type" payload))
    :: rest ++ List.filter (fun kv => negb (String.eqb (fst kv) "type")) payload.
Proof.
  unfold obj_spread. revert rest t.
  induction payload as [|[k v] b IH]; intros rest t Hnd Hdisj Htype.
  - cbn. by rewrite app_nil_r.
  - cbn [obj_keys map fst] in Hnd. apply NoDup_cons in Hnd as [Hk Hnd].
    cbn [foldl fst snd obj_set obj_get List.filter].
    destruct (String.eqb_spec k "type") as [->|Hne].
    + cbn [String.eqb Ascii.eqb Bool.eqb andb negb].
      rewrite (IH rest v Hnd); [|intros k' Hk'; apply Hdisj; by right|done].
      by rewrite (obj_get_absent "type" b Hk).
    + assert (Hfresh : k ∉ obj_keys rest) by (apply Hdisj; left).
      rewrite (obj_set_fresh k v rest Hfresh).
      rewrite (IH (rest ++ [(k, v)]) t Hnd).
      * destruct (String.eqb_spec "type" k) as [Heq|_]; [by subst k|].
        cbn [negb]. by rewrite <- app_assoc.
      * intros k' Hk'. unfold obj_keys. rewrite map_app, elem_of_app. cbn.
        intros [Hin|Hin%list_elem_of_singleton]; [|by subst k'].
        by apply (Hdisj k'); [right|].
      * unfold obj_keys. rewrite map_app, elem_of_app. cbn.
        intros [Hin|Hin%list_elem_of_singleton]; [done|by subst k].
Qed.

(** C10. Envelope construction by payload spread: on an open channel whose
    transport takes the frame, [send(type, payload)] transmits the JSON text
    of the object [{type, ...payload}].  That object has [type] first and
    then the payload's other properties, each with the payload's value, in
    the payload's order, and nothing else; its [type] field is the [type]
    argument when the payload has no key named type, and is the payload's
    own value for that key when it has one.  When no payload value is or
    holds [undefined], parsing the transmitted text gives that object
    back, so the receiver reads that same [type]. *)
Theorem C10_envelope_type (w : World) (m : Manager) (c : nat) (ch : Channel)
    (type : string) (payload : object) :
  webrtc w = Some m -> channel m = Some c -> channels w !! c = Some ch ->
  readyState ch = open -> txFault ch = None ->
  NoDup (obj_keys payload) ->
  let frame := WebRTCManager.envelope type (Some payload) in
  let wire := stringify (JObj frame) in
  WebRTCManager.send type (Some payload) w =
    (Normal true, set_channels (alter (sent wire) c) w)
  /\ (obj_get "type" payload = None -> obj_get "type" frame = Some (JStr type))
  /\ (forall v, obj_get "type" payload = Some v -> obj_get "type" frame = Some v)
  /\ (forall k, k <> "type" -> obj_get k frame = obj_get k payload)
  /\ frame
     = ("type", default (JStr type) (obj_get "type" payload))
       :: List.filter (fun kv => negb (String.eqb (fst kv) "type")) payload
  /\ (channels (exec (WebRTCManager.send type (Some payload)) w) !! c
      = Some (sent wire ch))
  /\ (forallb (fun kv => wf_json (snd kv)) payload = true ->
      JSON_parse wire = Normal (JObj frame)
      /\ match JSON_parse wire with
         | Normal msg => get_prop msg "type"
         | Throw e => Throw e
         end = Normal (default (JStr type) (obj_get "type" payload))).
Proof.
  intros Hm Hc Hch Hrs Htx Hnd frame wire.
  assert (Hsend : WebRTCManager.send type (Some payload) w
                  = (Normal true, set_channels (alter (sent wire) c) w))
    by (by apply (send_accepted w m type (Some payload) Hm c ch)).
  assert (Hframe : frame
                   = ("type", default (JStr type) (obj_get "type" payload))
                     :: List.filter (fun kv => negb (String.eqb (fst kv) "type")) payload).
  { unfold frame, WebRTCManager.envelope. cbn [default from_option].
    change (id payload) with payload.
    rewrite (spread_onto_type payload [] (JStr type) Hnd); [done| |];
      intros; apply not_elem_of_nil. }
  assert (Hget : forall k, obj_get k frame
                           = match obj_get k payload with
                             | Some v => Some v
                             | None => obj_get k [("type", JStr type)]
                             end).
  { intros k. unfold frame, WebRTCManager.envelope. cbn [default from_option].
    change (id payload) with payload. by apply obj_get_spread. }
  split; [exact Hsend|].
  split. { intros Hnone. by rewrite Hget, Hnone. }
  split. { intros v Hv. by rewrite Hget, Hv. }
  split. { intros k Hk. rewrite Hget. destruct (obj_get k payload); [done|].
           cbn. by destruct (String.eqb_spec k "type"). }
  split; [exact Hframe|].
  split. { unfold exec. rewrite Hsend. cbn [snd set_channels channels].
           rewrite list_lookup_alter, Hch. by rewrite decide_True by done. }
  intros Hwf.
  assert (Hparse : JSON_parse wire = Normal (JObj frame))
    by apply (JSON_parse_stringify _ (envelope_wf type payload Hwf)).
  split; [exact Hparse|]. rewrite Hparse, Hframe. reflexivity.
Qed.

Lemma keys_text_type_distinct : NoDup (obj_keys [("text", JStr "hi"); ("type", JStr "kick")]).
Proof.
  cbn. apply NoDup_cons. split.
  - intros Hin. apply list_elem_of_singleton in Hin. discriminate.
  - apply NoDup_singleton.
Qed.

Lemma C10_envelope_type_witness :
  WebRTCManager.envelope "chat" (Some [("text", JStr "hi"); ("type", JStr "kick")])
  = [("type", JStr "kick"); ("text", JStr "hi")]
  /\ match JSON_parse
            (stringify (JObj (WebRTCManager.envelope "chat"
                                (Some [("text", JStr "hi"); ("type", JStr "kick")])))) with
     | Normal msg => get_prop msg "type"
     | Throw e => Throw e
     end = Normal (JStr "kick").
Proof.
  destruct (C10_envelope_type host_connected host_manager 0 host_channel
              "chat" [("text", JStr "hi"); ("type", JStr "kick")]
              eq_refl eq_refl eq_refl eq_refl eq_refl keys_text_type_distinct)
    as (_ & _ & _ & _ & Hframe & _ & Hwire).
  split; [exact Hframe|]. exact (proj2 (Hwire eq_refl)).
Defined.

(** X3. What [send(type, payload)] puts on the wire is, on the receiving
    side, handed to [handleMessage] as the very object [{type, ...payload}]:
    [onmessage] of the transmitted text behaves as [handleMessage] of the
    envelope, provided no payload value is or holds [undefined]. *)
Theorem frame_delivery (cbs : Callbacks) (type : string) (payload : object) :
  forallb (fun kv => wf_json (snd kv)) payload = true ->
  WebRTCManager.onmessage cbs
    (stringify (JObj (WebRTCManager.envelope type (Some payload))))
  = WebRTCManager.handleMessage cbs (JObj (WebRTCManager.envelope type (Some payload))).
Proof.
  intros Hp. unfold WebRTCManager.onmessage.
  rewrite (JSON_parse_stringify _ (envelope_wf type payload Hp)). reflexivity.
Qed.

Lemma frame_delivery_witness :
  WebRTCManager.onmessage App.handlers (chat_frame Ann "hi")
  = WebRTCManager.handleMessage App.handlers
      (JObj [("type", JStr "chat"); ("text", JStr "hi"); ("user", Ann)]).
Proof.
  exact (frame_delivery App.handlers "chat" [("text", JStr "hi"); ("user", Ann)] eq_refl).
Defined.


(** ** StateManager: subscribing and unsubscribing *)

Lemma indexOf_last_fresh (cb : Callback) (cbs : list Callback) :
  cbId cb ∉ cbId <$> cbs ->
  StateManager.indexOf (cbId cb) (cbs ++ [cb]) = Some (length cbs).
Proof.
  intros Hnot. rewrite indexOf_app by done. cbn. rewrite Nat.eqb_refl. cbn.
  f_equal. lia.
Qed.

Lemma delete_last {A} (l : list A) (x : A) : delete (length l) (l ++ [x]) = l.
Proof. induction l as [|y l IH]; cbn; [reflexivity | f_equal; apply IH]. Qed.

Lemma obj_set_same {A} (k : string) (v v' : A) (o : list (string * A)) :
  obj_set k v (obj_set k v' o) = obj_set k v o.
Proof.
  induction o as [|[k0 v0] o IH]; cbn.
  - by rewrite String.eqb_refl.
  - destruct (String.eqb k k0) eqn:E; cbn; rewrite E; [reflexivity | by rewrite IH].
Qed.

Lemma obj_set_id {A} (k : string) (v : A) (o : list (string * A)) :
  obj_get k o = Some v -> obj_set k v o = o.
Proof.
  induction o as [|[k0 v0] o IH]; cbn; [done|].
  destruct (String.eqb k k0); [by intros [= ->] | intros H; by rewrite IH].
Qed.

(** X4. Subscribing a callback and then calling the unsubscribe function
    that [on] returned gives back the listener list the event had: for a
    callback not yet registered for the event, [off] after [on] restores
    the event's array (an event without array gets an empty one), and
    touches neither the other events, nor the state, nor the call record. *)
Theorem on_off_roundtrip (event : string) (cb : Callback) (st : Store) :
  cbId cb ∉ cbId <$> default [] (obj_get event (listeners st)) ->
  let st' := StateManager.off event (cbId cb) (StateManager.on event cb st) in
  obj_get event (listeners st') = Some (default [] (obj_get event (listeners st)))
  /\ (forall e, e <> event -> obj_get e (listeners st') = obj_get e (listeners st))
  /\ (is_Some (obj_get event (listeners st)) -> st' = st)
  /\ sstate st' = sstate st /\ invoked st' = invoked st.
Proof.
  intros Hfresh st'. subst st'. unfold StateManager.on, StateManager.off.
  cbn [listeners StateManager.with_listeners].
  destruct (obj_get event (listeners st)) as [cbs|] eqn:Hget.
  - cbn [default from_option] in *. change (id cbs) with cbs in *.
    rewrite Hget. cbn [default from_option]. change (id cbs) with cbs.
    rewrite obj_get_set, String.eqb_refl.
    rewrite indexOf_last_fresh by done. cbn [listeners StateManager.with_listeners].
    rewrite delete_last, obj_set_same.
    split; [by rewrite obj_get_set, String.eqb_refl|].
    split. { intros e He. rewrite obj_get_set. by destruct (String.eqb_spec e event). }
    split; [|done]. intros _. rewrite (obj_set_id event cbs) by done. by destruct st.
  - cbn [default from_option] in *.
    rewrite !obj_get_set, !String.eqb_refl. cbn [default from_option app].
    change (id []) with (@nil Callback).
    cbn [StateManager.indexOf app]. rewrite Nat.eqb_refl.
    cbn [listeners StateManager.with_listeners delete list_delete].
    rewrite !obj_set_same.
    split; [by rewrite obj_get_set, String.eqb_refl|].
    split. { intros e He. rewrite obj_get_set. by destruct (String.eqb_spec e event). }
    split; [|done]. by intros [? ?].
Qed.

Lemma on_off_roundtrip_witness :
  StateManager.off "update" 7 (StateManager.on "update" (Fn 7 []) observed_store)
  = observed_store.
Proof.
  refine (proj1 (proj2 (proj2 (on_off_roundtrip "update" (Fn 7 []) observed_store _))) _).
  - vm_compute. intros H.
    repeat (apply elem_of_cons in H as [H|H]; [discriminate H|]).
    by apply elem_of_nil in H.
  - vm_compute. eauto.
Defined.

(** X5. Unsubscribing what is not subscribed changes nothing: [off] for an
    event that has no listener array, or for a callback that is not in the
    event's array, returns the store as it was. *)
Theorem off_unregistered (event : string) (target : nat) (st : Store) :
  target ∉ cbId <$> default [] (obj_get event (listeners st)) ->
  StateManager.off event target st = st.
Proof.
  intros Hnot. unfold StateManager.off.
  destruct (obj_get event (listeners st)) as [cbs|]; [|done].
  by rewrite indexOf_absent.
Qed.

Lemma off_unregistered_witness :
  StateManager.off "update" 9 observed_store = observed_store
  /\ StateManager.off "error:change" 1 observed_store = observed_store.
Proof.
  split; apply off_unregistered; vm_compute; intros H;
    repeat (apply elem_of_cons in H as [H|H]; [discriminate H|]);
    by apply elem_of_nil in H.
Defined.

(** ** StateManager: setState *)

Lemma sstate_on (e : string) (cb : Callback) (st : Store) :
  sstate (StateManager.on e cb st) = sstate st.
Proof. reflexivity. Qed.

Lemma sstate_off (e : string) (target : nat) (st : Store) :
  sstate (StateManager.off e target st) = sstate st.
Proof.
  unfold StateManager.off. destruct (obj_get e (listeners st)); [|done].
  by destruct (StateManager.indexOf target l).
Qed.

Lemma sstate_run (calls : list BusCall) (st : Store) :
  sstate (snd (StateManager.run calls st)) = sstate st.
Proof.
  revert st. induction calls as [|[e t|e cb|err] calls IH]; intros st; cbn; [done|..|done];
    rewrite IH; [apply sstate_off | apply sstate_on].
Qed.

Lemma sstate_forEach_from (e : string) (remaining k : nat) (st : Store) :
  sstate (snd (StateManager.forEach_from e k remaining st)) = sstate st.
Proof.
  revert k st. induction remaining as [|n IH]; intros k st; cbn; [done|].
  destruct (default [] (obj_get e (listeners st)) !! k) as [cb|]; [|apply IH].
  pose proof (sstate_run (body cb)
                {| sstate := sstate st; listeners := listeners st;
                   invoked := invoked st ++ [(cbId cb, e)] |}) as Hrun.
  unfold StateManager.call.
  destruct (StateManager.run (body cb) _) as [[[]|err] st1]; cbn in *; [|done].
  by rewrite IH.
Qed.

Lemma sstate_emit (e : string) (st : Store) :
  sstate (snd (StateManager.emit e st)) = sstate st.
Proof.
  unfold StateManager.emit. destruct (obj_get e (listeners st)); [|done].
  apply sstate_forEach_from.
Qed.

Lemma sstate_emit_changes (keys : list string) (st : Store) :
  sstate (snd (StateManager.emit_changes keys st)) = sstate st.
Proof.
  revert st. induction keys as [|k keys IH]; intros st; cbn; [done|].
  pose proof (sstate_emit (k +:+ ":change") st) as Hemit.
  destruct (StateManager.emit _ st) as [[[]|err] st1]; cbn in *; [|done].
  by rewrite IH.
Qed.

Lemma sstate_setState (updates : object) (event : string) (st : Store) :
  sstate (snd (StateManager.setState updates event st))
  = obj_spread (obj_spread [] (sstate st)) updates.
Proof.
  unfold StateManager.setState.
  set (st1 := {| sstate := _; listeners := listeners st; invoked := invoked st |}).
  pose proof (sstate_emit event st1) as Hemit.
  destruct (StateManager.emit event st1) as [[[]|err] st2]; cbn in *; [|done].
  by rewrite sstate_emit_changes.
Qed.

Lemma obj_spread_NoDup {A} (a b : list (string * A)) :
  NoDup (map fst a) -> NoDup (map fst (obj_spread a b)).
Proof.
  unfold obj_spread. revert a. induction b as [|[k v] b IH]; intros a Ha; [done|].
  cbn [foldl]. apply IH. by apply obj_set_NoDup.
Qed.

(** X6. [setState] merges: afterwards every key reads the value given in
    [updates] if [updates] has the key, and its previous value otherwise,
    whatever the listeners subscribe or unsubscribe while they are
    notified, and also when one of them throws; and the state object it
    leaves has distinct keys, whatever it was given. *)
Theorem setState_merges (updates : object) (event : string) (st : Store) :
  NoDup (obj_keys updates) -> NoDup (obj_keys (sstate st)) ->
  (forall k,
     obj_get k (sstate (snd (StateManager.setState updates event st)))
     = match obj_get k updates with
       | Some v => Some v
       | None => obj_get k (sstate st)
       end)
  /\ NoDup (obj_keys (sstate (snd (StateManager.setState updates event st))))
  /\ NoDup (obj_keys (StateManager.getState
                        (snd (StateManager.setState updates event st)))).
Proof.
  intros Hu Hs. rewrite sstate_setState. split; [|split].
  - intros k. rewrite !obj_get_spread by done.
    destruct (obj_get k updates); [done|]. by destruct (obj_get k (sstate st)).
  - apply obj_spread_NoDup, obj_spread_NoDup, NoDup_nil_2.
  - apply obj_spread_NoDup, NoDup_nil_2.
Qed.

Lemma setState_merges_witness :
  obj_get "isHost"
    (sstate (snd (StateManager.setState [("isHost", JBool true)] "update" observed_store)))
  = Some (JBool true)
  /\ obj_get "user"
       (sstate (snd (StateManager.setState [("isHost", JBool true)] "update"
                       observed_store)))
     = Some JNull.
Proof.
  assert (Hu : NoDup (obj_keys [("isHost", JBool true)])) by apply NoDup_singleton.
  assert (Hs : NoDup (obj_keys (sstate observed_store))).
  { cbn. apply NoDup_cons. split; [|apply NoDup_singleton].
    intros H. apply list_elem_of_singleton in H. discriminate H. }
  destruct (setState_merges [("isHost", JBool true)] "update" observed_store Hu Hs)
    as [Hget _].
  split; rewrite Hget; reflexivity.
Defined.


Lemma obj_get_elem {A} (k : string) (v : A) (o : list (string * A)) :
  obj_get k o = Some v -> (k, v) ∈ o.
Proof.
  induction o as [|[k0 v0] o IH]; cbn; [done|].
  destruct (String.eqb_spec k k0) as [->|]; intros H.
  - injection H as ->. left.
  - right. by apply IH.
Qed.

Lemma passive_bodies (st : Store) (e : string) (cbs : list Callback) :
  passive st -> obj_get e (listeners st) = Some cbs ->
  Forall (fun cb => body cb = []) cbs.
Proof.
  intros Hp Hget. apply obj_get_elem in Hget.
  unfold passive in Hp. rewrite Forall_forall in Hp. apply (Hp _ Hget).
Qed.

Lemma forEach_passive (e : string) (cbs : list Callback) :
  Forall (fun cb => body cb = []) cbs ->
  forall (n k : nat) (st : Store),
    obj_get e (listeners st) = Some cbs -> k + n = length cbs ->
    StateManager.forEach_from e k n st
    = (Normal tt,
       {| sstate := sstate st; listeners := listeners st;
          invoked := invoked st ++ ((fun cb => (cbId cb, e)) <$> drop k cbs) |}).
Proof.
  intros Hb. induction n as [|n IH]; intros k st Hget Hlen.
  - cbn. rewrite drop_ge by lia. cbn. rewrite app_nil_r. by destruct st.
  - cbn [StateManager.forEach_from]. rewrite Hget. cbn [default].
    destruct (lookup_lt_is_Some_2 cbs k) as [cb Hcb]; [lia|].
    change (id cbs !! k) with (cbs !! k). rewrite Hcb.
    assert (Hbody : body cb = []).
    { rewrite Forall_forall in Hb. apply Hb. by eapply list_elem_of_lookup_2. }
    unfold StateManager.call. rewrite Hbody. cbn [StateManager.run].
    rewrite IH by (cbn; first [done | lia]). cbn.
    rewrite (drop_S _ _ _ Hcb). cbn. by rewrite <- app_assoc.
Qed.

Lemma emit_passive (e : string) (st : Store) :
  passive st ->
  StateManager.emit e st
  = (Normal tt,
     {| sstate := sstate st; listeners := listeners st;
        invoked := invoked st ++ notified st e |}).
Proof.
  intros Hp. unfold StateManager.emit, notified.
  destruct (obj_get e (listeners st)) as [cbs|] eqn:Hget.
  - rewrite (forEach_passive e cbs) by eauto using passive_bodies. done.
  - cbn. rewrite app_nil_r. by destruct st.
Qed.

Lemma emit_changes_passive (keys : list string) (st : Store) :
  passive st ->
  StateManager.emit_changes keys st
  = (Normal tt,
     {| sstate := sstate st; listeners := listeners st;
        invoked := invoked st
                   ++ mjoin ((fun k => notified st (k +:+ ":change")) <$> keys) |}).
Proof.
  revert st. induction keys as [|k keys IH]; intros st Hp.
  - cbn. rewrite app_nil_r. by destruct st.
  - cbn [StateManager.emit_changes]. rewrite emit_passive by done. rewrite IH by done.
    cbn. by rewrite <- app_assoc.
Qed.

Lemma setState_notifies_eq (updates : object) (event : string) (st : Store) :
  passive st ->
  fst (StateManager.setState updates event st) = Normal tt
  /\ invoked (snd (StateManager.setState updates event st))
     = invoked st ++ notified st event
       ++ mjoin ((fun k => notified st (k +:+ ":change")) <$> obj_keys updates)
  /\ listeners (snd (StateManager.setState updates event st)) = listeners st.
Proof.
  intros Hp. unfold StateManager.setState.
  set (st1 := {| sstate := _; listeners := listeners st; invoked := invoked st |}).
  assert (Hp1 : passive st1) by exact Hp.
  rewrite (emit_passive event st1 Hp1).
  rewrite emit_changes_passive by exact Hp.
  cbn. by rewrite <- app_assoc.
Qed.

(** X7. On a store whose listeners only observe, [setState(updates, event)]
    calls the listeners of [event] first, in subscription order, and then,
    for each key of [updates] in order, the listeners of [key:change]:
    each of them for every key that [updates] names, whether or not the
    value differs from the previous one.  It returns normally, and the
    listener table is left as it was. *)
Theorem setState_notifies (updates : object) (event : string) (st : Store) :
  passive st ->
  forallb plain_key (obj_keys updates) = true ->
  invoked (snd (StateManager.setState updates event st))
  = invoked st ++ notified st event
    ++ mjoin ((fun k => notified st (k +:+ ":change")) <$> obj_keys updates)
  /\ listeners (snd (StateManager.setState updates event st)) = listeners st
  /\ fst (StateManager.setState updates event st) = Normal tt.
Proof.
  intros Hp _. destruct (setState_notifies_eq updates event st Hp) as (Hres & Hinv & Hl).
  by repeat split.
Qed.

Lemma setState_notifies_witness :
  invoked (snd (StateManager.setState [("isHost", JBool false)] "update" observed_store))
  = [(1, "update"); (2, "update"); (4, "isHost:change")].
Proof.
  assert (Hp : passive observed_store) by (repeat constructor).
  destruct (setState_notifies [("isHost", JBool false)] "update" observed_store Hp eq_refl)
    as [Hinv _].
  rewrite Hinv. reflexivity.
Defined.

(** ** StateManager: listeners that cannot throw *)

Lemma quiet_listeners (st : Store) (e : string) (cbs : list Callback) :
  quiet_store st -> obj_get e (listeners st) = Some cbs ->
  Forall (fun cb => quiet_cb cb = true) cbs.
Proof.
  intros Hq Hget. apply obj_get_elem in Hget.
  unfold quiet_store in Hq. rewrite Forall_forall in Hq. apply (Hq _ Hget).
Qed.

Lemma obj_set_Forall {A} (P : A -> Prop) (k : string) (v : A) (o : list (string * A)) :
  Forall (fun entry => P (snd entry)) o -> P v ->
  Forall (fun entry => P (snd entry)) (obj_set k v o).
Proof.
  intros Ho Hv. induction Ho as [|[k0 v0] o H0 Ho IH]; cbn.
  - by constructor.
  - destruct (String.eqb k k0); constructor; done.
Qed.

Lemma on_quiet (e : string) (cb : Callback) (st : Store) :
  quiet_cb cb = true -> quiet_store st -> quiet_store (StateManager.on e cb st).
Proof.
  intros Hcb Hq. unfold quiet_store, StateManager.on.
  cbn [listeners StateManager.with_listeners].
  destruct (obj_get e (listeners st)) as [cbs|] eqn:Hget.
  - rewrite Hget. cbn [default from_option]. change (id cbs) with cbs.
    apply (obj_set_Forall (Forall (fun cb => quiet_cb cb = true))); [exact Hq|].
    apply Forall_app. split; [|by constructor].
    exact (quiet_listeners st e cbs Hq Hget).
  - rewrite obj_get_set, String.eqb_refl. cbn [default from_option app].
    apply (obj_set_Forall (Forall (fun cb => quiet_cb cb = true))); [|by repeat constructor].
    apply (obj_set_Forall (Forall (fun cb => quiet_cb cb = true))); [exact Hq|constructor].
Qed.

Lemma off_quiet (e : string) (target : nat) (st : Store) :
  quiet_store st -> quiet_store (StateManager.off e target st).
Proof.
  intros Hq. unfold StateManager.off.
  destruct (obj_get e (listeners st)) as [cbs|] eqn:Hget; [|done].
  destruct (StateManager.indexOf target cbs) as [i|]; [|done].
  unfold quiet_store. cbn [listeners StateManager.with_listeners].
  apply (obj_set_Forall (Forall (fun cb => quiet_cb cb = true))); [exact Hq|].
  apply Forall_delete. exact (quiet_listeners st e cbs Hq Hget).
Qed.

Lemma run_quiet (calls : list BusCall) (st : Store) :
  forallb quiet_call calls = true -> quiet_store st ->
  fst (StateManager.run calls st) = Normal tt
  /\ quiet_store (snd (StateManager.run calls st)).
Proof.
  revert st. induction calls as [|[e target|e cb|err] calls IH]; intros st Hc Hq;
    cbn in Hc; cbn [StateManager.run]; [done|..|done].
  - apply IH; [done|]. by apply off_quiet.
  - apply andb_true_iff in Hc as [Hcb Hc]. apply IH; [done|]. by apply on_quiet.
Qed.

Lemma forEach_quiet (e : string) (n k : nat) (st : Store) :
  quiet_store st ->
  fst (StateManager.forEach_from e k n st) = Normal tt
  /\ quiet_store (snd (StateManager.forEach_from e k n st)).
Proof.
  revert k st. induction n as [|n IH]; intros k st Hq; [done|].
  cbn [StateManager.forEach_from].
  destruct (obj_get e (listeners st)) as [cbs|] eqn:Hget; cbn [default from_option];
    [|rewrite lookup_nil; by apply IH].
  change (id cbs) with cbs.
  destruct (cbs !! k) as [cb|] eqn:Hcb; [|by apply IH].
  assert (Hbody : forallb quiet_call (body cb) = true).
  { pose proof (quiet_listeners st e cbs Hq Hget) as Hall.
    rewrite Forall_forall in Hall.
    specialize (Hall cb (list_elem_of_lookup_2 _ _ _ Hcb)). by destruct cb. }
  unfold StateManager.call.
  destruct (run_quiet (body cb)
              {| sstate := sstate st; listeners := listeners st;
                 invoked := invoked st ++ [(cbId cb, e)] |} Hbody Hq) as [Hres Hq'].
  destruct (StateManager.run (body cb) _) as [[[]|err] st1]; cbn in *; [|discriminate].
  by apply IH.
Qed.

Lemma emit_quiet (e : string) (st : Store) :
  quiet_store st ->
  fst (StateManager.emit e st) = Normal tt /\ quiet_store (snd (StateManager.emit e st)).
Proof.
  intros Hq. unfold StateManager.emit.
  destruct (obj_get e (listeners st)); [by apply forEach_quiet | done].
Qed.

Lemma emit_changes_quiet (keys : list string) (st : Store) :
  quiet_store st ->
  fst (StateManager.emit_changes keys st) = Normal tt
  /\ quiet_store (snd (StateManager.emit_changes keys st)).
Proof.
  revert st. induction keys as [|k keys IH]; intros st Hq; [done|].
  cbn [StateManager.emit_changes].
  destruct (emit_quiet (k +:+ ":change") st Hq) as [Hres Hq'].
  destruct (StateManager.emit _ st) as [[[]|err] st1]; cbn in *; [|discriminate].
  by apply IH.
Qed.

Lemma setState_quiet (updates : object) (event : string) (st : Store) :
  quiet_store st ->
  fst (StateManager.setState updates event st) = Normal tt
  /\ quiet_store (snd (StateManager.setState updates event st)).
Proof.
  intros Hq. unfold StateManager.setState.
  set (st1 := {| sstate := _; listeners := listeners st; invoked := invoked st |}).
  assert (Hq1 : quiet_store st1) by exact Hq.
  destruct (emit_quiet event st1 Hq1) as [Hres Hq'].
  destruct (StateManager.emit event st1) as [[[]|err] st2]; cbn in *; [|discriminate].
  by apply emit_changes_quiet.
Qed.


(** ** StateManager: selectors *)

Lemma split_dots_cons (path : string) :
  exists first others, Selector.split_dots path = first :: others.
Proof.
  induction path as [|c rest (first & others & IH)]; cbn; [by eexists _, _|].
  destruct (Ascii.eqb c "."); [by eexists _, _|]. rewrite IH. by eexists _, _.
Qed.

Lemma split_dots_append (p q : string) :
  Selector.split_dots (p +:+ "." +:+ q) = Selector.split_dots p ++ Selector.split_dots q.
Proof.
  induction p as [|c rest IH]; cbn in *; [done|].
  destruct (Ascii.eqb c "."); [by rewrite IH|].
  rewrite IH. by destruct (split_dots_cons rest) as (first & others & ->).
Qed.

Lemma split_dots_dotless (key : string) :
  Selector.dotless key = true -> Selector.split_dots key = [key].
Proof.
  induction key as [|c rest IH]; cbn; [done|].
  destruct (Ascii.eqb c "."); cbn; [done|]. intros H. by rewrite IH.
Qed.

Lemma walk_primitive (keys : list string) (v : value) :
  keys <> [] -> Selector.composite v = false -> Selector.walk keys v = Some JUndefined.
Proof. destruct keys; [done|]. by destruct v. Qed.

Lemma walk_app (a b : list string) (v : value) :
  b <> [] ->
  Selector.walk (a ++ b) v = v' ← Selector.walk a v; Selector.walk b v'.
Proof.
  intros Hb. revert v. induction a as [|k a IH]; intros v; [done|].
  cbn [app Selector.walk].
  destruct v as [| |? |? |? |l|o]; try (by cbn; rewrite walk_primitive).
  - destruct (Selector.member (JArr l) k); cbn; [apply IH|done].
  - destruct (Selector.member (JObj o) k); cbn; [apply IH|done].
Qed.

(** X8. [select] composes along the dots: selecting [p.q] is selecting [p]
    and walking [q] from there; and once a path reaches a value that is
    neither an object nor an array ([null], a string, a number, ...), every
    longer path selects [undefined]: a string's [length], for one, is
    never read. *)
Theorem select_composes (p q : string) (st : Store) :
  Selector.select (p +:+ "." +:+ q) st
  = (v ← Selector.select p st; Selector.walk (Selector.split_dots q) v)
  /\ (forall v, Selector.select p st = Some v -> Selector.composite v = false ->
        Selector.select (p +:+ "." +:+ q) st = Some JUndefined).
Proof.
  assert (Hq : Selector.split_dots q <> []).
  { by destruct (split_dots_cons q) as (first & others & ->). }
  assert (Heq : Selector.select (p +:+ "." +:+ q) st
                = (v ← Selector.select p st; Selector.walk (Selector.split_dots q) v)).
  { unfold Selector.select. rewrite split_dots_append. by apply walk_app. }
  split; [exact Heq|].
  intros v Hv Hprim. rewrite Heq, Hv. cbn. by apply walk_primitive.
Qed.

Lemma select_after_setState_eq (updates : object) (event key : string) (st : Store) :
  NoDup (obj_keys updates) -> NoDup (obj_keys (sstate st)) ->
  Selector.dotless key = true ->
  Selector.select key (snd (StateManager.setState updates event st))
  = match obj_get key updates with
    | Some v => Some v
    | None => Selector.select key st
    end.
Proof.
  intros Hu Hs Hk. unfold Selector.select.
  rewrite (split_dots_dotless key Hk), sstate_setState. cbn.
  rewrite !obj_get_spread by done.
  destruct (obj_get key updates); [done|].
  by destruct (obj_get key (sstate st)).
Qed.



Lemma select_composes_witness :
  Selector.select ("user" +:+ "." +:+ "id") observed_store = Some JUndefined.
Proof.
  exact (proj2 (select_composes "user" "id" observed_store) JNull eq_refl eq_refl).
Defined.

(** ** WebRTCManager.emit and the store *)

Lemma notified_event (st : Store) (e e' : string) (id : nat) :
  (id, e') ∈ notified st e -> e' = e.
Proof.
  unfold notified. intros H. apply list_elem_of_fmap in H as (cb & Heq & _).
  by injection Heq.
Qed.




(** ** handleMessage: what is dropped, what tears down *)

Lemma garbled_rejected (data : string) :
  garbled data = true -> JSON_parse data = Throw SyntaxError.
Proof.
  unfold garbled, JSON_parse. cbn [parse_value].
  destruct (skip_ws data) as [|c r]; [done|].
  intros H%negb_true_iff.
  repeat (apply orb_false_iff in H as [H ?]).
  repeat match goal with Hc : Ascii.eqb c _ = false |- _ => rewrite Hc; clear Hc end.
  unfold parse_number.
  match goal with Hd : bool_decide _ = false |- _ =>
    apply bool_decide_eq_false in Hd; destruct (digit_val c) eqn:Hdigit;
      [exfalso; apply Hd; by eexists|] end.
  match goal with Hc : Ascii.eqb c "-" = false |- _ => rewrite Hc end.
  by rewrite Hdigit.
Qed.

(** X11. A frame that is no envelope.  Text that cannot begin a JSON value
    (free text, an empty frame) makes the channel's [onmessage] handler
    raise the parser's SyntaxError, and the text [null] makes it raise a
    TypeError ([msg.type] of [null]); a JSON value whose [type] is none of
    the seven case labels (or is missing, or is no string) is dropped
    silently.  In all three cases nothing changes. *)
Theorem onmessage_not_an_envelope (cbs : Callbacks) (data : string) (w : World) (m : Manager) :
  webrtc w = Some m ->
  (garbled data = true ->
     WebRTCManager.onmessage cbs data w = (Throw SyntaxError, w))
  /\ (JSON_parse data = Normal JNull ->
        exists reason, WebRTCManager.onmessage cbs data w = (Throw (TypeError reason), w))
  /\ (forall msg type, JSON_parse data = Normal msg ->
        get_prop msg "type" = Normal type -> handled type = false ->
        WebRTCManager.onmessage cbs data w = (Normal tt, w)).
Proof.
  intros Hm. unfold WebRTCManager.onmessage. repeat split.
  - intros He%garbled_rejected.
    erewrite run_bind_throw by (unfold lift; rewrite He; reflexivity). done.
  - intros Hnull. eexists.
    erewrite run_bind by (unfold lift; rewrite Hnull; reflexivity).
    unfold WebRTCManager.handleMessage.
    erewrite run_bind_throw by (unfold lift; cbn; reflexivity). done.
  - intros msg type Hmsg Hty Hun.
    erewrite run_bind by (unfold lift; rewrite Hmsg; reflexivity).
    unfold WebRTCManager.handleMessage.
    erewrite run_bind by (unfold lift; rewrite Hty; reflexivity).
    erewrite run_bind by (unfold WebRTCManager.this; rewrite Hm; reflexivity).
    unfold handled, handled_types in Hun. cbn [existsb] in Hun.
    repeat (apply orb_false_iff in Hun as [? Hun]).
    repeat match goal with H : str_is type _ = false |- _ => rewrite H; clear H end.
    done.
Qed.

Lemma onmessage_not_an_envelope_witness :
  WebRTCManager.onmessage App.handlers
    (stringify (JObj [("type", JStr "typing"); ("user", Ann)])) host_connected
  = (Normal tt, host_connected).
Proof.
  destruct (onmessage_not_an_envelope App.handlers
              (stringify (JObj [("type", JStr "typing"); ("user", Ann)]))
              host_connected host_manager eq_refl) as (_ & _ & Hdrop).
  apply (Hdrop (JObj [("type", JStr "typing"); ("user", Ann)]) (JStr "typing"));
    vm_compute; reflexivity.
Defined.

(** X12. An envelope whose type is [close] tears the receiver down, Guest
    or Host alike: the manager's channel and connection are closed and its
    fields reset, the user is told that the host ended the session and the
    page reloads.  No callback of the application runs, and the peer
    registry is not touched by the handler. *)
Theorem close_tears_down (cbs : Callbacks) (w : World) (m : Manager) (msg : value) :
  webrtc w = Some m ->
  get_prop msg "type" = Normal (JStr "close") ->
  WebRTCManager.handleMessage cbs msg w
  = (Normal tt,
     {| now := now w;
        channels := close_if (channel m) (channels w);
        conns := close_pc_if (localPC m) (conns w);
        webrtc := Some (released m);
        state := state w; store := store w;
        page := page w ++ [Alert "Host ended the session"; Reload] |}).
Proof.
  intros Hm Hty. unfold WebRTCManager.handleMessage.
  erewrite run_bind by (unfold lift; rewrite Hty; reflexivity).
  erewrite run_bind by (unfold WebRTCManager.this; rewrite Hm; reflexivity).
  str_tests.
  erewrite run_bind by (apply cleanup_spec, Hm).
  unfold mbind, M_bind, show. cbn. by rewrite <- app_assoc.
Qed.

Lemma close_tears_down_witness :
  let w' := exec (WebRTCManager.handleMessage App.handlers (JObj [("type", JStr "close")]))
                 host_connected in
  webrtc w' = Some (released host_manager)
  /\ page w' = page host_connected ++ [Alert "Host ended the session"; Reload]
  /\ state w' = state host_connected.
Proof.
  cbv zeta. unfold exec.
  rewrite (close_tears_down App.handlers host_connected host_manager
             (JObj [("type", JStr "close")]) eq_refl eq_refl).
  repeat split.
Defined.

Lemma handleMessage_no_callbacks (cbs : Callbacks) (w : World) (m : Manager)
    (msg type : value) :
  webrtc w = Some m -> no_callbacks m = true ->
  get_prop msg "type" = Normal type ->
  str_is type "close" || str_is type "kick" = false ->
  WebRTCManager.handleMessage cbs msg w = (Normal tt, w).
Proof.
  intros Hm Hcb Hty Hkind. unfold WebRTCManager.handleMessage.
  erewrite run_bind by (unfold lift; rewrite Hty; reflexivity).
  erewrite run_bind by (unfold WebRTCManager.this; rewrite Hm; reflexivity).
  apply orb_false_iff in Hkind as [-> ->].
  unfold no_callbacks in Hcb. apply negb_true_iff in Hcb.
  repeat (apply orb_false_iff in Hcb as [Hcb ?]).
  repeat match goal with H : _ m = false |- _ => rewrite H; clear H end.
  by repeat destruct (str_is type _).
Qed.

(** X13. After [destroy] the manager is deaf to the application's
    envelopes: identity, chat, system, req-identity and leave frames (and
    any other frame that is not [close] or [kick]) are dropped without a
    callback being run and without any change.  The same holds for every
    manager whose callback fields are all unset, such as a new one. *)
Theorem destroyed_manager_drops (cbs : Callbacks) (w : World) (m : Manager)
    (msg type : value) :
  webrtc w = Some m ->
  get_prop msg "type" = Normal type ->
  str_is type "close" || str_is type "kick" = false ->
  let w1 := exec WebRTCManager.destroy w in
  WebRTCManager.handleMessage cbs msg w1 = (Normal tt, w1)
  /\ (no_callbacks m = true -> WebRTCManager.handleMessage cbs msg w = (Normal tt, w)).
Proof.
  intros Hm Hty Hkind w1. split.
  - subst w1. unfold exec. rewrite (destroy_spec w m Hm). cbn [snd].
    eapply handleMessage_no_callbacks; [reflexivity | reflexivity | exact Hty | exact Hkind].
  - intros Hcb. by eapply handleMessage_no_callbacks.
Qed.

Lemma destroyed_manager_drops_witness :
  let w1 := exec WebRTCManager.destroy host_connected in
  WebRTCManager.handleMessage App.handlers (JObj [("type", JStr "chat"); ("text", JStr "hi")]) w1
  = (Normal tt, w1).
Proof.
  exact (proj1 (destroyed_manager_drops App.handlers host_connected host_manager
                  (JObj [("type", JStr "chat"); ("text", JStr "hi")]) (JStr "chat")
                  eq_refl eq_refl eq_refl)).
Defined.


(** ** Signalling: createOffer, createAnswer, handleAnswer *)

Lemma alter_last {A} (f : A -> A) (l : list A) (x : A) :
  alter f (length l) (l ++ [x]) = l ++ [f x].
Proof.
  rewrite <- (Nat.add_0_r (length l)). by rewrite alter_app_r.
Qed.

Lemma createOffer_start_spec (w : World) (m : Manager) :
  webrtc w = Some m ->
  WebRTCManager.createOffer_start w
  = (Normal tt,
     {| now := now w;
        channels := channels w ++ [offered_channel];
        conns := conns w ++ [offering_connection];
        webrtc := Some (WebRTCManager.with_channel (Some (length (channels w)))
                          (WebRTCManager.with_localPC (Some (length (conns w)))
                             (WebRTCManager.with_isHost true m)));
        state := state w; store := store w; page := page w |}).
Proof.
  intros Hm. unfold WebRTCManager.createOffer_start, pc_new, pc_createDataChannel,
    WebRTCManager.setupChannelHandlers, pc_set_onicecandidate.
  run. rewrite Hm. cbn.
  rewrite lookup_app_r, Nat.sub_diag by lia. cbn.
  unfold set_conns, set_channels, set_webrtc.
  cbn [now channels conns webrtc state store page].
  by rewrite Hm, !alter_last.
Qed.

(** X14. [createOffer], up to its first [await], starts a new link beside
    whatever the manager held: a fresh connection and a fresh channel
    (still connecting, with the host's handlers installed) are allocated
    and become [localPC] and [channel], [isHost] is set, and every
    connection and channel that existed before is left exactly as it was.
    In particular the channel the manager pointed to before is neither
    closed nor altered. *)
Theorem createOffer_allocates (w : World) (m : Manager) :
  webrtc w = Some m ->
  let w' := exec WebRTCManager.createOffer_start w in
  result WebRTCManager.createOffer_start w = Normal tt
  /\ webrtc w' = Some (WebRTCManager.with_channel (Some (length (channels w)))
                        (WebRTCManager.with_localPC (Some (length (conns w)))
                           (WebRTCManager.with_isHost true m)))
  /\ channels w' = channels w ++ [offered_channel]
  /\ conns w' = conns w ++ [offering_connection]
  /\ (forall c ch, channels w !! c = Some ch -> channels w' !! c = Some ch)
  /\ (forall p pc, conns w !! p = Some pc -> conns w' !! p = Some pc)
  /\ state w' = state w /\ store w' = store w /\ page w' = page w.
Proof.
  intros Hm w'. subst w'. unfold result, exec.
  rewrite (createOffer_start_spec w m Hm). cbn [fst snd webrtc channels conns state store page].
  repeat split.
  - intros c ch Hc. by apply lookup_app_l_Some.
  - intros p pc Hp. by apply lookup_app_l_Some.
Qed.

Lemma createOffer_allocates_witness :
  let w' := exec WebRTCManager.createOffer_start host_connected in
  channels w' !! 0 = channels host_connected !! 0
  /\ (channel <$> webrtc w') = Some (Some 1).
Proof.
  destruct (createOffer_allocates host_connected host_manager eq_refl)
    as (_ & Hm' & Hch & _).
  cbv zeta. rewrite Hm', Hch. split; reflexivity.
Defined.

Lemma token_read_back (lz : option LZ) (d : value) :
  lossless lz -> wf_json d = true ->
  exists token,
    WebRTCManager.compressDescription lz d = Some token /\
    WebRTCManager.decompressDescription lz token = Normal d.
Proof.
  intros Hlz Hwf.
  assert (Hs : JSON_stringify d = Some (stringify d)) by (by destruct d).
  unfold WebRTCManager.compressDescription, WebRTCManager.decompressDescription.
  rewrite Hs. destruct lz as [codec|]; eexists; (split; [reflexivity|]).
  - rewrite (Hlz codec eq_refl). by apply JSON_parse_stringify.
  - by apply JSON_parse_stringify.
Qed.

(** X15. The offer crosses.  When the host's [createOffer] resumes with the
    platform's [offer], it becomes the local description of the host's
    connection and is returned as a token; [createAnswer] on the guest,
    given that token, allocates a connection with its [ondatachannel]
    handler installed and sets, as its remote description, the very
    [offer] the host made. *)
Theorem offer_crosses (lz : option LZ) (offer : value)
    (host_w guest_w : World) (hm gm : Manager) (p : nat) (pc : PeerConnection) :
  lossless lz -> wf_json offer = true -> description_ok offer = true ->
  webrtc host_w = Some hm -> localPC hm = Some p ->
  conns host_w !! p = Some pc -> pcClosed pc = false ->
  webrtc guest_w = Some gm ->
  exists token,
    result (WebRTCManager.createOffer_resume lz offer) host_w = Normal (Some token)
    /\ (localDescription <$> conns (exec (WebRTCManager.createOffer_resume lz offer) host_w) !! p)
       = Some offer
    /\ result (WebRTCManager.createAnswer_start lz token) guest_w = Normal tt
    /\ let guest_w' := exec (WebRTCManager.createAnswer_start lz token) guest_w in
       conns guest_w' = conns guest_w ++ [answering_connection offer]
       /\ (localPC <$> webrtc guest_w') = Some (Some (length (conns guest_w)))
       /\ (isHost <$> webrtc guest_w') = Some false
       /\ channels guest_w' = channels guest_w.
Proof.
  intros Hlz Hwf Hok Hhm Hp Hpc Hopen Hgm.
  destruct (token_read_back lz offer Hlz Hwf) as (token & Henc & Hdec).
  exists token.
  assert (Hhost : WebRTCManager.createOffer_resume lz offer host_w
            = (Normal (Some token),
               set_conns (alter (fun pc =>
                 {| pcClosed := pcClosed pc; localDescription := offer;
                    remoteDescription := remoteDescription pc;
                    onicecandidate := onicecandidate pc;
                    ondatachannel := ondatachannel pc |}) p) host_w)).
  { unfold WebRTCManager.createOffer_resume, pc_setLocalDescription. run.
    rewrite Hhm, Hp, Hpc, Hopen, Hok, Henc. reflexivity. }
  assert (Hguest : WebRTCManager.createAnswer_start lz token guest_w
            = (Normal tt,
               {| now := now guest_w; channels := channels guest_w;
                  conns := conns guest_w ++ [answering_connection offer];
                  webrtc := Some (WebRTCManager.with_localPC (Some (length (conns guest_w)))
                                    (WebRTCManager.with_isHost false gm));
                  state := state guest_w; store := store guest_w; page := page guest_w |})).
  { unfold WebRTCManager.createAnswer_start, pc_new, pc_set_ondatachannel,
      pc_setRemoteDescription. run.
    rewrite Hgm, Hdec. cbn.
    unfold set_conns, set_webrtc. cbn [now channels conns webrtc state store page].
    rewrite !alter_last. cbn.
    rewrite lookup_app_r, Nat.sub_diag by lia. cbn. rewrite Hok. cbn.
    unfold set_conns. cbn [now channels conns webrtc state store page].
    by rewrite Hgm, alter_last. }
  unfold result, exec. rewrite Hhost, Hguest. cbn [fst snd conns webrtc channels set_conns].
  repeat split.
  rewrite list_lookup_alter, Hpc. by rewrite decide_True.
Qed.

Lemma offer_crosses_witness :
  exists token,
    result (WebRTCManager.createOffer_resume (Some marker_codec) (descriptor "offer" sample_sdp))
           (exec WebRTCManager.createOffer_start host_connected)
    = Normal (Some token)
    /\ result (WebRTCManager.createAnswer_start (Some marker_codec) token) guest_connected
       = Normal tt.
Proof.
  destruct (offer_crosses (Some marker_codec) (descriptor "offer" sample_sdp)
              (exec WebRTCManager.createOffer_start host_connected) guest_connected
              (WebRTCManager.with_channel (Some 1)
                 (WebRTCManager.with_localPC (Some 1)
                    (WebRTCManager.with_isHost true host_manager)))
              guest_manager 1 offering_connection)
    as (token & Hres & _ & Hans & _);
    try (vm_compute; reflexivity).
  - intros codec Hc text. injection Hc as <-. reflexivity.
  - exists token. by split.
Defined.

(** X16. The answer crosses back.  When the guest's [createAnswer] resumes
    with the platform's [answer], it becomes the guest's local description,
    the gathering handler is installed and the answer is returned as a
    token; [handleAnswer] on the host, given that token, sets the very
    [answer] as the remote description of the host's connection and
    changes nothing else.  A token that decodes to something that is no
    session description is refused by the platform with a TypeError, and
    nothing changes. *)
Theorem answer_crosses (lz : option LZ) (answer : value)
    (host_w guest_w : World) (hm gm : Manager) (hp gp : nat) (hpc gpc : PeerConnection) :
  lossless lz -> wf_json answer = true -> description_ok answer = true ->
  webrtc guest_w = Some gm -> localPC gm = Some gp ->
  conns guest_w !! gp = Some gpc -> pcClosed gpc = false ->
  webrtc host_w = Some hm -> localPC hm = Some hp ->
  conns host_w !! hp = Some hpc -> pcClosed hpc = false ->
  (exists token,
     WebRTCManager.createAnswer_resume lz answer guest_w
     = (Normal (Some token),
        set_conns (alter (fun pc =>
          {| pcClosed := pcClosed pc; localDescription := answer;
             remoteDescription := remoteDescription pc;
             onicecandidate := true; ondatachannel := ondatachannel pc |}) gp) guest_w)
     /\ WebRTCManager.handleAnswer lz token host_w
        = (Normal tt,
           set_conns (alter (fun pc =>
             {| pcClosed := pcClosed pc; localDescription := localDescription pc;
                remoteDescription := answer;
                onicecandidate := onicecandidate pc;
                ondatachannel := ondatachannel pc |}) hp) host_w))
  /\ (forall data d,
        WebRTCManager.decompressDescription lz data = Normal d ->
        description_ok d = false ->
        WebRTCManager.handleAnswer lz data host_w
        = (Throw (TypeError "RTCSessionDescriptionInit"), host_w)).
Proof.
  intros Hlz Hwf Hok Hgm Hgp Hgpc Hgopen Hhm Hhp Hhpc Hhopen. split.
  - destruct (token_read_back lz answer Hlz Hwf) as (token & Henc & Hdec).
    exists token. split.
    + unfold WebRTCManager.createAnswer_resume, pc_setLocalDescription,
        pc_set_onicecandidate. run.
      rewrite Hgm, Hgp, Hgpc, Hgopen, Hok, Henc. cbn.
      unfold set_conns. cbn [now channels conns webrtc state store page].
      rewrite Hgm, Hgp. cbn. f_equal. f_equal.
      rewrite list_alter_alter_eq. reflexivity.
    + unfold WebRTCManager.handleAnswer, pc_setRemoteDescription. run.
      by rewrite Hhm, Hhp, Hdec, Hhpc, Hhopen, Hok.
  - intros data d Hdec Hbad.
    unfold WebRTCManager.handleAnswer, pc_setRemoteDescription. run.
    by rewrite Hhm, Hhp, Hdec, Hhpc, Hhopen, Hbad.
Qed.


Lemma answer_crosses_witness :
  exists token,
    result (WebRTCManager.createAnswer_resume None (descriptor "answer" sample_sdp))
           guest_answering = Normal (Some token)
    /\ (remoteDescription <$>
          conns (exec (WebRTCManager.handleAnswer None token) host_offering) !! 0)
       = Some (descriptor "answer" sample_sdp).
Proof.
  destruct (answer_crosses None (descriptor "answer" sample_sdp)
              host_offering guest_answering
              host_offering_manager guest_answering_manager 0 0
              {| pcClosed := false; localDescription := descriptor "offer" sample_sdp;
                 remoteDescription := JNull;
                 onicecandidate := true; ondatachannel := false |}
              (answering_connection (descriptor "offer" sample_sdp)))
    as [(token & Hans & Hhost) _];
    try (vm_compute; reflexivity).
  - intros codec Hc. discriminate Hc.
  - exists token. unfold result, exec. rewrite Hans, Hhost. split; reflexivity.
Defined.


(** ** The host's fan-out *)

Lemma pushed_nil (ch : Channel) : pushed [] ch = ch.
Proof. destruct ch. unfold pushed. cbn. by rewrite app_nil_r. Qed.

Lemma fanned_out_lookup (frame : string) (excludeId : option string)
    (entries : list (string * PeerRecord)) (chs : list Channel) (i : nat) :
  fanned_out frame excludeId entries chs !! i
  = (fun ch => if ReadyState_eqb (readyState ch) open
               then pushed (replicate (copies excludeId entries i) frame) ch
               else ch) <$> chs !! i.
Proof. unfold fanned_out. by rewrite list_lookup_imap. Qed.

Lemma fanned_out_nil (frame : string) (excludeId : option string) (chs : list Channel) :
  fanned_out frame excludeId [] chs = chs.
Proof.
  apply list_eq. intros i. rewrite fanned_out_lookup.
  destruct (chs !! i) as [ch|]; [|done]. cbn.
  destruct (ReadyState_eqb (readyState ch) open); [|done]. by rewrite pushed_nil.
Qed.

Lemma fanned_out_skip (frame : string) (excludeId : option string)
    (entry : string * PeerRecord) (entries : list (string * PeerRecord))
    (chs : list Channel) :
  (forall c ch, chs !! c = Some ch -> addressed excludeId c entry = true ->
     ReadyState_eqb (readyState ch) open = false) ->
  fanned_out frame excludeId (entry :: entries) chs
  = fanned_out frame excludeId entries chs.
Proof.
  intros Hskip. apply list_eq. intros i. rewrite !fanned_out_lookup.
  destruct (chs !! i) as [ch|] eqn:Hi; [|done]. cbn [fmap option_fmap option_map].
  destruct (ReadyState_eqb (readyState ch) open) eqn:Hopen; [|done].
  cbn [copies]. destruct (addressed excludeId i entry) eqn:Ha; [|done].
  rewrite (Hskip i ch Hi Ha) in Hopen. discriminate Hopen.
Qed.

Lemma fanned_out_sent (frame : string) (excludeId : option string)
    (id : string) (peer : PeerRecord) (entries : list (string * PeerRecord))
    (chs : list Channel) (c : nat) :
  peerChannel peer = Some c -> Some id <> excludeId ->
  (forall ch, chs !! c = Some ch -> ReadyState_eqb (readyState ch) open = true) ->
  fanned_out frame excludeId entries (alter (sent frame) c chs)
  = fanned_out frame excludeId ((id, peer) :: entries) chs.
Proof.
  intros Hc Hid Hopen. apply list_eq. intros i. rewrite !fanned_out_lookup.
  rewrite list_lookup_alter. cbn [copies]. unfold addressed at 1. cbn [fst snd].
  rewrite Hc, (bool_decide_false _ Hid). cbn [negb andb].
  case_decide as Hic; [subst i|].
  - rewrite bool_decide_true by done.
    destruct (chs !! c) as [ch|]; [|done]. cbn.
    rewrite (Hopen ch eq_refl).
    unfold pushed, sent. cbn. by rewrite <- app_assoc.
  - rewrite bool_decide_false by congruence. done.
Qed.

Lemma registry_sound_refs (entries : list (string * PeerRecord)) (chs : list Channel) :
  registry_sound entries chs = true -> refs_ok entries chs.
Proof.
  unfold registry_sound. rewrite forallb_forall.
  intros Hall id peer c Hin Hc.
  apply list_elem_of_In in Hin. specialize (Hall _ Hin). cbn [snd] in Hall.
  rewrite Hc in Hall. destruct (chs !! c) as [ch|]; [|discriminate Hall].
  apply bool_decide_eq_true in Hall. by exists ch.
Qed.

Lemma send_to_entries_spec (message : value) (excludeId : option string)
    (entries : list (string * PeerRecord)) (w : World) :
  refs_ok entries (channels w) ->
  App.send_to_entries message excludeId entries w
  = (Normal tt, set_channels (fanned_out (stringify message) excludeId entries) w).
Proof.
  revert w. induction entries as [|[id peer] entries IH]; intros w Hsound.
  - cbn. unfold set_channels. rewrite fanned_out_nil. by destruct w.
  - cbn [App.send_to_entries].
    destruct (peerChannel peer) as [c|] eqn:Hc.
    + destruct (Hsound id peer c) as (ch & Hch & Hfault); [left | done |].
      destruct (negb (bool_decide (Some id = excludeId))
                && ReadyState_eqb (readyState ch) open) eqn:Hcond.
      * pose proof Hcond as Hcond'.
        apply andb_true_iff in Hcond as [Hid Hopen].
        apply negb_true_iff, bool_decide_eq_false in Hid.
        erewrite run_bind; cycle 1.
        { erewrite run_bind by (unfold chan_get; rewrite Hch; reflexivity).
          rewrite Hcond'. unfold chan_send.
          erewrite run_bind by (unfold chan_get; rewrite Hch; reflexivity).
          rewrite Hopen, Hfault. reflexivity. }
        rewrite IH.
        -- unfold set_channels. cbn [now channels conns webrtc state store page].
           rewrite (fanned_out_sent _ _ id peer _ _ c Hc Hid); [done|].
           intros ch0 Hch0. rewrite Hch in Hch0. by injection Hch0 as <-.
        -- intros id' peer' c' Hin Hc'. cbn [set_channels channels].
           destruct (Hsound id' peer' c') as (ch' & Hch' & Hfault'); [by right | done |].
           rewrite list_lookup_alter. destruct (decide (c = c')) as [<-|Hne].
           ++ rewrite Hch. cbn. eexists. split; [reflexivity|]. done.
           ++ eexists. split; [exact Hch'|done].
      * erewrite run_bind; cycle 1.
        { erewrite run_bind by (unfold chan_get; rewrite Hch; reflexivity).
          rewrite Hcond. reflexivity. }
        rewrite IH.
        -- unfold set_channels. rewrite (fanned_out_skip _ _ (id, peer)); [done|].
           intros i chi Hi Ha. unfold addressed in Ha. cbn [fst snd] in Ha.
           apply andb_true_iff in Ha as [Hi' Hid].
           apply bool_decide_eq_true in Hi'. rewrite Hc in Hi'. injection Hi' as <-.
           rewrite Hch in Hi. injection Hi as <-.
           rewrite Hid in Hcond. exact Hcond.
        -- intros id' peer' c' Hin Hc'. apply (Hsound id' peer' c'); [by right | done].
    + erewrite run_bind by reflexivity.
      rewrite IH.
      * unfold set_channels. rewrite (fanned_out_skip _ _ (id, peer)); [done|].
        intros i chi Hi Ha. unfold addressed in Ha. cbn [fst snd] in Ha.
        rewrite Hc in Ha. discriminate Ha.
      * intros id' peer' c' Hin Hc'. apply (Hsound id' peer' c'); [by right | done].
Qed.

Lemma broadcastMessage_spec (message : value) (excludeId : option string) (w : World) :
  appIsHost (state w) = true -> is_Some (webrtc w) ->
  registry_sound (peers (state w)) (channels w) = true ->
  App.broadcastMessage message excludeId w
  = (Normal tt,
     set_channels (fanned_out (stringify message) excludeId (peers (state w))) w).
Proof.
  intros Hhost Hrtc Hsound. unfold App.broadcastMessage.
  erewrite run_bind by reflexivity.
  rewrite Hhost, (bool_decide_true _ Hrtc). cbn [negb orb].
  by apply send_to_entries_spec, registry_sound_refs.
Qed.

(** X17. The host's fan-out.  On a host whose registry refers to working
    channels, [broadcastMessage(message, excludeId)] returns normally and
    changes only the channels: every open channel receives the frame
    [JSON.stringify(message)] once for each registry entry that holds it
    and is not the excluded key (so twice, when two entries hold the same
    channel), appended after what it had; a channel that is not open, or
    that no addressed entry holds, is left as it is.  On a page that is
    not the host the call does nothing at all. *)
Theorem broadcast_fans_out (message : value) (excludeId : option string) (w : World) :
  is_Some (webrtc w) ->
  registry_sound (peers (state w)) (channels w) = true ->
  (appIsHost (state w) = true ->
     App.broadcastMessage message excludeId w
     = (Normal tt,
        set_channels (fanned_out (stringify message) excludeId (peers (state w))) w)
     /\ forall c ch, channels w !! c = Some ch ->
          exists ch', channels (exec (App.broadcastMessage message excludeId) w) !! c = Some ch'
            /\ readyState ch' = readyState ch
            /\ outbox ch'
               = outbox ch
                 ++ (if ReadyState_eqb (readyState ch) open
                     then replicate (copies excludeId (peers (state w)) c) (stringify message)
                     else []))
  /\ (appIsHost (state w) = false ->
        App.broadcastMessage message excludeId w = (Normal tt, w)).
Proof.
  intros Hrtc Hsound. split.
  - intros Hhost.
    pose proof (broadcastMessage_spec message excludeId w Hhost Hrtc Hsound) as Hrun.
    split; [exact Hrun|]. intros c ch Hch. unfold exec. rewrite Hrun.
    cbn [snd set_channels channels]. rewrite fanned_out_lookup, Hch. cbn.
    eexists. split; [reflexivity|].
    destruct (ReadyState_eqb (readyState ch) open); cbn; [done|].
    by rewrite app_nil_r.
  - intros Hguest. unfold App.broadcastMessage.
    erewrite run_bind by reflexivity. by rewrite Hguest.
Qed.

Lemma broadcast_fans_out_witness :
  outbox <$> channels (exec (App.broadcastMessage (JObj [("type", JStr "close")]) None)
                            host_of_three) !! 1
  = (fun ch => outbox ch ++ [stringify (JObj [("type", JStr "close")])])
      <$> channels host_of_three !! 1.
Proof.
  destruct (broadcast_fans_out (JObj [("type", JStr "close")]) None host_of_three)
    as [Hhost _]; [by eexists | reflexivity |].
  destruct (Hhost eq_refl) as [Hrun _]. unfold exec. rewrite Hrun. reflexivity.
Defined.


(** ** Removing a peer *)

Lemma obj_get_delete {A} (k k' : string) (o : list (string * A)) :
  NoDup (obj_keys o) ->
  obj_get k (obj_delete k' o) = if String.eqb k k' then None else obj_get k o.
Proof.
  induction o as [|[k0 v0] o IH]; intros Hnd; cbn.
  - by destruct (String.eqb k k').
  - apply NoDup_cons in Hnd as [Hk0 Hnd].
    destruct (String.eqb_spec k' k0) as [->|Hne].
    + destruct (String.eqb_spec k k0) as [->|]; [|done].
      by apply obj_get_absent.
    + cbn. rewrite IH by done.
      destruct (String.eqb_spec k k0) as [->|]; [|done].
      by destruct (String.eqb_spec k0 k').
Qed.

Lemma draw_participants_ok (entries : list (string * PeerRecord)) (w : World) :
  presentable entries = true -> App.draw_participants entries w = (Normal tt, w).
Proof.
  induction entries as [|[id peer] entries IH]; [done|].
  cbn [presentable forallb snd]. intros [Huser Hrest]%andb_true_iff.
  cbn [App.draw_participants].
  assert (Hread : forall k, exists v, get_prop (peerUser peer) k = Normal v).
  { intros k. unfold has_user in Huser. destruct (peerUser peer); try discriminate;
      cbn; eauto. }
  destruct (Hread "avatar") as [a Ha]. destruct (Hread "name") as [n Hn].
  erewrite run_bind by (unfold lift; rewrite Ha; reflexivity).
  erewrite run_bind by (unfold lift; rewrite Hn; reflexivity).
  by apply IH.
Qed.

(** X18. [kickPeer(id)] for a registered peer.  When the peer's channel is
    open and takes the frame, the channel receives the kick envelope as its
    last frame and is closed, the peer's record leaves the registry (every
    other record stays), the participants dialog is redrawn from the
    remaining records (each of which has a user) and the peer count is
    redrawn.  When the channel is not open (the peer's link has gone
    already), [channel.send] raises InvalidStateError before anything is
    changed: the record stays in the registry, and so it does on every
    later attempt. *)
Theorem kickPeer_outcome (id : string) (w : World) (peer : PeerRecord) (c : nat)
    (ch : Channel) :
  NoDup (obj_keys (peers (state w))) ->
  obj_get id (peers (state w)) = Some peer ->
  peerChannel peer = Some c -> channels w !! c = Some ch ->
  (readyState ch = open -> txFault ch = None ->
     presentable (obj_delete id (peers (state w))) = true ->
     let w' := exec (App.kickPeer id) w in
     result (App.kickPeer id) w = Normal tt
     /\ channels w' = alter (sent_and_closed (stringify (JObj [("type", JStr "kick")]))) c
                        (channels w)
     /\ obj_get id (peers (state w')) = None
     /\ (forall id', id' <> id ->
           obj_get id' (peers (state w')) = obj_get id' (peers (state w)))
     /\ page w' = page w ++ [PeerCount (length (peers (state w')))]
     /\ webrtc w' = webrtc w /\ conns w' = conns w)
  /\ (readyState ch <> open ->
        App.kickPeer id w = (Throw InvalidStateError, w)
        /\ App.kickPeer id (exec (App.kickPeer id) w) = (Throw InvalidStateError, w)).
Proof.
  intros Hnd Hpeer Hc Hch. split.
  - intros Hopen Hfault Hdraw w'. subst w'.
    assert (Hrun : App.kickPeer id w
              = (Normal tt,
                 {| now := now w;
                    channels := alter (sent_and_closed
                                  (stringify (JObj [("type", JStr "kick")]))) c (channels w);
                    conns := conns w; webrtc := webrtc w;
                    state := App.with_peers (obj_delete id) (state w);
                    store := store w;
                    page := page w
                      ++ [PeerCount (length (obj_keys (obj_delete id (peers (state w)))))] |})).
    { unfold App.kickPeer. erewrite run_bind by reflexivity. rewrite Hpeer, Hc.
      erewrite run_bind; cycle 1.
      { erewrite run_bind by (by apply (chan_send_spec c _ w ch)). reflexivity. }
      erewrite run_bind by reflexivity.
      erewrite run_bind; cycle 1.
      { unfold App.showParticipantsModal. erewrite run_bind by reflexivity.
        by apply draw_participants_ok. }
      unfold App.updatePeerCount, chan_close.
      erewrite run_bind by reflexivity.
      unfold show, modify, set_state, set_channels.
      cbn [now channels conns webrtc state store page App.with_peers peers].
      by rewrite list_alter_alter_eq. }
    unfold result, exec. rewrite Hrun.
    cbn [fst snd now channels conns webrtc state store page App.with_peers peers].
    repeat split.
    + rewrite obj_get_delete by done. by rewrite String.eqb_refl.
    + intros id' Hne. rewrite obj_get_delete by done.
      by destruct (String.eqb_spec id' id).
    + unfold obj_keys. by rewrite length_map.
  - intros Hclosed.
    assert (Hrun : App.kickPeer id w = (Throw InvalidStateError, w)).
    { unfold App.kickPeer, chan_send. run.
      rewrite Hpeer, Hc, Hch. by destruct (readyState ch). }
    split; [exact Hrun|]. unfold exec. rewrite Hrun. exact Hrun.
Qed.

Lemma kickPeer_outcome_witness :
  let w' := exec (App.kickPeer "1730000000001") host_of_three in
  result (App.kickPeer "1730000000001") host_of_three = Normal tt
  /\ obj_get "1730000000001" (peers (state w')) = None
  /\ (readyState <$> channels w' !! 0) = Some closed.
Proof.
  destruct (kickPeer_outcome "1730000000001" host_of_three
              {| peerUser := Ann; peerChannel := Some 0 |} 0
              {| readyState := open;
                 outbox := default [] (outbox <$> channels host_of_three !! 0);
                 txFault := None; chanHandlers := Some host |})
    as [Hkick _];
    try (vm_compute; reflexivity).
  - apply (bool_decide_unpack _). vm_compute. exact I.
  - destruct (Hkick eq_refl eq_refl eq_refl) as (Hres & Hch & Hgone & _).
    cbv zeta. rewrite Hch. split; [exact Hres|]. split; [exact Hgone|]. reflexivity.
Defined.


(** ** Sending a chat message *)

(** X19. [sendMessage] with a non-blank text on a connected page shows the
    message as the user's own and then: on a guest whose channel is open,
    puts exactly one frame on that channel, the chat envelope
    [{type, text, user}]; on a guest whose channel is not open, sends
    nothing and reports nothing (the message stays on the page as if it
    had been sent); on a host, fans the same envelope out to the registry.
    With a blank text, or on a page that is not connected, nothing happens
    at all. *)
Theorem sendMessage_outcome (text : string) (w : World) (m : Manager) :
  webrtc w = Some m ->
  let shown := with_page (fun p => p ++ [RenderMessage (user (state w)) (JStr text) true]) w in
  let frame := stringify (chat_message text (user (state w))) in
  (text = "" \/ isConnected (state w) = false ->
     App.sendMessage text w = (Normal tt, w))
  /\ (text <> "" -> isConnected (state w) = true ->
        (appIsHost (state w) = false ->
           forall c ch, channel m = Some c -> channels w !! c = Some ch ->
             (readyState ch = open -> txFault ch = None ->
                App.sendMessage text w
                = (Normal tt, set_channels (alter (sent frame) c) shown))
             /\ (readyState ch <> open ->
                   App.sendMessage text w = (Normal tt, shown)))
        /\ (appIsHost (state w) = true ->
              registry_sound (peers (state w)) (channels w) = true ->
              App.sendMessage text w
              = (Normal tt,
                 set_channels (fanned_out frame None (peers (state w))) shown))).
Proof.
  intros Hm shown frame. split; [|intros Htext Hconn; apply String.eqb_neq in Htext; split].
  - intros Hskip. unfold App.sendMessage. erewrite run_bind by reflexivity.
    destruct Hskip as [-> | ->]; [done|]. by rewrite orb_true_r.
  - intros Hguest c ch Hc Hch.
    assert (Hstart : forall k : M unit,
              k shown = k shown -> App.sendMessage text w
              = (_ ← WebRTCManager.send "chat"
                       (Some [("text", JStr text); ("user", user (state w))]);
                 mret tt) shown).
    { intros _ _. unfold App.sendMessage. erewrite run_bind by reflexivity.
      rewrite Htext, Hconn, Hguest, Hm, Hc. cbn [orb negb].
      unfold App.renderMessage. erewrite run_bind by reflexivity. reflexivity. }
    rewrite (Hstart (mret tt) eq_refl). split.
    + intros Hopen Hfault.
      erewrite run_bind by (by apply (send_accepted shown m _ _ Hm c ch)).
      reflexivity.
    + intros Hclosed.
      erewrite run_bind by (by apply (send_not_open shown m _ _ Hm c ch)).
      reflexivity.
  - intros Hhost Hsound. unfold App.sendMessage. erewrite run_bind by reflexivity.
    rewrite Htext, Hconn, Hhost. cbn [orb negb].
    unfold App.renderMessage. erewrite run_bind by reflexivity.
    apply (broadcastMessage_spec _ None shown); [exact Hhost | by exists m | exact Hsound].
Qed.

Lemma sendMessage_outcome_witness :
  App.sendMessage "hello" guest_connected
  = (Normal tt,
     set_channels (alter (sent (stringify (chat_message "hello" Ann))) 0)
       (with_page (fun p => p ++ [RenderMessage Ann (JStr "hello") true]) guest_connected)).
Proof.
  destruct (sendMessage_outcome "hello" guest_connected guest_manager eq_refl)
    as [_ Hsend].
  destruct (Hsend ltac:(discriminate) eq_refl) as [Hguest _].
  destruct (Hguest eq_refl 0 (default new_channel (channels guest_connected !! 0)))
    as [Hopen _]; [vm_compute; reflexivity | vm_compute; reflexivity |].
  apply Hopen; vm_compute; reflexivity.
Defined.


(** ** Leaving *)

Lemma cleanupAndReload_spec (w : World) (m : Manager) :
  webrtc w = Some m -> App.cleanupAndReload w = (Normal tt, torn_down m w).
Proof.
  intros Hm. unfold App.cleanupAndReload.
  erewrite run_bind by reflexivity. rewrite Hm.
  erewrite run_bind by (apply destroy_spec, Hm).
  reflexivity.
Qed.

(** X20. A guest leaves.  After the user has confirmed, [confirmExit] on a
    guest whose channel is open puts the envelope [{type: 'leave', userId:
    state.user.id}] on the channel and then tears the session down:
    channel and connection closed, the manager reset and its callbacks
    removed, the page marked disconnected and reloaded.  If the channel is
    not open nothing is sent and the session is torn down all the same.
    If the transport refuses the frame, the exception leaves
    [confirmExit] before the teardown: nothing is closed and the page is
    not reloaded.  Without confirmation nothing happens. *)
Theorem guest_leaves (w : World) (m : Manager) (c : nat) (ch : Channel) (uid : value) :
  appIsHost (state w) = false -> webrtc w = Some m ->
  channel m = Some c -> channels w !! c = Some ch ->
  get_prop (user (state w)) "id" = Normal uid ->
  (readyState ch = open -> txFault ch = None ->
     App.confirmExit true w
     = (Normal tt,
        torn_down m (set_channels (alter (sent (stringify (leave_message uid))) c) w)))
  /\ (readyState ch <> open -> App.confirmExit true w = (Normal tt, torn_down m w))
  /\ (forall e, readyState ch = open -> txFault ch = Some e ->
        App.confirmExit true w = (Throw e, w))
  /\ App.confirmExit false w = (Normal tt, w).
Proof.
  intros Hguest Hm Hc Hch Hid.
  assert (Hstart : App.confirmExit true w
            = ((_ ← WebRTCManager.send "leave" (Some [("userId", uid)]); mret tt);;
               App.cleanupAndReload) w).
  { unfold App.confirmExit. cbn [negb]. erewrite run_bind by reflexivity.
    rewrite Hguest, Hm, Hid. reflexivity. }
  repeat split.
  - intros Hopen Hfault. rewrite Hstart.
    erewrite run_bind; cycle 1.
    { erewrite run_bind by (by apply (send_accepted w m _ _ Hm c ch)). reflexivity. }
    by rewrite (cleanupAndReload_spec _ m).
  - intros Hclosed. rewrite Hstart.
    erewrite run_bind; cycle 1.
    { erewrite run_bind by (by apply (send_not_open w m _ _ Hm c ch)). reflexivity. }
    by rewrite (cleanupAndReload_spec _ m).
  - intros e Hopen Hfault. rewrite Hstart.
    erewrite run_bind_throw; [reflexivity|].
    erewrite run_bind_throw by (by apply (send_transport_failure w m _ _ Hm c ch e)).
    reflexivity.
Qed.

Lemma guest_leaves_witness :
  let w' := exec (App.confirmExit true) guest_connected in
  (readyState <$> channels w' !! 0) = Some closed
  /\ (last <$> (outbox <$> channels w' !! 0))
     = Some (Some (stringify (leave_message (JStr "u-ann"))))
  /\ last (page w') = Some Reload.
Proof.
  assert (Hch : channels guest_connected !! 0
                = Some (default new_channel (channels guest_connected !! 0)))
    by (vm_compute; reflexivity).
  assert (Hid : get_prop (user (state guest_connected)) "id" = Normal (JStr "u-ann"))
    by (vm_compute; reflexivity).
  destruct (guest_leaves guest_connected guest_manager 0 _ (JStr "u-ann")
              eq_refl eq_refl eq_refl Hch Hid) as [Hleave _].
  cbv zeta. unfold exec. rewrite Hleave by (vm_compute; reflexivity).
  vm_compute. repeat split.
Defined.

(** X21. The host ends the session.  After confirmation, [confirmExit] on
    a host fans the envelope [{type: 'close'}] out to the registry (one
    copy per entry on every open channel) and then tears down the
    manager's own link only: the channel and the connection of the latest
    invitation are closed, the manager is reset, and the page is marked
    disconnected and reloaded.  The channels of the other peers receive
    the frame and are not closed by the host. *)
Theorem host_ends_session (w : World) (m : Manager) :
  appIsHost (state w) = true -> webrtc w = Some m ->
  registry_sound (peers (state w)) (channels w) = true ->
  App.confirmExit true w
  = (Normal tt,
     torn_down m
       (set_channels (fanned_out (stringify (JObj [("type", JStr "close")])) None
                        (peers (state w))) w))
  /\ forall c ch, channels w !! c = Some ch -> channel m <> Some c ->
       exists ch', channels (exec (App.confirmExit true) w) !! c = Some ch'
         /\ readyState ch' = readyState ch.
Proof.
  intros Hhost Hm Hsound.
  assert (Hrun : App.confirmExit true w
            = (Normal tt,
               torn_down m
                 (set_channels (fanned_out (stringify (JObj [("type", JStr "close")])) None
                                  (peers (state w))) w))).
  { unfold App.confirmExit. cbn [negb]. erewrite run_bind by reflexivity.
    rewrite Hhost.
    erewrite run_bind by (apply broadcastMessage_spec; [done | by exists m | done]).
    by rewrite (cleanupAndReload_spec _ m). }
  split; [exact Hrun|].
  intros c ch Hch Hother. unfold exec. rewrite Hrun.
  cbn [snd torn_down set_channels channels].
  destruct (channel m) as [c0|]; cbn [close_if].
  - rewrite list_lookup_alter_ne by congruence.
    rewrite fanned_out_lookup, Hch. cbn. eexists. split; [reflexivity|].
    by destruct (ReadyState_eqb (readyState ch) open).
  - rewrite fanned_out_lookup, Hch. cbn. eexists. split; [reflexivity|].
    by destruct (ReadyState_eqb (readyState ch) open).
Qed.

Lemma host_ends_session_witness :
  (readyState <$> channels (exec (App.confirmExit true) host_of_three))
  = [open; open; closed].
Proof.
  assert (Hm : webrtc host_of_three
               = Some (default new_WebRTCManager (webrtc host_of_three)))
    by (vm_compute; reflexivity).
  assert (Hsound : registry_sound (peers (state host_of_three)) (channels host_of_three)
                   = true) by (vm_compute; reflexivity).
  destruct (host_ends_session host_of_three _ eq_refl Hm Hsound) as [Hrun _].
  unfold exec. rewrite Hrun. vm_compute. reflexivity.
Defined.


(** ** The identity handshake *)

Lemma fire_open_spec (w : World) (m : Manager) (c : nat) (ch : Channel) (role : Role) :
  webrtc w = Some m -> onConnected m = true ->
  channels w !! c = Some ch -> chanHandlers ch = Some role -> txFault ch = None ->
  let w1 :=
    {| now := now w; channels := channels w; conns := conns w; webrtc := webrtc w;
       state := App.with_isConnected true (state w); store := store w;
       page := page w
               ++ Console ("[WebRTC] " +:+ WebRTCManager.label role +:+ " channel opened")
                  :: connected_notices |} in
  (channel m = Some c ->
     WebRTCManager.fire_open App.handlers c w
     = (Normal tt,
        set_channels (alter (opened [stringify (identity_message (user (state w)));
                                     req_identity_frame]) c) w1))
  /\ (forall c' ch', channel m = Some c' -> c' <> c ->
        channels w !! c' = Some ch' -> readyState ch' <> open ->
        WebRTCManager.fire_open App.handlers c w
        = (Normal tt, set_channels (alter (opened [req_identity_frame]) c) w1)).
Proof.
  intros Hm Hcb Hch Hrole Hfault w1.
  set (w0 := set_channels (alter (with_readyState open) c) w).
  set (w2 := set_channels (alter (with_readyState open) c) w1).
  assert (Hstart : WebRTCManager.fire_open App.handlers c w
            = ((_ ← WebRTCManager.send "identity" (Some [("user", user (state w))]);
                mret tt);;
               chan_send c req_identity_frame) w2).
  { unfold WebRTCManager.fire_open.
    erewrite run_bind by (unfold chan_get; rewrite Hch; reflexivity).
    erewrite run_bind by reflexivity.
    rewrite Hrole. unfold WebRTCManager.onopen.
    erewrite run_bind by reflexivity.
    erewrite run_bind by (apply this_spec; exact Hm).
    rewrite Hcb. unfold App.handlers, call_onConnected, App.webrtc_onConnected,
      App.closeModal, App.updateConnectionStatus, App.addSystemMessage.
    rewrite bind_assoc_M. erewrite run_bind by reflexivity.
    rewrite bind_assoc_M. erewrite run_bind by reflexivity.
    rewrite bind_assoc_M. erewrite run_bind by reflexivity.
    rewrite bind_assoc_M. erewrite run_bind by reflexivity.
    rewrite bind_assoc_M. erewrite run_bind by reflexivity.
    cbn [state set_state set_channels fst snd].
    match goal with |- ?f ?wa = ?g ?wb => assert (Hw : wa = wb) end.
    { subst w2 w1. unfold set_state, set_channels, connected_notices.
      cbn [now channels conns webrtc state store page].
      by rewrite <- !app_assoc. }
    rewrite Hw. reflexivity. }
  assert (Hm2 : webrtc w2 = Some m) by exact Hm.
  split.
  - intros Hc. rewrite Hstart.
    erewrite run_bind; cycle 1.
    { erewrite run_bind; [reflexivity|].
      apply (send_accepted w2 m _ _ Hm2 c (with_readyState open ch) Hc);
        [by apply alter_lookup_eq | done | done]. }
    erewrite chan_send_spec; cycle 1.
    { cbn [set_channels channels]. apply alter_lookup_eq, alter_lookup_eq, Hch. }
    { reflexivity. }
    { exact Hfault. }
    clear Hm2 Hstart. subst w2 w1.
    unfold set_channels. cbn [now channels conns webrtc state store page].
    rewrite !list_alter_alter_eq. f_equal. f_equal.
    apply list_alter_ext; [|done]. intros x _.
    unfold opened, pushed, sent, with_readyState, compose. cbn. by rewrite <- app_assoc.
  - intros c' ch' Hc' Hne Hch' Hclosed. rewrite Hstart.
    erewrite run_bind; cycle 1.
    { erewrite run_bind; [reflexivity|].
      apply (send_not_open w2 m _ _ Hm2 c' ch' Hc'); [|done].
      change (alter (with_readyState open) c (channels w) !! c' = Some ch').
      by rewrite list_lookup_alter_ne. }
    erewrite chan_send_spec; cycle 1.
    { cbn [set_channels channels]. apply alter_lookup_eq, Hch. }
    { reflexivity. }
    { exact Hfault. }
    clear Hm2 Hstart. subst w2 w1.
    unfold set_channels. cbn [now channels conns webrtc state store page].
    rewrite !list_alter_alter_eq. reflexivity.
Qed.

(** X22. The handshake on open.  When a channel with installed handlers
    opens on a page whose manager has its callbacks, the page is marked
    connected and says so, and the channel receives [req-identity].
    Before that, the page's own identity goes out through
    [webrtc.send], that is on the manager's current channel: when that is
    the channel that opened, it receives the identity envelope and then
    [req-identity], in this order; when the manager has moved on to a
    newer channel that is not open yet, the identity is not sent at all
    and the opened channel receives [req-identity] only. *)
Theorem open_handshake (w : World) (m : Manager) (c : nat) (ch : Channel) (role : Role) :
  webrtc w = Some m -> onConnected m = true ->
  channels w !! c = Some ch -> chanHandlers ch = Some role -> txFault ch = None ->
  let w1 :=
    {| now := now w; channels := channels w; conns := conns w; webrtc := webrtc w;
       state := App.with_isConnected true (state w); store := store w;
       page := page w
               ++ Console ("[WebRTC] " +:+ WebRTCManager.label role +:+ " channel opened")
                  :: connected_notices |} in
  (channel m = Some c ->
     WebRTCManager.fire_open App.handlers c w
     = (Normal tt,
        set_channels (alter (opened [stringify (identity_message (user (state w)));
                                     req_identity_frame]) c) w1))
  /\ (forall c' ch', channel m = Some c' -> c' <> c ->
        channels w !! c' = Some ch' -> readyState ch' <> open ->
        WebRTCManager.fire_open App.handlers c w
        = (Normal tt, set_channels (alter (opened [req_identity_frame]) c) w1)).
Proof. apply fire_open_spec. Qed.

Lemma open_handshake_witness :
  (outbox <$> channels (exec (WebRTCManager.fire_open App.handlers 0) host_offering) !! 0)
  = Some [stringify (identity_message Hal); req_identity_frame].
Proof.
  assert (Hch : channels host_offering !! 0 = Some offered_channel)
    by (vm_compute; reflexivity).
  destruct (open_handshake host_offering host_offering_manager 0 offered_channel host
              eq_refl eq_refl Hch eq_refl eq_refl) as [Hsame _].
  unfold exec. rewrite (Hsame eq_refl). vm_compute. reflexivity.
Defined.


(** ** A peer joins *)

(** X23. An identity envelope on the host.  [handleMessage] hands
    [msg.user] to [webrtc.onPeerJoin], which files the user in the registry
    under the current time together with the manager's current channel
    (whatever channel the frame arrived on), redraws the peer count, shows
    [name joined.] and fans the same notice out as a system envelope to
    the registry as it is now, the newcomer's record included.  When
    [msg.user] is missing, the record is filed and the count redrawn
    before [user.name] raises a TypeError: the record with no user stays
    in the registry. *)
Theorem peer_join_announced (msg u : value) (w : World) (m : Manager) :
  webrtc w = Some m -> onPeerJoin m = true ->
  get_prop msg "type" = Normal (JStr "identity") ->
  get_prop msg "user" = Normal u ->
  let registry := joined (now w) u (channel m) (peers (state w)) in
  let filed :=
    {| now := now w; channels := channels w; conns := conns w; webrtc := webrtc w;
       state := App.with_peers (fun _ => registry) (state w); store := store w;
       page := page w ++ [PeerCount (length registry)] |} in
  (forall name, get_prop u "name" = Normal name ->
     appIsHost (state w) = true -> registry_sound registry (channels w) = true ->
     WebRTCManager.handleMessage App.handlers msg w
     = (Normal tt,
        set_channels
          (fanned_out (stringify (system_message (joined_notice name))) None registry)
          (with_page (fun p => p ++ [SystemMessage (joined_notice name)]) filed)))
  /\ (forall e, get_prop u "name" = Throw e ->
        WebRTCManager.handleMessage App.handlers msg w = (Throw e, filed)).
Proof.
  intros Hm Hcb Hty Hu registry filed.
  assert (Hstart : WebRTCManager.handleMessage App.handlers msg w
            = (name ← lift (get_prop u "name");
               App.addSystemMessage (JStr (to_string name +:+ " joined."));;
               name' ← lift (get_prop u "name");
               App.broadcastMessage
                 (JObj [("type", JStr "system");
                        ("text", JStr (to_string name' +:+ " joined."))]) None) filed).
  { unfold WebRTCManager.handleMessage.
    erewrite run_bind by (unfold lift; rewrite Hty; reflexivity).
    erewrite run_bind by (apply this_spec; exact Hm).
    str_tests. rewrite Hcb.
    erewrite run_bind by (unfold lift; rewrite Hu; reflexivity).
    unfold App.handlers, call_onPeerJoin, App.webrtc_onPeerJoin, App.updatePeerCount.
    erewrite run_bind by reflexivity.
    erewrite run_bind by (apply this_spec; exact Hm).
    erewrite run_bind by reflexivity.
    rewrite bind_assoc_M. erewrite run_bind by reflexivity.
    erewrite run_bind by reflexivity.
    match goal with |- ?f ?wa = ?g ?wb => assert (Hw : wa = wb) end.
    { subst filed registry. unfold set_state, joined, obj_keys, App.with_peers.
      cbn [now channels conns webrtc state store page peers fst snd].
      by rewrite length_map. }
    rewrite Hw. reflexivity. }
  split.
  - intros name Hname Hhost Hsound. rewrite Hstart.
    erewrite run_bind by (unfold lift; rewrite Hname; reflexivity).
    erewrite run_bind by reflexivity.
    erewrite run_bind by (unfold lift; rewrite Hname; reflexivity).
    apply (broadcastMessage_spec _ None
             (with_page (fun p => p ++ [SystemMessage (joined_notice name)]) filed));
      [exact Hhost | by exists m | exact Hsound].
  - intros e Hname. rewrite Hstart.
    erewrite run_bind_throw by (unfold lift; rewrite Hname; reflexivity).
    reflexivity.
Qed.

Lemma peer_join_announced_witness :
  let w' := exec (WebRTCManager.handleMessage App.handlers (identity_message Bob))
                 (exec (at_time 1730000000009) host_connected) in
  (peerChannel <$> obj_get "1730000000009" (peers (state w'))) = Some (Some 0)
  /\ (last <$> (outbox <$> channels w' !! 0))
     = Some (Some (stringify (system_message (JStr "Bob joined.")))).
Proof.
  assert (Hm : webrtc (exec (at_time 1730000000009) host_connected) = Some host_manager)
    by (vm_compute; reflexivity).
  destruct (peer_join_announced (identity_message Bob) Bob
              (exec (at_time 1730000000009) host_connected) host_manager
              Hm eq_refl eq_refl eq_refl) as [Hjoin _].
  cbv zeta. unfold exec at 1 3.
  rewrite (Hjoin (JStr "Bob")) by (vm_compute; reflexivity).
  vm_compute. split; reflexivity.
Defined.


(** ** A channel closes *)

(** X24. When any channel with installed handlers closes, on a guest or on
    a host, the page is marked disconnected and tells the user so
    ([Disconnected from host], also on the host).  Nothing else changes:
    the manager keeps its fields and the registry keeps the peer whose
    channel it was.  From then on [sendMessage] does nothing, whatever the
    text, although a host's other channels are still open. *)
Theorem channel_close_disconnects (w : World) (m : Manager) (c : nat) (ch : Channel)
    (role : Role) :
  webrtc w = Some m -> onDisconnected m = true ->
  channels w !! c = Some ch -> chanHandlers ch = Some role ->
  let w' :=
    {| now := now w;
       channels := alter (with_readyState closed) c (channels w);
       conns := conns w; webrtc := webrtc w;
       state := App.with_isConnected false (state w);
       store := store w;
       page := page w ++ disconnected_notices role |} in
  WebRTCManager.fire_close App.handlers c w = (Normal tt, w')
  /\ peers (state w') = peers (state w)
  /\ forall text, App.sendMessage text w' = (Normal tt, w').
Proof.
  intros Hm Hcb Hch Hrole w'. split; [|split; [reflexivity|]].
  - unfold WebRTCManager.fire_close.
    erewrite run_bind by (unfold chan_get; rewrite Hch; reflexivity).
    erewrite run_bind by reflexivity.
    rewrite Hrole. unfold WebRTCManager.onclose.
    erewrite run_bind by reflexivity.
    erewrite run_bind by (apply this_spec; exact Hm).
    rewrite Hcb. unfold App.handlers, call_onDisconnected, App.webrtc_onDisconnected,
      App.updateConnectionStatus.
    erewrite run_bind by reflexivity.
    erewrite run_bind by reflexivity.
    unfold show. f_equal. subst w'. unfold set_state, set_channels, disconnected_notices.
    cbn [now channels conns webrtc state store page].
    by rewrite <- !app_assoc.
  - intros text. unfold App.sendMessage. erewrite run_bind by reflexivity.
    cbn [state App.with_isConnected isConnected negb]. by rewrite orb_true_r.
Qed.

Lemma channel_close_disconnects_witness :
  let w' := exec (WebRTCManager.fire_close App.handlers 0) host_of_three in
  isConnected (state w') = false
  /\ length (peers (state w')) = 3
  /\ App.sendMessage "hello" w' = (Normal tt, w').
Proof.
  assert (Hch : channels host_of_three !! 0
                = Some (default new_channel (channels host_of_three !! 0)))
    by (vm_compute; reflexivity).
  assert (Hm : webrtc host_of_three
               = Some (default new_WebRTCManager (webrtc host_of_three)))
    by (vm_compute; reflexivity).
  destruct (channel_close_disconnects host_of_three _ 0 _ host Hm eq_refl Hch eq_refl)
    as (Hrun & Hpeers & Hsend).
  cbv zeta. unfold exec. rewrite Hrun. cbn [snd].
  split; [reflexivity|]. split; [reflexivity|]. apply Hsend.
Defined.

(** ** The guest's link comes up *)

(** X25. On the guest, when the platform delivers the host's channel to a
    connection whose [ondatachannel] handler is installed, the channel
    becomes the manager's channel with the guest's handlers on it, the
    store (when there is one) records the [connected] event, and nothing
    else changes; the handler returns normally when there is no store or
    none of the store's listeners can throw, and otherwise ends as the
    store's [setState] does, which is its last step.  When that channel
    then opens, the page is marked connected and the channel carries the
    guest's identity followed by [req-identity]. *)
Theorem guest_link_comes_up (w : World) (m : Manager) (p : nat) (pc : PeerConnection) :
  webrtc w = Some m -> onConnected m = true ->
  conns w !! p = Some pc -> ondatachannel pc = true ->
  let c := length (channels w) in
  let arrived := with_chanHandlers guest new_channel in
  let recorded :=
    StateManager.setState
      [("lastEvent", JObj [("event", JStr "connected"); ("data", JUndefined);
                           ("timestamp", JNum (now w))])] "update" in
  let w1 :=
    {| now := now w; channels := channels w ++ [arrived]; conns := conns w;
       webrtc := Some (WebRTCManager.with_channel (Some c) m);
       state := state w;
       store := (fun st => snd (recorded st)) <$> store w;
       page := page w |} in
  WebRTCManager.fire_datachannel p w
  = (from_option (fun st => fst (recorded st)) (Normal tt) (store w), w1)
  /\ ((forall st, store w = Some st -> quiet_store st) ->
      WebRTCManager.fire_datachannel p w = (Normal tt, w1))
  /\ let w2 := exec (WebRTCManager.fire_open App.handlers c) w1 in
     result (WebRTCManager.fire_open App.handlers c) w1 = Normal tt
     /\ channels w2
        = channels w ++ [opened [stringify (identity_message (user (state w)));
                                 req_identity_frame] arrived]
     /\ isConnected (state w2) = true
     /\ webrtc w2 = webrtc w1.
Proof.
  intros Hm Hcb Hpc Hdc c arrived recorded w1.
  assert (Hrun : WebRTCManager.fire_datachannel p w
                 = (from_option (fun st => fst (recorded st)) (Normal tt) (store w), w1)).
  { unfold WebRTCManager.fire_datachannel.
    erewrite run_bind by (unfold pc_get; rewrite Hpc; reflexivity).
    erewrite run_bind by reflexivity.
    rewrite Hdc. unfold WebRTCManager.ondatachannel_handler,
      WebRTCManager.setupChannelHandlers.
    erewrite run_bind by (apply this_spec; exact Hm).
    erewrite run_bind by reflexivity.
    erewrite run_bind by reflexivity.
    unfold WebRTCManager.emit, set_channels, set_webrtc, set_store.
    cbn [now channels conns webrtc state store page]. rewrite Hm.
    rewrite alter_last. subst w1 arrived c recorded.
    destruct (store w) as [st|]; [|reflexivity].
    cbn [from_option fmap option_fmap option_map].
    by destruct (StateManager.setState _ "update" st). }
  split; [exact Hrun|]. split.
  { intros Hquiet. rewrite Hrun. f_equal.
    destruct (store w) as [st|]; [|reflexivity]. cbn [from_option].
    apply setState_quiet. by apply Hquiet. }
  assert (Hch : channels w1 !! c = Some arrived).
  { subst w1 c. cbn [channels]. by rewrite lookup_app_r, Nat.sub_diag by lia. }
  destruct (fire_open_spec w1 (WebRTCManager.with_channel (Some c) m) c arrived guest
              eq_refl Hcb Hch eq_refl eq_refl) as [Hopen _].
  cbv zeta. unfold result, exec. rewrite (Hopen eq_refl).
  cbn [fst snd set_channels channels state webrtc App.with_isConnected isConnected].
  repeat split.
  subst w1 c. cbn [channels]. by rewrite alter_last.
Qed.

Lemma guest_link_comes_up_witness :
  let w1 := exec (WebRTCManager.fire_datachannel 0) guest_answering in
  (channel <$> webrtc w1) = Some (Some 0)
  /\ result (WebRTCManager.fire_datachannel 0) guest_answering = Normal tt
  /\ (outbox <$> channels (exec (WebRTCManager.fire_open App.handlers 0) w1) !! 0)
     = Some [stringify (identity_message Ann); req_identity_frame].
Proof.
  assert (Hpc : conns guest_answering !! 0
                = Some (answering_connection (descriptor "offer" sample_sdp)))
    by (vm_compute; reflexivity).
  destruct (guest_link_comes_up guest_answering guest_answering_manager 0 _
              eq_refl eq_refl Hpc eq_refl) as (Hrun & _ & _ & Hout & _).
  cbv zeta. unfold exec at 1 3, result. rewrite Hrun. cbn [fst snd].
  split; [reflexivity|]. split; [reflexivity|].
  exact (f_equal (fun l => outbox <$> l !! 0) Hout).
Defined.


(** ** Storage: the chat history *)

Section Sessions.
Variable timeWindow : Z.

Lemma visit_logs (acc : list Storage.Session * option Storage.Session)
    (log : Storage.LogEntry) :
  acc_logs (Storage.visit timeWindow acc log) = acc_logs acc ++ [log].
Proof.
  destruct acc as [sessions [s|]]; unfold acc_logs, Storage.visit, Storage.finish; cbn.
  - destruct (Z.abs _ >? timeWindow)%Z; cbn;
      rewrite !fmap_app, !join_app; cbn; by rewrite ?app_nil_r, ?app_assoc.
  - rewrite !fmap_app, !join_app. cbn. by rewrite ?app_nil_r.
Qed.

Lemma foldl_visit_logs (logs : list Storage.LogEntry)
    (acc : list Storage.Session * option Storage.Session) :
  acc_logs (foldl (Storage.visit timeWindow) acc logs) = acc_logs acc ++ logs.
Proof.
  revert acc. induction logs as [|log logs IH]; intros acc; cbn.
  - by rewrite app_nil_r.
  - by rewrite IH, visit_logs, <- app_assoc.
Qed.

Lemma separated_snoc (sessions : list Storage.Session) (s1 s2 : Storage.Session) :
  Storage.separated timeWindow (sessions ++ [s1]) ->
  (Z.abs (Storage.sessionTimestamp s2 - Storage.sessionTimestamp s1) > timeWindow)%Z ->
  Storage.separated timeWindow ((sessions ++ [s1]) ++ [s2]).
Proof.
  induction sessions as [|s0 sessions IH]; intros Hsep Hgap.
  - cbn. done.
  - destruct sessions as [|s sessions]; cbn in *.
    + destruct Hsep as [H0 _]. done.
    + destruct Hsep as [H0 Hsep]. split; [done|]. by apply IH.
Qed.

Lemma separated_retime (sessions : list Storage.Session) (s s' : Storage.Session) :
  Storage.sessionTimestamp s' = Storage.sessionTimestamp s ->
  Storage.separated timeWindow (sessions ++ [s]) ->
  Storage.separated timeWindow (sessions ++ [s']).
Proof.
  intros Hts. induction sessions as [|s0 sessions IH]; intros Hsep; [done|].
  destruct sessions as [|s1 sessions]; cbn in *.
  - rewrite Hts. done.
  - destruct Hsep as [H0 Hsep]. split; [done|]. by apply IH.
Qed.

Lemma anchored_snoc (s : Storage.Session) (log : Storage.LogEntry) :
  Storage.anchored timeWindow s ->
  (Z.abs (Storage.logTimestamp log - Storage.sessionTimestamp s) <= timeWindow)%Z ->
  Storage.anchored timeWindow
    {| Storage.sessionTimestamp := Storage.sessionTimestamp s;
       Storage.sessionLogs := Storage.sessionLogs s ++ [log] |}.
Proof.
  intros (first & others & Hlogs & Hts & Hin) Hnear.
  exists first, (others ++ [log]). cbn. rewrite Hlogs. repeat split; [done|].
  apply Forall_app. split; [done|]. apply Forall_singleton. by rewrite <- Hts.
Qed.

Lemma anchored_start (log : Storage.LogEntry) :
  Storage.anchored timeWindow
    {| Storage.sessionTimestamp := Storage.logTimestamp log;
       Storage.sessionLogs := [] ++ [log] |}.
Proof. exists log, []. by repeat split. Qed.

Lemma visit_ok (acc : list Storage.Session * option Storage.Session)
    (log : Storage.LogEntry) :
  acc_ok timeWindow acc -> acc_ok timeWindow (Storage.visit timeWindow acc log).
Proof.
  destruct acc as [sessions [s|]]; unfold acc_ok, Storage.visit, Storage.finish; cbn.
  - intros (Hall & Hsep & _).
    destruct (Z.abs (Storage.logTimestamp log - Storage.sessionTimestamp s) >? timeWindow)%Z
      eqn:Hgap; cbn.
    + apply Z.gtb_lt in Hgap. repeat split; [| |done].
      * apply Forall_app. split; [done|]. apply Forall_singleton, anchored_start.
      * apply separated_snoc; [done|]. cbn. lia.
    + assert (Hnear : (Z.abs (Storage.logTimestamp log - Storage.sessionTimestamp s)
                       <= timeWindow)%Z).
      { destruct (Z.gtb_spec (Z.abs (Storage.logTimestamp log - Storage.sessionTimestamp s))
                    timeWindow); [discriminate|lia]. }
      apply Forall_app in Hall as [Hall Hs]. apply List.Forall_inv in Hs.
      repeat split; [| |done].
      * apply Forall_app. split; [done|]. apply Forall_singleton. by apply anchored_snoc.
      * by apply (separated_retime sessions s).
  - intros (Hall & Hsep & Hnil). rewrite (Hnil eq_refl). cbn.
    repeat split; try done.
    apply Forall_singleton, anchored_start.
Qed.

Lemma foldl_visit_ok (logs : list Storage.LogEntry)
    (acc : list Storage.Session * option Storage.Session) :
  acc_ok timeWindow acc -> acc_ok timeWindow (foldl (Storage.visit timeWindow) acc logs).
Proof.
  revert acc. induction logs as [|log logs IH]; intros acc Hacc; cbn; [done|].
  by apply IH, visit_ok.
Qed.

Lemma group_spec (logs : list Storage.LogEntry) :
  mjoin (Storage.sessionLogs <$> Storage.group timeWindow logs) = logs
  /\ Forall (Storage.anchored timeWindow) (Storage.group timeWindow logs)
  /\ Storage.separated timeWindow (Storage.group timeWindow logs).
Proof.
  unfold Storage.group. split.
  - exact (foldl_visit_logs logs ([], None)).
  - destruct (foldl_visit_ok logs ([], None)) as (Hall & Hsep & _); [|done].
    repeat split; try done; constructor.
Qed.
End Sessions.

(** X26. The sessions of the history.  Whatever the logs and the window,
    [getBySession] cuts the logs it reads into consecutive runs: the
    sessions' logs, put end to end, are the logs in their order, nothing
    lost or repeated; every session has at least one log, carries the
    timestamp of its first log, and all its logs lie within the window of
    that first log (not of their neighbour); and each session's timestamp
    lies beyond the window of the session before it. *)
Theorem sessions_partition (timeWindow : Z) (rows : list Storage.LogEntry) :
  mjoin (Storage.sessionLogs <$> Storage.getBySession timeWindow rows)
  = Storage.getAll 10000 true rows
  /\ Forall (Storage.anchored timeWindow) (Storage.getBySession timeWindow rows)
  /\ Storage.separated timeWindow (Storage.getBySession timeWindow rows).
Proof. apply group_spec. Qed.

Lemma rev_take_drop {A} (n : nat) (l : list A) :
  take n (rev l) = rev (drop (length l - n) l).
Proof. apply List.firstn_rev. Qed.

(** X27. [getAll(limit, reverse)] on the rows of the timestamp index.  A
    limit of 0 is no limit: all rows are returned.  With a positive limit
    and [reverse] (the defaults), the result is the [limit] newest rows,
    newest first, and all rows when there are no more than [limit]; so
    [getBySession] groups the 10000 newest logs at most. *)
Theorem getAll_limit (limit : Z) (rows : list Storage.LogEntry) :
  Storage.getAll 0 true rows = rev rows
  /\ Storage.getAll 0 false rows = rows
  /\ ((0 < limit)%Z ->
        Storage.getAll limit true rows
        = rev (drop (length rows - Z.to_nat limit) rows)
        /\ length (Storage.getAll limit true rows) = Nat.min (Z.to_nat limit) (length rows)
        /\ Storage.getAll limit false rows = take (Z.to_nat limit) rows
        /\ (length rows <= Z.to_nat limit -> Storage.getAll limit true rows = rev rows)).
Proof.
  split; [reflexivity|]. split; [reflexivity|]. intros Hpos.
  unfold Storage.getAll, Storage.slice0.
  destruct (Z.eqb_spec limit 0) as [->|_]; [lia|].
  destruct (Z.ltb_spec limit 0) as [?|_]; [lia|].
  repeat split.
  - apply rev_take_drop.
  - by rewrite length_take, length_rev.
  - intros Hall. rewrite take_ge; [done|]. by rewrite length_rev.
Qed.

Lemma getAll_limit_witness :
  Storage.getAll 2 true (rev sample_logs) = take 2 sample_logs.
Proof.
  destruct (getAll_limit 2 (rev sample_logs)) as (_ & _ & Hpos).
  destruct (Hpos ltac:(lia)) as (Hnewest & _). rewrite Hnewest. reflexivity.
Defined.


(** ** The scanner's loop *)

Lemma scan_blank (f : QRScanner.Frame) (s : QRScanner.Scanner) :
  QRScanner.isScanning s = true -> QRScanner.video s = true ->
  scanAttempts_le s ->
  QRScanner.blank f = true ->
  QRScanner.scan f s
  = ({| QRScanner.video := QRScanner.video s; QRScanner.stream := QRScanner.stream s;
        QRScanner.isScanning := QRScanner.isScanning s;
        QRScanner.scanAttempts := S (QRScanner.scanAttempts s);
        QRScanner.maxScanAttempts := QRScanner.maxScanAttempts s;
        QRScanner.manualToggle := QRScanner.manualToggle s;
        QRScanner.statuses := QRScanner.statuses s;
        QRScanner.scans := QRScanner.scans s |}, true).
Proof.
  intros Hscan Hvid Hle Hblank. unfold QRScanner.scan.
  rewrite Hscan, Hvid. cbn [negb orb].
  unfold scanAttempts_le in Hle.
  destruct (Nat.ltb_spec (QRScanner.maxScanAttempts s) (QRScanner.scanAttempts s));
    [lia|].
  unfold QRScanner.blank in Hblank.
  destruct (QRScanner.enough f); cbn in *; [|done].
  apply bool_decide_eq_true in Hblank. by rewrite Hblank.
Qed.

Lemma run_blank (frames : list QRScanner.Frame) (s : QRScanner.Scanner) :
  QRScanner.isScanning s = true -> QRScanner.video s = true ->
  forallb QRScanner.blank frames = true ->
  QRScanner.scanAttempts s + length frames <= S (QRScanner.maxScanAttempts s) ->
  QRScanner.run frames s
  = {| QRScanner.video := QRScanner.video s; QRScanner.stream := QRScanner.stream s;
       QRScanner.isScanning := QRScanner.isScanning s;
       QRScanner.scanAttempts := QRScanner.scanAttempts s + length frames;
       QRScanner.maxScanAttempts := QRScanner.maxScanAttempts s;
       QRScanner.manualToggle := QRScanner.manualToggle s;
       QRScanner.statuses := QRScanner.statuses s;
       QRScanner.scans := QRScanner.scans s |}.
Proof.
  revert s. induction frames as [|f frames IH]; intros s Hscan Hvid Hblank Hlen.
  - cbn. rewrite Nat.add_0_r. by destruct s.
  - cbn [forallb] in Hblank. apply andb_true_iff in Hblank as [Hf Hrest].
    cbn [length] in Hlen. cbn [QRScanner.run].
    rewrite (scan_blank f s Hscan Hvid) by (done || (unfold scanAttempts_le; lia)).
    rewrite IH by (cbn; first [done | lia]). cbn. f_equal. lia.
Qed.

Lemma scan_exhausted (f : QRScanner.Frame) (s : QRScanner.Scanner) :
  QRScanner.isScanning s = true -> QRScanner.video s = true ->
  QRScanner.maxScanAttempts s < QRScanner.scanAttempts s ->
  QRScanner.scan f s
  = ({| QRScanner.video := QRScanner.video s; QRScanner.stream := QRScanner.stream s;
        QRScanner.isScanning := false;
        QRScanner.scanAttempts := QRScanner.scanAttempts s;
        QRScanner.maxScanAttempts := QRScanner.maxScanAttempts s;
        QRScanner.manualToggle := true;
        QRScanner.statuses := QRScanner.statuses s ++ [(QRScanner.give_up_text, false)];
        QRScanner.scans := QRScanner.scans s |}, false).
Proof.
  intros Hscan Hvid Hgt. unfold QRScanner.scan. rewrite Hscan, Hvid. cbn [negb orb].
  destruct (Nat.ltb_spec (QRScanner.maxScanAttempts s) (QRScanner.scanAttempts s));
    [cbn; rewrite ?Hvid; reflexivity | lia].
Qed.

Lemma scan_detects (f : QRScanner.Frame) (s : QRScanner.Scanner) (data : string) :
  QRScanner.isScanning s = true -> QRScanner.video s = true ->
  QRScanner.scanAttempts s <= QRScanner.maxScanAttempts s ->
  QRScanner.enough f = true -> QRScanner.decoded f = Some data ->
  QRScanner.scan f s
  = ({| QRScanner.video := QRScanner.video s; QRScanner.stream := false;
        QRScanner.isScanning := false;
        QRScanner.scanAttempts := S (QRScanner.scanAttempts s);
        QRScanner.maxScanAttempts := QRScanner.maxScanAttempts s;
        QRScanner.manualToggle := QRScanner.manualToggle s;
        QRScanner.statuses := QRScanner.statuses s
                              ++ [("QR code detected! Connecting...", false)];
        QRScanner.scans := QRScanner.scans s ++ [data] |}, false).
Proof.
  intros Hscan Hvid Hle Henough Hdata. unfold QRScanner.scan.
  rewrite Hscan, Hvid, Henough, Hdata. cbn [negb orb].
  destruct (Nat.ltb_spec (QRScanner.maxScanAttempts s) (QRScanner.scanAttempts s));
    [lia | cbn; rewrite ?Hvid; reflexivity].
Qed.

Lemma run_app_blank (blanks rest : list QRScanner.Frame) (s : QRScanner.Scanner) :
  QRScanner.isScanning s = true -> QRScanner.video s = true ->
  forallb QRScanner.blank blanks = true ->
  QRScanner.scanAttempts s + length blanks <= S (QRScanner.maxScanAttempts s) ->
  QRScanner.run (blanks ++ rest) s = QRScanner.run rest (QRScanner.run blanks s).
Proof.
  revert s. induction blanks as [|b blanks IH]; intros s Hscan Hvid Hblank Hlen; [done|].
  cbn [forallb] in Hblank. apply andb_true_iff in Hblank as [Hb Hrest].
  cbn [length] in Hlen. cbn [app QRScanner.run].
  rewrite (scan_blank b s Hscan Hvid) by (done || (unfold scanAttempts_le; lia)).
  apply IH; cbn; first [done | lia].
Qed.

(** X28. The scanner's patience.  Started with a video element, the loop
    of [scan] looks at [maxScanAttempts + 1] frames, one more than the
    configured maximum, as long as no code is read; on the call after
    those it gives up: scanning is off, the manual entry is offered, the
    status says that no code was found, [onScan] has not been called, and
    no further frame is requested.  If instead one of those frames shows
    a code, the loop ends there: the camera is stopped and [onScan]
    receives the code once; later frames are not looked at. *)
Theorem scan_gives_up (s : QRScanner.Scanner) (blanks later : list QRScanner.Frame)
    (f : QRScanner.Frame) :
  QRScanner.isScanning s = true -> QRScanner.video s = true ->
  QRScanner.scanAttempts s = 0 ->
  forallb QRScanner.blank blanks = true ->
  (length blanks = S (QRScanner.maxScanAttempts s) ->
     let s' := QRScanner.run (blanks ++ f :: later) s in
     QRScanner.isScanning s' = false
     /\ QRScanner.scanAttempts s' = S (QRScanner.maxScanAttempts s)
     /\ QRScanner.manualToggle s' = true
     /\ QRScanner.statuses s' = QRScanner.statuses s ++ [(QRScanner.give_up_text, false)]
     /\ QRScanner.scans s' = QRScanner.scans s)
  /\ (forall data, length blanks <= QRScanner.maxScanAttempts s ->
        QRScanner.enough f = true -> QRScanner.decoded f = Some data ->
        let s' := QRScanner.run (blanks ++ f :: later) s in
        QRScanner.isScanning s' = false
        /\ QRScanner.stream s' = false
        /\ QRScanner.scanAttempts s' = S (length blanks)
        /\ QRScanner.scans s' = QRScanner.scans s ++ [data]).
Proof.
  intros Hscan Hvid Hzero Hblank.
  assert (Hrun : forall rest, length blanks <= S (QRScanner.maxScanAttempts s) ->
            QRScanner.run (blanks ++ rest) s
            = QRScanner.run rest (QRScanner.run blanks s)).
  { intros rest Hlen. apply run_app_blank; first [done | lia]. }
  split.
  - intros Hlen s'. subst s'. rewrite Hrun by lia.
    rewrite (run_blank blanks s) by (first [done | lia]).
    cbn [QRScanner.run]. rewrite scan_exhausted by (cbn; first [done | lia]).
    cbn. rewrite Hzero, Hlen. done.
  - intros data Hlen Henough Hdata s'. subst s'. rewrite Hrun by lia.
    rewrite (run_blank blanks s) by (first [done | lia]).
    cbn [QRScanner.run]. rewrite (scan_detects f _ data) by (cbn; first [done | lia]).
    cbn. rewrite Hzero. done.
Qed.

Lemma scan_gives_up_witness :
  let s := QRScanner.start true (QRScanner.create (Some 2)) in
  let seen := {| QRScanner.enough := true; QRScanner.decoded := Some "token" |} in
  let dark := {| QRScanner.enough := true; QRScanner.decoded := None |} in
  QRScanner.scans (QRScanner.run ([dark; dark; dark] ++ seen :: []) s) = []
  /\ QRScanner.scans (QRScanner.run ([dark; dark] ++ seen :: []) s) = ["token"].
Proof.
  cbv zeta. split.
  - destruct (scan_gives_up (QRScanner.start true (QRScanner.create (Some 2)))
                [ {| QRScanner.enough := true; QRScanner.decoded := None |};
                  {| QRScanner.enough := true; QRScanner.decoded := None |};
                  {| QRScanner.enough := true; QRScanner.decoded := None |} ] []
                {| QRScanner.enough := true; QRScanner.decoded := Some "token" |}
                eq_refl eq_refl eq_refl eq_refl) as [Hgive _].
    destruct (Hgive eq_refl) as (_ & _ & _ & _ & Hscans). exact Hscans.
  - destruct (scan_gives_up (QRScanner.start true (QRScanner.create (Some 2)))
                [ {| QRScanner.enough := true; QRScanner.decoded := None |};
                  {| QRScanner.enough := true; QRScanner.decoded := None |} ] []
                {| QRScanner.enough := true; QRScanner.decoded := Some "token" |}
                eq_refl eq_refl eq_refl eq_refl) as [_ Hseen].
    destruct (Hseen "token" ltac:(cbn; lia) eq_refl eq_refl) as (_ & _ & _ & Hscans).
    exact Hscans.
Defined.


(** ** The service worker: what is served without network *)

Lemma obj_get_set_same {A} (k : string) (v : A) (o : list (string * A)) :
  obj_get k (obj_set k v o) = Some v.
Proof. by rewrite obj_get_set, String.eqb_refl. Qed.

Lemma open_opened (name : string) (caches : ServiceWorker.CacheStorage) :
  let '(cache, caches1) := ServiceWorker.open name caches in
  obj_get name caches1 = Some cache.
Proof.
  unfold ServiceWorker.open. destruct (obj_get name caches) eqn:Hget; [done|].
  apply obj_get_set_same.
Qed.

Lemma put_lookup (name : string) (request : ServiceWorker.Request)
    (response : ServiceWorker.Response) (caches : ServiceWorker.CacheStorage) :
  ServiceWorker.accepted request response = true ->
  (cache ← obj_get name (ServiceWorker.put name request response true caches);
   obj_get (ServiceWorker.url request) cache) = Some response.
Proof.
  intros Hacc. unfold ServiceWorker.put. rewrite Hacc. cbn [andb].
  rewrite (obj_get_set_same (A := ServiceWorker.Cache)). cbn.
  apply (obj_get_set_same (A := ServiceWorker.Response)).
Qed.

Lemma put_refused (name : string) (request : ServiceWorker.Request)
    (response : ServiceWorker.Response) (room : bool)
    (caches : ServiceWorker.CacheStorage) :
  ServiceWorker.accepted request response && room = false ->
  ServiceWorker.put name request response room caches = caches.
Proof. intros Hno. unfold ServiceWorker.put. by rewrite Hno. Qed.

Lemma cacheFirst_hit (name : string) (request : ServiceWorker.Request)
    (network : option ServiceWorker.Response) (caches : ServiceWorker.CacheStorage)
    (cached : ServiceWorker.Response) :
  (cache ← obj_get name caches; obj_get (ServiceWorker.url request) cache) = Some cached ->
  ServiceWorker.cacheFirst name request network caches = (cached, caches, None).
Proof.
  unfold ServiceWorker.cacheFirst, ServiceWorker.open.
  destruct (obj_get name caches) as [cache|]; cbn; [|done]. by intros ->.
Qed.

Lemma networkFirst_offline_hit (index : string) (request : ServiceWorker.Request)
    (caches : ServiceWorker.CacheStorage) (cached : ServiceWorker.Response) :
  (cache ← obj_get ServiceWorker.DYNAMIC_CACHE caches;
   obj_get (ServiceWorker.url request) cache) = Some cached ->
  ServiceWorker.networkFirst index request None caches = (Some cached, caches, None).
Proof.
  unfold ServiceWorker.networkFirst, ServiceWorker.open.
  destruct (obj_get ServiceWorker.DYNAMIC_CACHE caches) as [cache|]; cbn; [|done].
  by intros ->.
Qed.

(** What a route leaves pending is a put of its answer, into its cache,
    for its request; and it leaves one pending whenever it answers from
    the network with an [ok] response. *)
Lemma cacheFirst_pending (name : string) (request : ServiceWorker.Request)
    (network : option ServiceWorker.Response) (caches : ServiceWorker.CacheStorage) :
  let '(first, caches1, pending) := ServiceWorker.cacheFirst name request network caches in
  (pending = None
   \/ pending = Some {| ServiceWorker.into := name; ServiceWorker.request_put := request;
                        ServiceWorker.response_put := first |})
  /\ (pending = None -> ServiceWorker.ok first = true ->
      (cache ← obj_get name caches1; obj_get (ServiceWorker.url request) cache)
      = Some first).
Proof.
  unfold ServiceWorker.cacheFirst, ServiceWorker.open.
  destruct (obj_get name caches) as [cache|] eqn:Hcache.
  - destruct (obj_get (ServiceWorker.url request) cache) as [cached|] eqn:Hhit.
    + split; [by left|]. intros _ _. by rewrite Hcache.
    + destruct network as [response|]; [|split; [by left|done]].
      destruct (ServiceWorker.ok response) eqn:Hok; (split; [by auto|]);
        [done | intros _; congruence].
  - cbn. destruct network as [response|]; [|split; [by left|done]].
    destruct (ServiceWorker.ok response) eqn:Hok; (split; [by auto|]);
      [done | intros _; congruence].
Qed.

Lemma cacheFirst_replay (name : string) (request : ServiceWorker.Request)
    (network : option ServiceWorker.Response) (caches : ServiceWorker.CacheStorage)
    (room : bool) :
  let '(first, caches1, pending) := ServiceWorker.cacheFirst name request network caches in
  ServiceWorker.ok first = true ->
  (pending <> None -> ServiceWorker.accepted request first = true /\ room = true) ->
  forall later,
    fst (fst (ServiceWorker.cacheFirst name request later
                (ServiceWorker.settle pending room caches1))) = first.
Proof.
  pose proof (cacheFirst_pending name request network caches) as Hpending.
  destruct (ServiceWorker.cacheFirst name request network caches)
    as [[first caches1] pending].
  destruct Hpending as [[->| ->] Hhit]; intros Hok Hstored later.
  - cbn [ServiceWorker.settle]. by rewrite (cacheFirst_hit _ _ _ _ first (Hhit eq_refl Hok)).
  - destruct (Hstored ltac:(done)) as [Hacc ->].
    cbn [ServiceWorker.settle ServiceWorker.into ServiceWorker.request_put
         ServiceWorker.response_put].
    by rewrite (cacheFirst_hit _ _ _ _ first (put_lookup _ _ _ _ Hacc)).
Qed.

Lemma networkFirst_replay (index : string) (request : ServiceWorker.Request)
    (response : ServiceWorker.Response) (caches : ServiceWorker.CacheStorage) :
  let '(first, caches1, pending) :=
    ServiceWorker.networkFirst index request (Some response) caches in
  first = Some response
  /\ pending
     = (if ServiceWorker.ok response
        then Some {| ServiceWorker.into := ServiceWorker.DYNAMIC_CACHE;
                     ServiceWorker.request_put := request;
                     ServiceWorker.response_put := response |}
        else None)
  /\ (ServiceWorker.ok response = true ->
      ServiceWorker.accepted request response = true ->
      fst (fst (ServiceWorker.networkFirst index request None
                  (ServiceWorker.settle pending true caches1))) = Some response).
Proof.
  unfold ServiceWorker.networkFirst at 1. unfold ServiceWorker.open.
  destruct (obj_get ServiceWorker.DYNAMIC_CACHE caches) as [cache|] eqn:Hcache;
    (split; [done|]); (split; [done|]); intros -> Hacc;
    cbn [ServiceWorker.settle ServiceWorker.into ServiceWorker.request_put
         ServiceWorker.response_put];
    by rewrite (networkFirst_offline_hit _ _ _ response (put_lookup _ _ _ _ Hacc)).
Qed.

Lemma settle_refused (pending : option ServiceWorker.Put) (room : bool)
    (caches : ServiceWorker.CacheStorage) :
  (forall p, pending = Some p ->
     ServiceWorker.accepted (ServiceWorker.request_put p) (ServiceWorker.response_put p)
     && room = false) ->
  ServiceWorker.settle pending room caches = caches.
Proof.
  destruct pending as [p|]; [|done]. intros Hno. cbn.
  by apply put_refused, Hno.
Qed.

Lemma sw_routes (index : string) (request : ServiceWorker.Request)
    (response : ServiceWorker.Response) (caches : ServiceWorker.CacheStorage)
    (room : bool) :
  ServiceWorker.method request = "GET" ->
  ServiceWorker.startsWith "http" (ServiceWorker.protocol request) = true ->
  exists first caches1 pending,
    ServiceWorker.onfetch index request (Some response) caches
    = Some (Some first, caches1, pending)
    /\ (pending = None
        \/ exists name,
             pending = Some {| ServiceWorker.into := name;
                               ServiceWorker.request_put := request;
                               ServiceWorker.response_put := first |})
    /\ (ServiceWorker.ok first = true ->
        (pending <> None -> ServiceWorker.accepted request first = true /\ room = true) ->
        ServiceWorker.answer
          (ServiceWorker.onfetch index request None
             (ServiceWorker.settle pending room caches1)) = Some (Some first))
    /\ (ServiceWorker.isStaticAsset request || ServiceWorker.isCDNAsset request = true ->
        ServiceWorker.ok first = true ->
        (pending <> None -> ServiceWorker.accepted request first = true /\ room = true) ->
        forall later,
          ServiceWorker.answer
            (ServiceWorker.onfetch index request later
               (ServiceWorker.settle pending room caches1)) = Some (Some first))
    /\ (ServiceWorker.isStaticAsset request || ServiceWorker.isCDNAsset request = false ->
        first = response
        /\ (ServiceWorker.ok response = true -> pending <> None)).
Proof.
  intros Hget Hhttp. unfold ServiceWorker.onfetch. rewrite Hget, Hhttp. cbn [negb String.eqb].
  change (negb ("GET" =? "GET")%string) with false. cbv iota.
  destruct (ServiceWorker.isStaticAsset request) eqn:Hstatic.
  - pose proof (cacheFirst_replay ServiceWorker.STATIC_CACHE request (Some response) caches
                  room) as Hreplay.
    pose proof (cacheFirst_pending ServiceWorker.STATIC_CACHE request (Some response) caches)
      as Hpending.
    destruct (ServiceWorker.cacheFirst ServiceWorker.STATIC_CACHE request (Some response)
                caches) as [[first caches1] pending].
    destruct Hpending as [Hpending _].
    exists first, caches1, pending.
    split; [done|]. split; [destruct Hpending; eauto|]. split; [|split; [|done]].
    + intros Hok Hst. specialize (Hreplay Hok Hst None).
      destruct (ServiceWorker.cacheFirst _ _ None _) as [[? ?] ?]. cbn in *. by subst.
    + intros _ Hok Hst later. specialize (Hreplay Hok Hst later).
      destruct (ServiceWorker.cacheFirst _ _ later _) as [[? ?] ?]. cbn in *. by subst.
  - destruct (ServiceWorker.isCDNAsset request) eqn:Hcdn.
    + pose proof (cacheFirst_replay ServiceWorker.DYNAMIC_CACHE request (Some response)
                    caches room) as Hreplay.
      pose proof (cacheFirst_pending ServiceWorker.DYNAMIC_CACHE request (Some response) caches)
      as Hpending.
      destruct (ServiceWorker.cacheFirst ServiceWorker.DYNAMIC_CACHE request (Some response)
                  caches) as [[first caches1] pending].
      destruct Hpending as [Hpending _].
      exists first, caches1, pending.
      split; [done|]. split; [destruct Hpending; eauto|]. split; [|split; [|done]].
      * intros Hok Hst. specialize (Hreplay Hok Hst None).
        destruct (ServiceWorker.cacheFirst _ _ None _) as [[? ?] ?]. cbn in *. by subst.
      * intros _ Hok Hst later. specialize (Hreplay Hok Hst later).
        destruct (ServiceWorker.cacheFirst _ _ later _) as [[? ?] ?]. cbn in *. by subst.
    + pose proof (networkFirst_replay index request response caches) as Hreplay.
      destruct (ServiceWorker.networkFirst index request (Some response) caches)
        as [[first caches1] pending].
      destruct Hreplay as (-> & Hpending & Hreplay). exists response, caches1, pending.
      split; [done|].
      split. { rewrite Hpending. destruct (ServiceWorker.ok response); eauto. }
      split; [|split; [done|]].
      * intros Hok Hst.
        assert (Hsome : pending <> None) by (rewrite Hpending, Hok; done).
        destruct (Hst Hsome) as [Hacc ->].
        unfold ServiceWorker.answer. cbn. by rewrite (Hreplay Hok Hacc).
      * intros _. split; [done|]. intros Hok. by rewrite Hpending, Hok.
Qed.

(** X29. What the service worker serves without network.  For every
    request the worker answers (GET over http or https), made while the
    network was there and answered with an [ok] response: the worker
    keeps a copy only through a [cache.put] that it does not await, and
    that the cache refuses for a response of status 206 or with [Vary: *]
    (or for want of room).  If the answer came from the cache (no put is
    pending), or the pending put is one the cache takes and has settled,
    then the same request made again is answered with that very response:
    by the cache-first routes with the network gone or not (the first
    good copy is kept and never refreshed), by the network-first route
    with the network gone.  While the network answers, the network-first
    route hands out the network's response, whatever the cache holds.  A
    put that the cache refuses leaves the cache storage as it was: of
    such a response the worker holds no copy. *)
Theorem sw_offline_replay (index : string) (request : ServiceWorker.Request)
    (response : ServiceWorker.Response) (caches : ServiceWorker.CacheStorage)
    (room : bool) :
  ServiceWorker.method request = "GET" ->
  ServiceWorker.startsWith "http" (ServiceWorker.protocol request) = true ->
  exists first caches1 pending,
    ServiceWorker.onfetch index request (Some response) caches
    = Some (Some first, caches1, pending)
    /\ (ServiceWorker.ok first = true ->
        (pending <> None -> ServiceWorker.accepted request first = true /\ room = true) ->
        ServiceWorker.answer
          (ServiceWorker.onfetch index request None
             (ServiceWorker.settle pending room caches1)) = Some (Some first))
    /\ (ServiceWorker.isStaticAsset request || ServiceWorker.isCDNAsset request = true ->
        ServiceWorker.ok first = true ->
        (pending <> None -> ServiceWorker.accepted request first = true /\ room = true) ->
        forall later,
          ServiceWorker.answer
            (ServiceWorker.onfetch index request later
               (ServiceWorker.settle pending room caches1)) = Some (Some first))
    /\ (ServiceWorker.isStaticAsset request || ServiceWorker.isCDNAsset request = false ->
        first = response
        /\ (ServiceWorker.ok response = true -> pending <> None))
    /\ (ServiceWorker.accepted request first && room = false ->
        ServiceWorker.settle pending room caches1 = caches1).
Proof.
  intros Hget Hhttp.
  destruct (sw_routes index request response caches room Hget Hhttp)
    as (first & caches1 & pending & Hrun & Hpending & Hoff & Hpin & Hnet).
  exists first, caches1, pending. repeat (split; [done|]).
  intros Hno. apply settle_refused. intros p Hp.
  destruct Hpending as [->|[name ->]]; [done|]. by injection Hp as <-.
Qed.

Lemma sw_offline_replay_witness :
  exists caches1 pending,
    ServiceWorker.onfetch "https://chat.example/index.html" script_request
      (Some (fresh_response "v1")) []
    = Some (Some (fresh_response "v1"), caches1, pending)
    /\ ServiceWorker.answer
         (ServiceWorker.onfetch "https://chat.example/index.html" script_request
            (Some (fresh_response "v2")) (ServiceWorker.settle pending true caches1))
       = Some (Some (fresh_response "v1")).
Proof.
  destruct (sw_offline_replay "https://chat.example/index.html" script_request
              (fresh_response "v1") [] true eq_refl eq_refl)
    as (first & caches1 & pending & Hrun & _ & Hpin & _).
  assert (Hfirst : first = fresh_response "v1").
  { vm_compute in Hrun. by injection Hrun as <- _ _. }
  subst first. exists caches1, pending. split; [exact Hrun|].
  apply (Hpin eq_refl eq_refl). intros _. split; reflexivity.
Defined.

(** A partial response is handed out but not kept: the put that the
    worker makes for it is refused, and the same request without network
    is answered [Offline]. *)
Example partial_response_not_kept :
  ServiceWorker.ok (partial_response "bytes") = true
  /\ ServiceWorker.onfetch "https://chat.example/index.html" script_request
       (Some (partial_response "bytes")) []
     = Some (Some (partial_response "bytes"), [(ServiceWorker.STATIC_CACHE, [])],
             Some {| ServiceWorker.into := ServiceWorker.STATIC_CACHE;
                     ServiceWorker.request_put := script_request;
                     ServiceWorker.response_put := partial_response "bytes" |})
  /\ ServiceWorker.settle
       (Some {| ServiceWorker.into := ServiceWorker.STATIC_CACHE;
                ServiceWorker.request_put := script_request;
                ServiceWorker.response_put := partial_response "bytes" |})
       true [(ServiceWorker.STATIC_CACHE, [])]
     = [(ServiceWorker.STATIC_CACHE, [])]
  /\ ServiceWorker.answer
       (ServiceWorker.onfetch "https://chat.example/index.html" script_request None
          [(ServiceWorker.STATIC_CACHE, [])])
     = Some (Some ServiceWorker.offline_text).
Proof. repeat split; reflexivity. Qed.


(** ** The profile across reloads *)

Lemma wf_obj_set (k : string) (v : value) (o : object) :
  wf_json v = true -> wf_json (JObj o) = true -> wf_json (JObj (obj_set k v o)) = true.
Proof.
  intros Hv Ho. cbn [wf_json] in *. apply andb_true_iff in Ho as [Hnd Hall].
  apply andb_true_iff. split.
  - apply bool_decide_eq_true. apply bool_decide_eq_true in Hnd.
    by apply obj_set_NoDup.
  - by apply obj_set_wf.
Qed.

Lemma stringify_not_empty (v : value) : String.eqb (stringify v) "" = false.
Proof.
  pose proof (stringify_length v) as Hlen.
  destruct (stringify v); [cbn in Hlen; lia | reflexivity].
Qed.

Lemma initApp_restores (u : value) (uuid : string) (w0 : World) (o : object) :
  u = JObj o -> wf_json u = true ->
  App.initApp (Some (stringify u)) uuid w0
  = (Normal tt,
     set_state (fun s =>
       {| user := u; appIsHost := appIsHost s; isConnected := isConnected s;
          peers := peers s; currentScreen := currentScreen s; isReady := true |}) w0).
Proof.
  intros Hu Hwf. unfold App.initApp.
  rewrite stringify_not_empty, (JSON_parse_stringify u Hwf). subst u.
  cbn [get_prop]. reflexivity.
Qed.

(** X30. The profile survives a reload.  With a user object in [state] and
    a non-blank name, [saveProfile] sets the name, gives the user a
    generated avatar address if it has none, and writes the user as JSON
    to the local storage; whatever else the user object holds (its id in
    particular) is kept.  When the page is loaded again with that text in
    the storage, [initApp] makes exactly that user the current one, does
    not generate a new id, and marks the application ready. *)
Theorem profile_persists (name uuid : string) (w : World) (o : object) :
  user (state w) = JObj o -> wf_json (JObj o) = true -> name <> "" ->
  exists text saved,
    result (Profile.saveProfile name true) w = Normal (Some text)
    /\ user (state (exec (Profile.saveProfile name true) w)) = JObj saved
    /\ obj_get "name" saved = Some (JStr name)
    /\ (exists avatar, obj_get "avatar" saved = Some avatar /\ Profile.truthy avatar = true)
    /\ (forall k, k <> "name" -> k <> "avatar" -> obj_get k saved = obj_get k o)
    /\ forall w0,
         App.initApp (Some text) uuid w0
         = (Normal tt,
            set_state (fun s =>
              {| user := JObj saved; appIsHost := appIsHost s;
                 isConnected := isConnected s; peers := peers s;
                 currentScreen := currentScreen s; isReady := true |}) w0).
Proof.
  intros Hu Hwf Hname. apply String.eqb_neq in Hname.
  set (o1 := obj_set "name" (JStr name) o).
  assert (Hwf1 : wf_json (JObj o1) = true) by (by apply wf_obj_set).
  assert (Hname1 : obj_get "name" o1 = Some (JStr name)) by apply obj_get_set_same.
  destruct (Profile.truthy (default JUndefined (obj_get "avatar" o1))) eqn:Havatar.
  - exists (stringify (JObj o1)), o1.
    assert (Hrun : Profile.saveProfile name true w
              = (Normal (Some (stringify (JObj o1))),
                 set_state (App.with_currentScreen "lobby")
                   (set_state (Profile.with_user (JObj o1)) w))).
    { unfold Profile.saveProfile. rewrite Hname.
      erewrite run_bind by reflexivity. rewrite Hu.
      erewrite run_bind by reflexivity.
      erewrite run_bind by reflexivity.
      erewrite run_bind by reflexivity.
      cbn [get_prop]. fold o1. rewrite Havatar.
      erewrite run_bind by reflexivity.
      erewrite run_bind by reflexivity.
      destruct w as [t chs pcs mgr [usr h c ps scr rdy] sto pg]. reflexivity. }
    unfold result, exec. rewrite Hrun. cbn [fst snd].
    split; [done|]. split; [done|]. split; [done|]. split.
    { destruct (obj_get "avatar" o1) as [a|]; [by exists a | discriminate Havatar]. }
    split.
    { intros k Hk _. subst o1. rewrite obj_get_set. by destruct (String.eqb_spec k "name"). }
    intros w0. by apply (initApp_restores (JObj o1) uuid w0 o1).
  - set (o2 := obj_set "avatar" (JStr (Profile.default_avatar name)) o1).
    exists (stringify (JObj o2)), o2.
    assert (Hrun : Profile.saveProfile name true w
              = (Normal (Some (stringify (JObj o2))),
                 set_state (App.with_currentScreen "lobby")
                   (set_state (Profile.with_user (JObj o2)) w))).
    { unfold Profile.saveProfile. rewrite Hname.
      erewrite run_bind by reflexivity. rewrite Hu.
      erewrite run_bind by reflexivity.
      erewrite run_bind by reflexivity.
      erewrite run_bind by reflexivity.
      cbn [get_prop]. fold o1. rewrite Havatar.
      erewrite run_bind by reflexivity.
      erewrite run_bind by reflexivity.
      destruct w as [t chs pcs mgr [usr h c ps scr rdy] sto pg]. reflexivity. }
    unfold result, exec. rewrite Hrun. cbn [fst snd].
    split; [done|]. split; [done|]. split.
    { subst o2. rewrite obj_get_set. cbn. exact Hname1. }
    split.
    { exists (JStr (Profile.default_avatar name)). split; [apply obj_get_set_same|].
      reflexivity. }
    split.
    { intros k Hk Hk'. subst o2 o1. rewrite !obj_get_set.
      destruct (String.eqb_spec k "avatar"); [done|].
      by destruct (String.eqb_spec k "name"). }
    intros w0. apply (initApp_restores (JObj o2) uuid w0 o2); [done|].
    by apply wf_obj_set.
Qed.

Lemma profile_persists_witness :
  exists text,
    result (Profile.saveProfile "Zoe" true) (exec (App.initApp None "u-zoe") (App.boot 0))
    = Normal (Some text)
    /\ get_prop (user (state (exec (App.initApp (Some text) "other") (App.boot 1)))) "id"
       = Normal (JStr "u-zoe").
Proof.
  destruct (profile_persists "Zoe" "other" (exec (App.initApp None "u-zoe") (App.boot 0))
              [("id", JStr "u-zoe"); ("name", JStr ""); ("avatar", JStr "")]
              eq_refl eq_refl ltac:(discriminate))
    as (text & saved & Hsave & _ & _ & _ & Hkeep & Hload).
  exists text. split; [exact Hsave|].
  unfold exec. rewrite Hload. cbn [snd set_state state user get_prop].
  rewrite (Hkeep "id") by discriminate. reflexivity.
Defined.
